(** * Battle simulator: fighter engine, animal engine, combat resolution

    A shallow embedding of the behaviour engines of the battle simulator
    ([FighterAI], [AnimalAI]), of the session logic of [BattleSimulator]
    (setup, placement, start, the frame update, the end of battle) and of the
    key handling of [InputManager], followed by the properties the
    specification states about them and by further properties of the
    session, the commander and the animal engine.

    Numbers.  A JavaScript number is modelled as an exact rational or the
    non-finite value [NaN]: arithmetic is exact (no rounding, but for the
    defeat score, which is computed in binary64 because rounding changes it
    at ordinary values), a division by zero is not finite, and a comparison
    with a non-finite value is false.
    The code produces [Infinity] only by dividing a non-zero index by a zero
    fighter count, which no roster does; such results are folded into [NaN].
    The transcendental functions of [Math] are parameters ([MathLib]).

    Effects.  [Math.random] is an oracle read through a counter kept in the
    game; an uncaught JavaScript error is a result [Throw]; the messages sent
    to the UI are logged in the game.  Rendering (mesh positions, scale
    pulses, attack and rally effects, console output) is left out; of a mesh
    only its colour, the "defeated" marker, is kept. *)

From Stdlib Require Import ZArith QArith Qabs Qround Qpower Lqa Lia Bool.
From stdpp Require Import base option list strings gmap.

Local Open Scope Q_scope.

(** ** JavaScript numbers *)

Inductive num : Type :=
| Fin (q : Q)
| NaN.

Definition Qltb (x y : Q) : bool := negb (Qle_bool y x).

Definition num1 (f : Q -> Q) (a : num) : num :=
  match a with Fin x => Fin (f x) | NaN => NaN end.

Definition num2 (f : Q -> Q -> Q) (a b : num) : num :=
  match a, b with Fin x, Fin y => Fin (f x y) | _, _ => NaN end.

Definition nadd : num -> num -> num := num2 Qplus.
Definition nsub : num -> num -> num := num2 Qminus.
Definition nmul : num -> num -> num := num2 Qmult.
Definition nneg : num -> num := num1 Qopp.

(** [a / b]: not finite when the divisor is zero. *)
Definition ndiv (a b : num) : num :=
  match a, b with
  | Fin x, Fin y => if Qeq_bool y 0 then NaN else Fin (x / y)
  | _, _ => NaN
  end.

Definition ncmp (f : Q -> Q -> bool) (a b : num) : bool :=
  match a, b with Fin x, Fin y => f x y | _, _ => false end.

Definition nltb : num -> num -> bool := ncmp Qltb.
Definition nleb : num -> num -> bool := ncmp Qle_bool.
Definition ngtb (a b : num) : bool := nltb b a.
Definition ngeb (a b : num) : bool := nleb b a.

(** [Math.min], [Math.max], [Math.floor]. *)
Definition nmin : num -> num -> num :=
  num2 (fun x y => if Qle_bool x y then x else y).
Definition nmax : num -> num -> num :=
  num2 (fun x y => if Qle_bool x y then y else x).
Definition nfloor : num -> num := num1 (fun x => inject_Z (Qfloor x)).

(** Double precision.  The defeat score of [endBattle] takes the floor of a
    value that rounding moves across a whole number at ordinary healths: in
    doubles 1 - 900/1000 is a little less than 0.1, and the score is 49, not
    50.  That one computation is carried out as the code does it, every
    operation rounded to the nearest binary64 value, ties to even
    ([round64], for values in the normal range of the format).

    [ilog2 q], for [0 < q]: the exponent [e] with 2^e <= q < 2^(e+1). *)
Definition ilog2 (q : Q) : Z :=
  let e := (Z.log2 (Qnum q) - Z.log2 (Zpos (Qden q)))%Z in
  if Qle_bool (2 ^ e) q then e else (e - 1)%Z.

(** The nearest integer, a tie going to the even one. *)
Definition round_half_even (q : Q) : Z :=
  let f := Qfloor q in
  let r := q - inject_Z f in
  if Qltb r (1 # 2) then f
  else if Qltb (1 # 2) r then (f + 1)%Z
  else if Z.even f then f else (f + 1)%Z.

(** The nearest binary64 value: 53 significant bits, so the step of the grid
    around [q] is 2^(e - 52). *)
Definition round64 (q : Q) : Q :=
  if Qeq_bool q 0 then 0
  else
    let ulp := 2 ^ (ilog2 (Qabs q) - 52) in
    let r := inject_Z (round_half_even (Qabs q / ulp)) * ulp in
    if Qltb q 0 then - r else r.

Definition nround : num -> num := num1 round64.

(** [a % b]: the remainder takes the sign of the dividend. *)
Definition Qtrunc (x : Q) : Z := if Qle_bool 0 x then Qfloor x else Qceiling x.

Definition nmod (a b : num) : num :=
  match a, b with
  | Fin x, Fin y =>
      if Qeq_bool y 0 then NaN else Fin (x - y * inject_Z (Qtrunc (x / y)))
  | _, _ => NaN
  end.

(** [Math.ceil(Math.sqrt(a))], computed exactly: the least integer whose
    square reaches [a]. *)
Definition nceil_sqrt (a : num) : num :=
  match a with
  | Fin x => if Qltb x 0 then NaN else Fin (inject_Z (Z.sqrt_up (Qceiling x)))
  | NaN => NaN
  end.

(** [a || b] on numbers: [0] and [NaN] are falsy. *)
Definition nor (a b : num) : num :=
  match a with
  | Fin x => if Qeq_bool x 0 then b else a
  | NaN => b
  end.

Definition of_nat (n : nat) : num := Fin (inject_Z (Z.of_nat n)).
Definition of_Z (n : Z) : num := Fin (inject_Z n).

Definition is_finite (a : num) : bool :=
  match a with Fin _ => true | NaN => false end.

(** Equality of numbers as values: rationals up to [Qeq]. *)
Definition num_eq (a b : num) : Prop :=
  match a, b with
  | Fin x, Fin y => x == y
  | NaN, NaN => True
  | _, _ => False
  end.

Declare Scope num_scope.
Delimit Scope num_scope with num.
Bind Scope num_scope with num.
Infix "+" := nadd : num_scope.
Infix "-" := nsub : num_scope.
Infix "*" := nmul : num_scope.
Infix "/" := ndiv : num_scope.
Infix "<?" := nltb : num_scope.
Infix "<=?" := nleb : num_scope.
Infix ">?" := ngtb : num_scope.
Infix ">=?" := ngeb : num_scope.
Notation "- a" := (nneg a) : num_scope.

(** The functions of [Math] and the constant [Math.PI] that the engines use. *)
Class MathLib : Type := {
  Msqrt : Q -> Q;
  Msin : Q -> Q;
  Mcos : Q -> Q;
  Matan2 : Q -> Q -> Q;
  Macos : Q -> Q;
  MPI : Q
}.

(** ** THREE.Vector3 *)

Record Vec3 : Type := mkVec { vx : num; vy : num; vz : num }.

Definition vzero : Vec3 := mkVec (Fin 0) (Fin 0) (Fin 0).
Definition vNaN : Vec3 := mkVec NaN NaN NaN.

Definition vadd (a b : Vec3) : Vec3 :=
  mkVec (vx a + vx b)%num (vy a + vy b)%num (vz a + vz b)%num.
Definition vsub (a b : Vec3) : Vec3 :=
  mkVec (vx a - vx b)%num (vy a - vy b)%num (vz a - vz b)%num.
Definition vscale (a : Vec3) (s : num) : Vec3 :=
  mkVec (vx a * s)%num (vy a * s)%num (vz a * s)%num.
Definition vdot (a b : Vec3) : num :=
  (vx a * vx b + vy a * vy b + vz a * vz b)%num.
Definition vlengthSq (a : Vec3) : num := vdot a a.

Definition vfinite (a : Vec3) : bool :=
  is_finite (vx a) && is_finite (vy a) && is_finite (vz a).

Definition vec_eq (a b : Vec3) : Prop :=
  num_eq (vx a) (vx b) /\ num_eq (vy a) (vy b) /\ num_eq (vz a) (vz b).

Section Geometry.
Context {M : MathLib}.

Definition nsqrt (a : num) : num :=
  match a with
  | Fin x => if Qltb x 0 then NaN else Fin (Msqrt x)
  | NaN => NaN
  end.
Definition nsin : num -> num := num1 Msin.
Definition ncos : num -> num := num1 Mcos.
Definition nPI : num := Fin MPI.

Definition vlength (a : Vec3) : num := nsqrt (vlengthSq a).

(** [v.normalize()] is [v.divideScalar(v.length() || 1)]. *)
Definition vnormalize (a : Vec3) : Vec3 :=
  let l := nor (vlength a) (Fin 1) in
  mkVec (vx a / l)%num (vy a / l)%num (vz a / l)%num.

Definition vdistanceTo (a b : Vec3) : num := vlength (vsub a b).

(** [v.applyAxisAngle(new THREE.Vector3(0, 1, 0), angle)]: the rotation
    about the vertical axis. *)
Definition applyAxisAngleY (v : Vec3) (angle : num) : Vec3 :=
  mkVec (vx v * ncos angle + vz v * nsin angle)%num
        (vy v)
        (vz v * ncos angle - vx v * nsin angle)%num.

(** ** Formation engine ([FighterAI], formation functions) *)

Definition circleFormation (index totalFighters : nat) (center direction : Vec3)
  : Vec3 :=
  let radius := nmin (of_nat totalFighters * Fin 0.5)%num (Fin 15) in
  let angle := (of_nat index / of_nat totalFighters * nPI * Fin 2)%num in
  let position := mkVec (nsin angle * radius)%num (Fin 0) (ncos angle * radius)%num in
  vadd position center.

Definition lineFormation (index totalFighters : nat) (center direction : Vec3)
  : Vec3 :=
  let perpendicular := mkVec (- vz direction)%num (Fin 0) (vx direction) in
  let lineWidth := nmin (of_nat totalFighters * Fin 1.2)%num (Fin 30) in
  let offsetFromCenter :=
    ((of_nat index / (of_nat totalFighters - Fin 1) - Fin 0.5) * lineWidth)%num in
  vadd center (vscale perpendicular offsetFromCenter).

Definition arrowFormation (index totalFighters : nat) (center direction : Vec3)
  : Vec3 :=
  if Nat.eqb index 0 then vadd center (vscale direction (Fin 3))
  else
    let rowSize := nceil_sqrt (of_nat totalFighters) in
    let row := nfloor (of_nat index / rowSize)%num in
    let posInRow := nmod (of_nat index) rowSize in
    let rowWidth := (nmax (Fin 1) (rowSize - row) * Fin 2)%num in
    let perpendicular := mkVec (- vz direction)%num (Fin 0) (vx direction) in
    let totalInRow := nmin rowSize (of_nat totalFighters - row * rowSize)%num in
    let offsetInRow :=
      ((posInRow / (totalInRow - Fin 1) - Fin 0.5) * rowWidth)%num in
    let position := vadd center (vscale direction (- row * Fin 2)%num) in
    vadd position (vscale perpendicular offsetInRow).

Definition scatterFormation (index totalFighters : nat) (center direction : Vec3)
  : Vec3 :=
  let seed := nmod (of_nat index * Fin 13371)%num (Fin 17) in
  let radius := nmin (of_nat totalFighters * Fin 0.7)%num (Fin 20) in
  let angle := (seed / Fin 17 * nPI * Fin 2)%num in
  let distance := (nmod seed (Fin 7) / Fin 7 * radius)%num in
  let position :=
    mkVec (nsin angle * distance)%num (Fin 0) (ncos angle * distance)%num in
  vadd position center.

End Geometry.

(** ** Entities and game state *)

Inductive Phase : Type := Setup | Battle | Result.

(** The [state] tag of a unit.  The commander object is created without a
    [state] property ([undefined]); the animal is created ['idle'] and is only
    ever moved to ['searching']. *)
Inductive UnitState : Type :=
| Undefined | Idle | Moving | Attacking | Fleeing | Dead | Stunned | Searching.

#[global] Instance UnitState_eq_dec : EqDecision UnitState.
Proof. solve_decision. Defined.

#[global] Instance Phase_eq_dec : EqDecision Phase.
Proof. solve_decision. Defined.

(** Fighters and the commander: the objects the animal attacks.  A property
    that one of the two kinds is created without ([state], [forceAccumulator],
    [commanderInfluence], [stunned] for the commander; [attackRange] for a
    fighter) holds a default that the code never reads before writing it.
    Of the mesh only the colour is kept. *)
Record Unit : Type := mkUnit {
  position : Vec3;
  velocity : Vec3;
  forceAccumulator : Vec3;
  rotation : num;
  health : num;
  maxHealth : num;
  state : UnitState;
  attackPower : num;
  lastAttackTime : num;
  attackCooldown : num;
  attackRange : num;
  commanderInfluence : bool;
  stunned : bool;
  stunTime : num;
  meshColor : Z
}.

Definition set_health (h : num) (u : Unit) : Unit :=
  mkUnit (position u) (velocity u) (forceAccumulator u) (rotation u) h
    (maxHealth u) (state u) (attackPower u) (lastAttackTime u)
    (attackCooldown u) (attackRange u) (commanderInfluence u) (stunned u)
    (stunTime u) (meshColor u).
Definition set_state (s : UnitState) (u : Unit) : Unit :=
  mkUnit (position u) (velocity u) (forceAccumulator u) (rotation u) (health u)
    (maxHealth u) s (attackPower u) (lastAttackTime u)
    (attackCooldown u) (attackRange u) (commanderInfluence u) (stunned u)
    (stunTime u) (meshColor u).
Definition set_meshColor (c : Z) (u : Unit) : Unit :=
  mkUnit (position u) (velocity u) (forceAccumulator u) (rotation u) (health u)
    (maxHealth u) (state u) (attackPower u) (lastAttackTime u)
    (attackCooldown u) (attackRange u) (commanderInfluence u) (stunned u)
    (stunTime u) c.
Definition set_lastAttackTime (t : num) (u : Unit) : Unit :=
  mkUnit (position u) (velocity u) (forceAccumulator u) (rotation u) (health u)
    (maxHealth u) (state u) (attackPower u) t
    (attackCooldown u) (attackRange u) (commanderInfluence u) (stunned u)
    (stunTime u) (meshColor u).
Definition set_commanderInfluence (b : bool) (u : Unit) : Unit :=
  mkUnit (position u) (velocity u) (forceAccumulator u) (rotation u) (health u)
    (maxHealth u) (state u) (attackPower u) (lastAttackTime u)
    (attackCooldown u) (attackRange u) b (stunned u)
    (stunTime u) (meshColor u).
Definition set_forceAccumulator (v : Vec3) (u : Unit) : Unit :=
  mkUnit (position u) (velocity u) v (rotation u) (health u)
    (maxHealth u) (state u) (attackPower u) (lastAttackTime u)
    (attackCooldown u) (attackRange u) (commanderInfluence u) (stunned u)
    (stunTime u) (meshColor u).
Definition set_motion (p v : Vec3) (r : num) (u : Unit) : Unit :=
  mkUnit p v (forceAccumulator u) r (health u)
    (maxHealth u) (state u) (attackPower u) (lastAttackTime u)
    (attackCooldown u) (attackRange u) (commanderInfluence u) (stunned u)
    (stunTime u) (meshColor u).

(** The object that [createFighter] builds for a fighter placed at [pos]
    (before it is pushed on the roster), and the object that
    [createCommander] builds. *)
Definition createFighter (pos : Vec3) : Unit :=
  mkUnit pos vzero vzero (Fin 0) (Fin 50) (Fin 50) Idle (Fin 1) (Fin 0)
    (Fin 1) (Fin 0) false false (Fin 0) 0x2196F3%Z.

Definition createCommander : Unit :=
  mkUnit (mkVec (Fin 0) (Fin 1) (Fin 0)) vzero vzero (Fin 0) (Fin 200) (Fin 200)
    Undefined (Fin 5) (Fin 0) (Fin 0.5) (Fin 2) false false (Fin 0) 0xF44336%Z.

(** A reference to an attackable object: a fighter of the roster, by its
    place in the array, or the commander. *)
Inductive TargetRef : Type :=
| RFighter (i : nat)
| RCommander.

Record Animal : Type := mkAnimal {
  a_type : string;
  a_position : Vec3;
  a_velocity : Vec3;
  a_rotation : num;
  a_health : num;
  a_maxHealth : num;
  a_attackPower : num;
  a_attackRange : num;
  a_moveSpeed : num;
  a_chargeSpeed : num;
  a_state : UnitState;
  a_target : option TargetRef;
  a_lastAttackTime : num;
  a_attackCooldown : num;
  a_currentBehavior : option string;
  a_recentDamage : num;
  a_isEnraged : bool;
  a_meshColor : Z
}.

Definition a_set_health (h : num) (a : Animal) : Animal :=
  mkAnimal (a_type a) (a_position a) (a_velocity a) (a_rotation a) h
    (a_maxHealth a) (a_attackPower a) (a_attackRange a) (a_moveSpeed a)
    (a_chargeSpeed a) (a_state a) (a_target a) (a_lastAttackTime a)
    (a_attackCooldown a) (a_currentBehavior a) (a_recentDamage a)
    (a_isEnraged a) (a_meshColor a).
Definition a_set_velocity (v : Vec3) (a : Animal) : Animal :=
  mkAnimal (a_type a) (a_position a) v (a_rotation a) (a_health a)
    (a_maxHealth a) (a_attackPower a) (a_attackRange a) (a_moveSpeed a)
    (a_chargeSpeed a) (a_state a) (a_target a) (a_lastAttackTime a)
    (a_attackCooldown a) (a_currentBehavior a) (a_recentDamage a)
    (a_isEnraged a) (a_meshColor a).
Definition a_set_attackTimer (t c : num) (a : Animal) : Animal :=
  mkAnimal (a_type a) (a_position a) (a_velocity a) (a_rotation a) (a_health a)
    (a_maxHealth a) (a_attackPower a) (a_attackRange a) (a_moveSpeed a)
    (a_chargeSpeed a) (a_state a) (a_target a) t
    c (a_currentBehavior a) (a_recentDamage a)
    (a_isEnraged a) (a_meshColor a).
Definition a_set_recentDamage (d : num) (a : Animal) : Animal :=
  mkAnimal (a_type a) (a_position a) (a_velocity a) (a_rotation a) (a_health a)
    (a_maxHealth a) (a_attackPower a) (a_attackRange a) (a_moveSpeed a)
    (a_chargeSpeed a) (a_state a) (a_target a) (a_lastAttackTime a)
    (a_attackCooldown a) (a_currentBehavior a) d
    (a_isEnraged a) (a_meshColor a).
Definition a_set_rage (enraged : bool) (color : Z) (ap ms cs : num) (a : Animal)
  : Animal :=
  mkAnimal (a_type a) (a_position a) (a_velocity a) (a_rotation a) (a_health a)
    (a_maxHealth a) ap (a_attackRange a) ms
    cs (a_state a) (a_target a) (a_lastAttackTime a)
    (a_attackCooldown a) (a_currentBehavior a) (a_recentDamage a)
    enraged color.

(** [FighterAI]'s own fields. *)
Record Weights : Type := mkWeights {
  followCommander : num;
  maintainFormation : num;
  attackTarget : num;
  avoidDanger : num;
  fleeWhenInjured : num
}.

Record FighterAI : Type := mkFighterAI {
  currentFormation : string;
  formationCenter : Vec3;
  formationDirection : Vec3;
  weights : Weights
}.

(** The game: [game.state], the part of [game.input] the engines poll, the
    fighter engine, the messages sent to the UI, and the number of values
    drawn from [Math.random] so far. *)
Record Game : Type := mkGame {
  phase : Phase;
  fighters : list Unit;
  animal : option Animal;
  commander : option Unit;
  time : num;
  score : num;
  commanderDamageDealt : num;
  mouseIsDown : bool;
  fighterAI : FighterAI;
  uiMessages : list string;
  randomDraws : nat
}.

Definition g_set_fighters (fs : list Unit) (g : Game) : Game :=
  mkGame (phase g) fs (animal g) (commander g) (time g) (score g)
    (commanderDamageDealt g) (mouseIsDown g) (fighterAI g) (uiMessages g)
    (randomDraws g).
Definition g_set_animal (a : option Animal) (g : Game) : Game :=
  mkGame (phase g) (fighters g) a (commander g) (time g) (score g)
    (commanderDamageDealt g) (mouseIsDown g) (fighterAI g) (uiMessages g)
    (randomDraws g).
Definition g_set_commander (c : option Unit) (g : Game) : Game :=
  mkGame (phase g) (fighters g) (animal g) c (time g) (score g)
    (commanderDamageDealt g) (mouseIsDown g) (fighterAI g) (uiMessages g)
    (randomDraws g).
Definition g_set_fighterAI (f : FighterAI) (g : Game) : Game :=
  mkGame (phase g) (fighters g) (animal g) (commander g) (time g) (score g)
    (commanderDamageDealt g) (mouseIsDown g) f (uiMessages g)
    (randomDraws g).
Definition g_set_randomDraws (n : nat) (g : Game) : Game :=
  mkGame (phase g) (fighters g) (animal g) (commander g) (time g) (score g)
    (commanderDamageDealt g) (mouseIsDown g) (fighterAI g) (uiMessages g)
    n.
Definition g_set_commanderDamageDealt (d : num) (g : Game) : Game :=
  mkGame (phase g) (fighters g) (animal g) (commander g) (time g) (score g)
    d (mouseIsDown g) (fighterAI g) (uiMessages g)
    (randomDraws g).
Definition g_set_time (t : num) (g : Game) : Game :=
  mkGame (phase g) (fighters g) (animal g) (commander g) t (score g)
    (commanderDamageDealt g) (mouseIsDown g) (fighterAI g) (uiMessages g)
    (randomDraws g).
Definition g_end (s : num) (msg : string) (g : Game) : Game :=
  mkGame Result (fighters g) (animal g) (commander g) (time g) s
    (commanderDamageDealt g) (mouseIsDown g) (fighterAI g) (msg :: uiMessages g)
    (randomDraws g).

(** The object a reference designates, and its replacement in place. *)
Definition deref (g : Game) (r : TargetRef) : option Unit :=
  match r with
  | RFighter i => fighters g !! i
  | RCommander => commander g
  end.

Definition assign (r : TargetRef) (u : Unit) (g : Game) : Game :=
  match r with
  | RFighter i => g_set_fighters (<[i := u]> (fighters g)) g
  | RCommander => g_set_commander (Some u) g
  end.

(** A run-time error that the code does not catch. *)
Inductive Exn : Type := TypeError (msg : string).

Inductive Res (A : Type) : Type :=
| Ok (a : A)
| Throw (e : Exn).
Arguments Ok {A} a.
Arguments Throw {A} e.

Definition bind {A B : Type} (r : Res A) (k : A -> Res B) : Res B :=
  match r with Ok a => k a | Throw e => Throw e end.

Notation "'do' x <- r ; k" := (bind r (fun x => k))
  (at level 10, x name, r at level 100, k at level 200).

Section Engines.
Context {M : MathLib}.

(** [Math.random]: the n-th value the generator returns. *)
Variable random : nat -> Q.

Definition draw (g : Game) : num * Game :=
  (Fin (random (randomDraws g)), g_set_randomDraws (S (randomDraws g)) g).

(** ** AnimalAI: combat resolution *)

(** One round of the loop of [performAttack], for one target. *)
Definition hit (baseDamage : num) (g : Game) (r : TargetRef) : Game :=
  match deref g r with
  | None => g
  | Some target =>
      if decide (state target = Dead) then g
      else
        let '(rnd, g) := draw g in
        let damage := nfloor (baseDamage * (Fin 0.8 + rnd * Fin 0.4))%num in
        let target := set_health (health target - damage)%num target in
        let target :=
          if (health target <=? Fin 0)%num then
            let target := set_state Dead (set_health (Fin 0) target) in
            match r with
            | RFighter _ => set_meshColor 0x555555%Z target
            | RCommander => target
            end
          else target in
        assign r target g
  end.

Definition performAttack (a : Animal) (g : Game) (targets : list TargetRef)
    (baseDamage : num) : bool * Animal * Game :=
  if (time g - a_lastAttackTime a <? a_attackCooldown a)%num then (false, a, g)
  else
    let g := fold_left (hit baseDamage) targets g in
    let a := a_set_attackTimer (time g)
               (if a_isEnraged a then Fin 0.7 else Fin 1) a in
    (true, a, g).

(** ** AnimalAI: rage *)

Definition typeColor (type : string) : Z :=
  if decide (type = "lion" \/ type = "tiger") then 0xD2B48C%Z
  else if decide (type = "elephant" \/ type = "rhinoceros") then 0x808080%Z
  else if decide (type = "hippo") then 0x6A5ACD%Z
  else 0x8B4513%Z.

Definition updateRageState (a : Animal) (delta : num) : Animal :=
  let a := a_set_recentDamage
             (a_recentDamage a * (Fin 1 - delta * Fin 0.5))%num a in
  let enrageThreshold := (a_maxHealth a * Fin 0.1)%num in
  if negb (a_isEnraged a) && (a_recentDamage a >? enrageThreshold)%num then
    a_set_rage true 0xFF4500%Z
      (a_attackPower a * Fin 1.3)%num
      (a_moveSpeed a * Fin 1.2)%num
      (a_chargeSpeed a * Fin 1.2)%num a
  else if a_isEnraged a && (a_recentDamage a <? enrageThreshold * Fin 0.5)%num then
    a_set_rage false (typeColor (a_type a))
      (a_attackPower a / Fin 1.3)%num
      (a_moveSpeed a / Fin 1.2)%num
      (a_chargeSpeed a / Fin 1.2)%num a
  else a.

Definition recordDamageToAnimal (amount : num) (g : Game) : Game :=
  match animal g with
  | None => g
  | Some a =>
      g_set_animal (Some (a_set_recentDamage (a_recentDamage a + amount)%num a)) g
  end.

(** ** BattleSimulator ([js/game.js]): commander actions and end of battle *)

Definition commanderAttack (g : Game) : Game :=
  match commander g, animal g with
  | Some c, Some a =>
      if (time g - lastAttackTime c <? attackCooldown c)%num then g
      else
        let distanceToAnimal := vdistanceTo (position c) (a_position a) in
        if (distanceToAnimal <=? attackRange c)%num then
          let damage := attackPower c in
          let g := g_set_animal (Some (a_set_health (a_health a - damage)%num a)) g in
          let g := g_set_commanderDamageDealt (commanderDamageDealt g + damage)%num g in
          let g := recordDamageToAnimal damage g in
          g_set_commander (Some (set_lastAttackTime (time g) c)) g
        else g
  | _, _ => g
  end.

Definition rallyNearbyFighters (g : Game) : Game :=
  match commander g with
  | None => g
  | Some c =>
      let influenceRadius := Fin 15 in
      g_set_fighters
        (map (fun fighter =>
                if decide (state fighter = Dead) then fighter
                else
                  let distance := vdistanceTo (position c) (position fighter) in
                  if (distance <=? influenceRadius)%num
                  then set_commanderInfluence true fighter
                  else fighter)
             (fighters g)) g
  end.

(** [endBattle] reads [this.state.animal.health] on a defeat: without an
    animal that read is a [TypeError].  The defeat score,
    [Math.floor((1 - health / maxHealth) * 500)], is computed in double
    precision: the division, the subtraction and the product are each
    rounded ([nround]) before the floor is taken. *)
Definition endBattle (playerWins : bool) (g : Game) : Res Game :=
  if playerWins then
    let aliveFighters :=
      length (filter (fun f => state f <> Dead) (fighters g)) in
    let score := (Fin 1000 + of_nat aliveFighters * Fin 100)%num in
    let timeBonus := (nmax (Fin 0) (Fin 300 - time g) * Fin 10)%num in
    Ok (g_end (score + timeBonus)%num "VICTORY!" g)
  else
    match animal g with
    | None => Throw (TypeError "Cannot read properties of null (reading 'health')")
    | Some a =>
        let damagePercent :=
          nround (Fin 1 - nround (a_health a / a_maxHealth a))%num in
        Ok (g_end (nfloor (nround (damagePercent * Fin 500)%num)) "DEFEAT" g)
    end.

Definition animalDefeated (g : Game) : bool :=
  match animal g with
  | Some a => (a_health a <=? Fin 0)%num
  | None => false
  end.

Definition checkBattleEnd (g : Game) : Res Game :=
  if animalDefeated g then endBattle true g
  else
    let allFightersDead :=
      forallb (fun fighter => bool_decide (state fighter = Dead)) (fighters g) in
    let commanderDead :=
      match commander g with
      | Some c => (health c <=? Fin 0)%num
      | None => false
      end in
    if (0 <? length (fighters g))%nat && allFightersDead || commanderDead
    then endBattle false g
    else Ok g.

(** ** FighterAI *)

(** The four formation methods stored in [this.formations]. *)
Inductive FormationFn : Type :=
| CircleFormation | LineFormation | ArrowFormation | ScatterFormation.

Definition formations : gmap string FormationFn :=
  {[ "circle" := CircleFormation; "line" := LineFormation;
     "arrow" := ArrowFormation; "scatter" := ScatterFormation ]}.

(** [this.formations] is an object literal: besides its four own properties
    it answers for the properties it inherits from [Object.prototype]. *)
Definition Object_prototype : list string :=
  [ "constructor"; "__defineGetter__"; "__defineSetter__"; "hasOwnProperty";
    "__lookupGetter__"; "__lookupSetter__"; "isPrototypeOf";
    "propertyIsEnumerable"; "toString"; "valueOf"; "__proto__";
    "toLocaleString" ].

Inductive Property : Type :=
| OwnMethod (f : FormationFn)
| Inherited (name : string)
| NoProperty.

(** [this.formations[name]] *)
Definition formations_get (name : string) : Property :=
  match formations !! name with
  | Some f => OwnMethod f
  | None =>
      if decide (name ∈ Object_prototype) then Inherited name else NoProperty
  end.

(** Every inherited member is a function or an object, hence truthy. *)
Definition truthy (p : Property) : bool :=
  match p with NoProperty => false | _ => true end.

Definition set_currentFormation (name : string) (ai : FighterAI) : FighterAI :=
  mkFighterAI name (formationCenter ai) (formationDirection ai) (weights ai).
Definition set_formationFrame (c d : Vec3) (ai : FighterAI) : FighterAI :=
  mkFighterAI (currentFormation ai) c d (weights ai).
Definition set_attackTarget (w : num) (ai : FighterAI) : FighterAI :=
  mkFighterAI (currentFormation ai) (formationCenter ai) (formationDirection ai)
    (mkWeights (followCommander (weights ai)) (maintainFormation (weights ai)) w
       (avoidDanger (weights ai)) (fleeWhenInjured (weights ai))).

Definition setFormation (formationName : string) (ai : FighterAI)
  : bool * FighterAI :=
  if truthy (formations_get formationName)
  then (true, set_currentFormation formationName ai)
  else (false, ai).

(** The engine as its constructor leaves it. *)
Definition newFighterAI : FighterAI :=
  mkFighterAI "circle" vzero (mkVec (Fin 0) (Fin 0) (Fin (-1)))
    (mkWeights (Fin 0.5) (Fin 0.3) (Fin 0.8) (Fin 0.6) (Fin 0.7)).

Definition formationFn (f : FormationFn) : nat -> nat -> Vec3 -> Vec3 -> Vec3 :=
  match f with
  | CircleFormation => circleFormation
  | LineFormation => lineFormation
  | ArrowFormation => arrowFormation
  | ScatterFormation => scatterFormation
  end.

Definition updateFormationCenter (g : Game) : Game :=
  match commander g with
  | None => g
  | Some c =>
      let forwardOffset := Fin 5 in
      let direction :=
        applyAxisAngleY (mkVec (Fin 0) (Fin 0) (Fin (-1))) (rotation c) in
      let center := vadd (position c) (vscale direction forwardOffset) in
      g_set_fighterAI (set_formationFrame center direction (fighterAI g)) g
  end.

(** [index] is the fighter's place in the roster ([indexOf]).  When
    [currentFormation] names none of the four methods there is no position:
    what JavaScript then calls has no coordinates, and the NaN vector stands
    for it.  For the inherited members whose call itself fails ('__proto__'
    has no [call]; the [__defineGetter__] family rejects its arguments) the
    code throws instead; that error path is not followed here. *)
Definition getFormationPosition (index : nat) (g : Game) : Vec3 :=
  match formations !! currentFormation (fighterAI g) with
  | Some f =>
      formationFn f index (length (fighters g))
        (formationCenter (fighterAI g)) (formationDirection (fighterAI g))
  | None => vNaN
  end.

Definition addForce (v : Vec3) (fighter : Unit) : Unit :=
  set_forceAccumulator (vadd (forceAccumulator fighter) v) fighter.

Definition applyFormationForce (index : nat) (fighter : Unit) (g : Game) : Unit :=
  let formationPosition := getFormationPosition index g in
  let toFormation := vsub formationPosition (position fighter) in
  let distanceToFormation := vlength toFormation in
  let formationForce :=
    vscale (vnormalize toFormation)
      (maintainFormation (weights (fighterAI g)) * distanceToFormation * Fin 0.2)%num in
  addForce formationForce fighter.

Definition applyTargetingForce (fighter : Unit) (g : Game) : Unit :=
  match animal g with
  | None => fighter
  | Some a =>
      let attackRange := Fin 2 in
      let toTarget := vsub (a_position a) (position fighter) in
      let distanceToTarget := vlength toTarget in
      if (distanceToTarget <=? attackRange)%num then set_state Attacking fighter
      else
        let targetForce :=
          vscale (vnormalize toTarget) (attackTarget (weights (fighterAI g))) in
        set_state Moving (addForce targetForce fighter)
  end.

Definition applyAvoidanceForce (index : nat) (fighter : Unit) (g : Game) : Unit :=
  let avoidanceRadius := Fin 1.5 in
  let avoidanceForce :=
    fold_left
      (fun (acc : Vec3) (entry : nat * Unit) =>
         let (j, otherFighter) := entry in
         if decide (j = index \/ state otherFighter = Dead) then acc
         else
           let toOther := vsub (position fighter) (position otherFighter) in
           let distance := vlength toOther in
           if (distance <? avoidanceRadius)%num then
             let avoidScale := ((avoidanceRadius - distance) / avoidanceRadius)%num in
             vadd acc
               (vscale (vnormalize toOther)
                  (avoidScale * avoidDanger (weights (fighterAI g)))%num)
           else acc)
      (imap pair (fighters g)) vzero in
  addForce avoidanceForce fighter.

Definition applyCommanderInfluence (fighter : Unit) (g : Game) : Unit * Game :=
  match commander g with
  | None => (fighter, g)
  | Some c =>
      let influenceRadius := Fin 15 in
      let toCommander := vsub (position c) (position fighter) in
      let distance := vlength toCommander in
      if commanderInfluence fighter || (distance <? influenceRadius)%num then
        let g :=
          if mouseIsDown g && bool_decide (animal g <> None)
          then g_set_fighterAI (set_attackTarget (Fin 1.2) (fighterAI g)) g
          else g_set_fighterAI (set_attackTarget (Fin 0.8) (fighterAI g)) g in
        let fighter :=
          if (distance >? influenceRadius * Fin 0.7)%num then
            addForce (vscale (vnormalize toCommander)
                        (followCommander (weights (fighterAI g)))) fighter
          else fighter in
        (set_commanderInfluence false fighter, g)
      else (fighter, g)
  end.

Definition applyFleeingForce (fighter : Unit) (g : Game) : Unit :=
  match animal g with
  | None => fighter
  | Some a =>
      let fleeDirection := vnormalize (vsub (position fighter) (a_position a)) in
      let fleeForce :=
        vscale fleeDirection (fleeWhenInjured (weights (fighterAI g)) * Fin 2)%num in
      set_state Fleeing (set_forceAccumulator fleeForce fighter)
  end.

Definition handleFighterAttacks (fighter : Unit) (g : Game) : Unit * Game :=
  match animal g with
  | None => (fighter, g)
  | Some a =>
      if decide (state fighter <> Attacking) then (fighter, g)
      else
        let attackRange := Fin 2 in
        let attackCooldown := Fin 1 in
        let distanceToAnimal := vdistanceTo (position fighter) (a_position a) in
        if (distanceToAnimal <=? attackRange)%num
           && (time g - lastAttackTime fighter >? attackCooldown)%num
        then
          let damageAmount := Fin 1 in
          let damageAmount :=
            if commanderInfluence fighter then (damageAmount * Fin 1.5)%num
            else damageAmount in
          let g := g_set_animal (Some (a_set_health (a_health a - damageAmount)%num a)) g in
          (set_lastAttackTime (time g) fighter, g)
        else (fighter, g)
  end.

Definition lerpAngle (a b t : num) : num :=
  let delta := (nmod (b - a + nPI * Fin 3) (nPI * Fin 2) - nPI)%num in
  (a + delta * nmin (Fin 1) t)%num.

Definition natan2 : num -> num -> num := num2 Matan2.

(** The body of the loop of [FighterAI.update], for the fighter at place
    [index] of the roster. *)
Definition updateLoopBody (delta : num) (g : Game) (index : nat) : Game :=
  match fighters g !! index with
  | None => g
  | Some fighter =>
      if decide (state fighter = Dead) then g
      else
        let fighter := set_forceAccumulator vzero fighter in
        let fighter := applyFormationForce index fighter g in
        let fighter := applyTargetingForce fighter g in
        let fighter := applyAvoidanceForce index fighter g in
        let '(fighter, g) := applyCommanderInfluence fighter g in
        let fighter :=
          if (health fighter <? maxHealth fighter * Fin 0.2)%num
          then applyFleeingForce fighter g
          else fighter in
        let maxSpeed := (Fin 5 * delta)%num in
        let velocity := vscale (vnormalize (forceAccumulator fighter)) maxSpeed in
        let position := vadd (position fighter) velocity in
        let rotation :=
          if (vlengthSq velocity >? Fin 0.001)%num then
            let targetRotation := natan2 (vx velocity) (vz velocity) in
            lerpAngle (rotation fighter) targetRotation (Fin 10 * delta)%num
          else rotation fighter in
        let fighter := set_motion position velocity rotation fighter in
        let '(fighter, g) := handleFighterAttacks fighter g in
        g_set_fighters (<[index := fighter]> (fighters g)) g
  end.

Definition FighterAI_update (delta : num) (g : Game) : Game :=
  if decide (phase g <> Battle) then g
  else
    let g := updateFormationCenter g in
    fold_left (updateLoopBody delta) (seq 0 (length (fighters g))) g.

(** ** AnimalAI: cone attacks *)

(** The function properties of the standard [Math] object. *)
Definition Math_functions : list string :=
  [ "abs"; "acos"; "acosh"; "asin"; "asinh"; "atan"; "atanh"; "atan2"; "cbrt";
    "ceil"; "clz32"; "cos"; "cosh"; "exp"; "expm1"; "floor"; "fround"; "hypot";
    "imul"; "log"; "log1p"; "log10"; "log2"; "max"; "min"; "pow"; "random";
    "round"; "sign"; "sin"; "sinh"; "sqrt"; "tan"; "tanh"; "trunc" ].

(** [Math.clamp(x, lo, hi)]: calling a member that [Math] does not have is a
    [TypeError]. *)
Definition Math_clamp (x lo hi : num) : Res num :=
  if decide ("clamp" ∈ Math_functions) then Ok (nmax lo (nmin hi x))
  else Throw (TypeError "Math.clamp is not a function").

Definition nacos (a : num) : num :=
  match a with
  | Fin x => if Qltb x (-1) || Qltb 1 x then NaN else Fin (Macos x)
  | NaN => NaN
  end.

Fixpoint foldM {A B : Type} (f : A -> B -> Res A) (l : list B) (acc : A) : Res A :=
  match l with
  | [] => Ok acc
  | b :: l' => do acc' <- f acc b; foldM f l' acc'
  end.

Definition getFightersInCone (a : Animal) (g : Game) (radius angle : num)
  : Res (list TargetRef) :=
  let animalForward :=
    applyAxisAngleY (mkVec (Fin 0) (Fin 0) (Fin (-1))) (a_rotation a) in
  do results <-
    foldM (fun (results : list TargetRef) (entry : nat * Unit) =>
             let (i, fighter) := entry in
             if decide (state fighter = Dead) then Ok results
             else
               let toFighter := vsub (position fighter) (a_position a) in
               let distance := vlength toFighter in
               if (distance >? radius)%num then Ok results
               else
                 let toFighter := vnormalize toFighter in
                 let dotProduct := vdot toFighter animalForward in
                 do clamped <- Math_clamp dotProduct (Fin (-1)) (Fin 1);
                 let angleToFighter := nacos clamped in
                 if (angleToFighter <=? angle / Fin 2)%num
                 then Ok (results ++ [RFighter i])
                 else Ok results)
          (imap pair (fighters g)) [];
  match commander g with
  | None => Ok results
  | Some c =>
      let toCommander := vsub (position c) (a_position a) in
      let distance := vlength toCommander in
      if (distance <=? radius)%num then
        let toCommander := vnormalize toCommander in
        let dotProduct := vdot toCommander animalForward in
        do clamped <- Math_clamp dotProduct (Fin (-1)) (Fin 1);
        let angleToCommander := nacos clamped in
        if (angleToCommander <=? angle / Fin 2)%num
        then Ok (results ++ [RCommander])
        else Ok results
      else Ok results
  end.

(** [animal.target] is an object reference: the case of a reference that
    designates nothing does not arise and leaves the animal as it is. *)
Definition executeSwipeBehavior (a : Animal) (g : Game) (delta : num)
  : Res (Animal * Game) :=
  match a_target a with
  | None => Ok (a, g)
  | Some r =>
      match deref g r with
      | None => Ok (a, g)
      | Some target =>
          let direction := vnormalize (vsub (position target) (a_position a)) in
          let a :=
            a_set_velocity
              (vscale direction (a_moveSpeed a * Fin 0.5 * delta)%num) a in
          let attackAngle := (nPI / Fin 2)%num in
          do attackTargets <-
            getFightersInCone a g (a_attackRange a * Fin 1.5)%num attackAngle;
          if (0 <? length attackTargets)%nat then
            let '(_, a, g) :=
              performAttack a g attackTargets (a_attackPower a * Fin 0.8)%num in
            Ok (a, g)
          else Ok (a, g)
      end
  end.

End Engines.

(** ** BattleSimulator ([js/game.js]): the session *)

(** [this.config]: the entries that the game logic reads. *)
Record Config : Type := mkConfig {
  maxFighters : nat;
  animalType : string;
  arenaSize : num
}.

(** The configuration that the constructor installs. *)
Definition defaultConfig : Config := mkConfig 100 "gorilla" (Fin 100).

Definition g_set_phase (p : Phase) (g : Game) : Game :=
  mkGame p (fighters g) (animal g) (commander g) (time g) (score g)
    (commanderDamageDealt g) (mouseIsDown g) (fighterAI g) (uiMessages g)
    (randomDraws g).
Definition g_log (msg : string) (g : Game) : Game :=
  mkGame (phase g) (fighters g) (animal g) (commander g) (time g) (score g)
    (commanderDamageDealt g) (mouseIsDown g) (fighterAI g) (msg :: uiMessages g)
    (randomDraws g).

Definition set_position (p : Vec3) (u : Unit) : Unit :=
  mkUnit p (velocity u) (forceAccumulator u) (rotation u) (health u)
    (maxHealth u) (state u) (attackPower u) (lastAttackTime u)
    (attackCooldown u) (attackRange u) (commanderInfluence u) (stunned u)
    (stunTime u) (meshColor u).
Definition set_rotation (r : num) (u : Unit) : Unit :=
  mkUnit (position u) (velocity u) (forceAccumulator u) r (health u)
    (maxHealth u) (state u) (attackPower u) (lastAttackTime u)
    (attackCooldown u) (attackRange u) (commanderInfluence u) (stunned u)
    (stunTime u) (meshColor u).
Definition set_stun (t : num) (u : Unit) : Unit :=
  mkUnit (position u) (velocity u) (forceAccumulator u) (rotation u) (health u)
    (maxHealth u) (state u) (attackPower u) (lastAttackTime u)
    (attackCooldown u) (attackRange u) (commanderInfluence u) true
    t (meshColor u).

(** [BattleSimulator.createFighter(position)]: the roster is capped; the
    object built is [createFighter position], pushed at the end. *)
Definition BattleSimulator_createFighter (cfg : Config) (position : Vec3)
    (g : Game) : option Unit * Game :=
  if (maxFighters cfg <=? length (fighters g))%nat then (None, g)
  else
    let fighter := createFighter position in
    (Some fighter, g_set_fighters (fighters g ++ [fighter]) g).

(** What [placeFighter] returns: [false], [null] or the new fighter. *)
Inductive Placed : Type :=
| PlacedFalse
| PlacedNull
| PlacedFighter (fighter : Unit).

Definition placeFighter (cfg : Config) (position : Vec3) (g : Game)
  : Placed * Game :=
  if decide (phase g <> Setup) then (PlacedFalse, g)
  else
    match BattleSimulator_createFighter cfg position g with
    | (Some fighter, g) => (PlacedFighter fighter, g)
    | (None, g) => (PlacedNull, g)
    end.

Definition clearFighters (g : Game) : Game := g_set_fighters [] g.

Definition clearBattle (g : Game) : Game :=
  g_set_commander None (g_set_animal None (g_set_fighters [] g)).

Definition startBattle (g : Game) : bool * Game :=
  if bool_decide (phase g <> Setup) || (length (fighters g) =? 0)%nat
  then (false, g)
  else
    (true,
     mkGame Battle (fighters g) (animal g) (commander g) (Fin 0) (Fin 0) (Fin 0)
       (mouseIsDown g) (fighterAI g) (uiMessages g) (randomDraws g)).

(** [keepInArena(entity)] *)
Definition keepInArena (cfg : Config) (entity : Unit) : Unit :=
  let maxX := (arenaSize cfg / Fin 2 - Fin 2)%num in
  let maxZ := (arenaSize cfg / Fin 2 - Fin 2)%num in
  let p := position entity in
  set_position
    (mkVec (nmax (- maxX)%num (nmin maxX (vx p)))
           (vy p)
           (nmax (- maxZ)%num (nmin maxZ (vz p))))
    entity.

(** The keys of [input.keys] that [updateCommander] polls. *)
Record Keys : Type := mkKeys {
  KeyW : bool;
  KeyS : bool;
  KeyA : bool;
  KeyD : bool;
  KeyE : bool
}.

Section Session.
Context {M : MathLib}.
Variable random : nat -> Q.

(** [updateCommander(delta)]; [cameraRotationY] is [camera.rotation.y].  The
    rally and the attack see the commander where the move has put it; the
    arena bounds are applied last. *)
Definition updateCommander (cfg : Config) (keys : Keys) (cameraRotationY : num)
    (delta : num) (g : Game) : Game :=
  match commander g with
  | None => g
  | Some commander0 =>
      let moveSpeed := (Fin 15 * delta)%num in
      let velocity := vzero in
      let forward :=
        applyAxisAngleY (mkVec (Fin 0) (Fin 0) (Fin (-1))) cameraRotationY in
      let right :=
        applyAxisAngleY (mkVec (Fin 1) (Fin 0) (Fin 0)) cameraRotationY in
      let velocity :=
        if KeyW keys then vadd velocity (vscale forward moveSpeed)
        else if KeyS keys then vadd velocity (vscale forward (- moveSpeed)%num)
        else velocity in
      let velocity :=
        if KeyA keys then vadd velocity (vscale right (- moveSpeed)%num)
        else if KeyD keys then vadd velocity (vscale right moveSpeed)
        else velocity in
      let position := vadd (position commander0) velocity in
      let rotation :=
        if (vlengthSq velocity >? Fin 0.001)%num then
          let targetRotation := natan2 (vx velocity) (vz velocity) in
          lerpAngle (rotation commander0) targetRotation (Fin 10 * delta)%num
        else rotation commander0 in
      let g :=
        g_set_commander (Some (set_motion position velocity rotation commander0)) g in
      let g := if KeyE keys then rallyNearbyFighters g else g in
      let g := if mouseIsDown g then commanderAttack g else g in
      match commander g with
      | Some c => g_set_commander (Some (keepInArena cfg c)) g
      | None => g
      end
  end.

(** ** AnimalAI: the animal and its behaviours *)

(** An entry of [animalTypes] (without its description). *)
Record AnimalData : Type := mkAnimalData {
  d_health : num;
  d_attackPower : num;
  d_attackRange : num;
  d_moveSpeed : num;
  d_chargeSpeed : num;
  d_size : Vec3;
  d_behaviors : list string;
  d_aggression : num;
  d_intelligence : num
}.

Definition animalTypes : gmap string AnimalData :=
  {[ "gorilla" :=
       mkAnimalData (Fin 1000) (Fin 25) (Fin 2) (Fin 8) (Fin 12)
         (mkVec (Fin 3) (Fin 2.5) (Fin 2)) ["charge"; "sweep"; "pound"]
         (Fin 0.8) (Fin 0.7);
     "bear" :=
       mkAnimalData (Fin 1200) (Fin 20) (Fin 2.5) (Fin 7) (Fin 11)
         (mkVec (Fin 3.5) (Fin 3) (Fin 2)) ["charge"; "swipe"; "bite"]
         (Fin 0.75) (Fin 0.6);
     "lion" :=
       mkAnimalData (Fin 800) (Fin 18) (Fin 2) (Fin 12) (Fin 18)
         (mkVec (Fin 2.5) (Fin 1.8) (Fin 4)) ["pounce"; "bite"; "claw"]
         (Fin 0.9) (Fin 0.65);
     "elephant" :=
       mkAnimalData (Fin 2000) (Fin 30) (Fin 3) (Fin 5) (Fin 9)
         (mkVec (Fin 5) (Fin 4) (Fin 6)) ["trample"; "tuskSwipe"; "throw"]
         (Fin 0.5) (Fin 0.8);
     "rhinoceros" :=
       mkAnimalData (Fin 1500) (Fin 25) (Fin 2) (Fin 7) (Fin 15)
         (mkVec (Fin 4) (Fin 2.5) (Fin 5)) ["charge"; "gore"; "trample"]
         (Fin 0.7) (Fin 0.5);
     "tiger" :=
       mkAnimalData (Fin 900) (Fin 22) (Fin 2.5) (Fin 11) (Fin 16)
         (mkVec (Fin 2.8) (Fin 1.8) (Fin 4.2)) ["pounce"; "ambush"; "claw"]
         (Fin 0.85) (Fin 0.7);
     "hippo" :=
       mkAnimalData (Fin 1800) (Fin 28) (Fin 2.5) (Fin 4) (Fin 8)
         (mkVec (Fin 4.5) (Fin 2.2) (Fin 5)) ["charge"; "bite"; "throw"]
         (Fin 0.9) (Fin 0.4) ]}.

(** The properties of the animal object that [Animal] does not hold, and the
    timers of [AnimalAI] itself.  [stunTime], [searchDirection] and
    [ambushPrepared] are not set at creation ([undefined]: not a number, no
    vector, falsy). *)
Record AnimalMind : Type := mkMind {
  behaviors : list string;
  aggression : num;
  intelligence : num;
  specialCooldowns : gmap string num;
  a_stunTime : num;
  searchDirection : option Vec3;
  ambushPrepared : bool;
  behaviorTimer : num;
  currentBehavior : option string;
  behaviorDuration : num
}.

Definition m_set_searchDirection (d : option Vec3) (m : AnimalMind) : AnimalMind :=
  mkMind (behaviors m) (aggression m) (intelligence m) (specialCooldowns m)
    (a_stunTime m) d (ambushPrepared m) (behaviorTimer m) (currentBehavior m)
    (behaviorDuration m).
Definition m_set_ambushPrepared (b : bool) (m : AnimalMind) : AnimalMind :=
  mkMind (behaviors m) (aggression m) (intelligence m) (specialCooldowns m)
    (a_stunTime m) (searchDirection m) b (behaviorTimer m) (currentBehavior m)
    (behaviorDuration m).
Definition m_set_specialCooldowns (c : gmap string num) (m : AnimalMind)
  : AnimalMind :=
  mkMind (behaviors m) (aggression m) (intelligence m) c
    (a_stunTime m) (searchDirection m) (ambushPrepared m) (behaviorTimer m)
    (currentBehavior m) (behaviorDuration m).
Definition m_set_stunTime (t : num) (m : AnimalMind) : AnimalMind :=
  mkMind (behaviors m) (aggression m) (intelligence m) (specialCooldowns m)
    t (searchDirection m) (ambushPrepared m) (behaviorTimer m)
    (currentBehavior m) (behaviorDuration m).
Definition m_set_behaviorTimer (t : num) (m : AnimalMind) : AnimalMind :=
  mkMind (behaviors m) (aggression m) (intelligence m) (specialCooldowns m)
    (a_stunTime m) (searchDirection m) (ambushPrepared m) t
    (currentBehavior m) (behaviorDuration m).
Definition m_set_behavior (b : option string) (d t : num)
    (c : gmap string num) (m : AnimalMind) : AnimalMind :=
  mkMind (behaviors m) (aggression m) (intelligence m) c
    (a_stunTime m) (searchDirection m) (ambushPrepared m) t b d.

Definition a_set_target (t : option TargetRef) (s : UnitState) (a : Animal)
  : Animal :=
  mkAnimal (a_type a) (a_position a) (a_velocity a) (a_rotation a) (a_health a)
    (a_maxHealth a) (a_attackPower a) (a_attackRange a) (a_moveSpeed a)
    (a_chargeSpeed a) s t (a_lastAttackTime a)
    (a_attackCooldown a) (a_currentBehavior a) (a_recentDamage a)
    (a_isEnraged a) (a_meshColor a).
Definition a_set_state (s : UnitState) (a : Animal) : Animal :=
  a_set_target (a_target a) s a.
Definition a_set_currentBehavior (b : option string) (a : Animal) : Animal :=
  mkAnimal (a_type a) (a_position a) (a_velocity a) (a_rotation a) (a_health a)
    (a_maxHealth a) (a_attackPower a) (a_attackRange a) (a_moveSpeed a)
    (a_chargeSpeed a) (a_state a) (a_target a) (a_lastAttackTime a)
    (a_attackCooldown a) b (a_recentDamage a)
    (a_isEnraged a) (a_meshColor a).
Definition a_set_pose (p : Vec3) (r : num) (a : Animal) : Animal :=
  mkAnimal (a_type a) p (a_velocity a) r (a_health a)
    (a_maxHealth a) (a_attackPower a) (a_attackRange a) (a_moveSpeed a)
    (a_chargeSpeed a) (a_state a) (a_target a) (a_lastAttackTime a)
    (a_attackCooldown a) (a_currentBehavior a) (a_recentDamage a)
    (a_isEnraged a) (a_meshColor a).

(** [this.animalTypes[type]]: an own entry, a member inherited from
    [Object.prototype], or nothing. *)
Inductive TypeEntry : Type :=
| OwnType (animalData : AnimalData)
| InheritedMember (name : string)
| NoEntry.

Definition animalTypes_get (type : string) : TypeEntry :=
  match animalTypes !! type with
  | Some d => OwnType d
  | None =>
      if decide (type ∈ Object_prototype) then InheritedMember type else NoEntry
  end.

(** [createAnimal(type)].  An inherited member is truthy and has no [size]:
    reading [animalData.size.x] is then a [TypeError].  The colour is chosen
    by the same switch as in [updateRageState].  Of the engine's timers
    [behaviorDuration] is the one that is not reset. *)
Definition createAnimal (cfg : Config) (type : string) (m : AnimalMind)
    (g : Game) : Res (Animal * AnimalMind * Game) :=
  let type :=
    match animalTypes_get type with NoEntry => "gorilla" | _ => type end in
  match animalTypes_get type with
  | NoEntry =>
      Throw (TypeError "Cannot read properties of undefined (reading 'size')")
  | InheritedMember _ =>
      Throw (TypeError "Cannot read properties of undefined (reading 'x')")
  | OwnType animalData =>
      let color := typeColor type in
      let arenaSize := arenaSize cfg in
      let '(rnd, g) := draw random g in
      let position :=
        mkVec ((rnd - Fin 0.5) * arenaSize * Fin 0.8)%num
              (vy (d_size animalData) / Fin 2)%num
              (- arenaSize / Fin 2 * Fin 0.9)%num in
      let animal :=
        mkAnimal type position vzero (Fin 0) (d_health animalData)
          (d_health animalData) (d_attackPower animalData)
          (d_attackRange animalData) (d_moveSpeed animalData)
          (d_chargeSpeed animalData) Idle None (Fin 0) (Fin 2) None (Fin 0)
          false color in
      let mind :=
        mkMind (d_behaviors animalData) (d_aggression animalData)
          (d_intelligence animalData) ∅ NaN None false (Fin 0) None
          (behaviorDuration m) in
      Ok (animal, mind, g_set_animal (Some animal) g)
  end.

(** [setupBattle()] *)
Definition setupBattle (cfg : Config) (m : AnimalMind) (g : Game)
  : Res (AnimalMind * Game) :=
  let g := clearBattle g in
  let g := g_set_phase Setup g in
  do r <- createAnimal cfg (animalType cfg) m g;
  let '(_, mind, g) := r in
  Ok (mind, g_set_commander (Some createCommander) g).

Definition getFightersInRadius (a : Animal) (g : Game) (radius : num)
  : list TargetRef :=
  let results :=
    fold_left
      (fun (results : list TargetRef) (entry : nat * Unit) =>
         let (i, fighter) := entry in
         if decide (state fighter = Dead) then results
         else
           let distance := vdistanceTo (a_position a) (position fighter) in
           if (distance <=? radius)%num then results ++ [RFighter i]
           else results)
      (imap pair (fighters g)) [] in
  match commander g with
  | None => results
  | Some c =>
      let distance := vdistanceTo (a_position a) (position c) in
      if (distance <=? radius)%num then results ++ [RCommander] else results
  end.

Definition countNearbyFighters (a : Animal) (g : Game) (radius : num) : nat :=
  let count :=
    fold_left
      (fun (count : nat) (fighter : Unit) =>
         if decide (state fighter = Dead) then count
         else
           let distance := vdistanceTo (a_position a) (position fighter) in
           if (distance <=? radius)%num then S count else count)
      (fighters g) 0%nat in
  match commander g with
  | None => count
  | Some c =>
      let distance := vdistanceTo (a_position a) (position c) in
      if (distance <=? radius)%num then S count else count
  end.

Definition nabs : num -> num := num1 Qabs.

Definition getFightersInRect (a : Animal) (g : Game) (width length : num)
  : list TargetRef :=
  let forward :=
    applyAxisAngleY (mkVec (Fin 0) (Fin 0) (Fin (-1))) (a_rotation a) in
  let right :=
    applyAxisAngleY (mkVec (Fin 1) (Fin 0) (Fin 0)) (a_rotation a) in
  let results :=
    fold_left
      (fun (results : list TargetRef) (entry : nat * Unit) =>
         let (i, fighter) := entry in
         if decide (state fighter = Dead) then results
         else
           let toFighter := vsub (position fighter) (a_position a) in
           let forwardProjection := vdot toFighter forward in
           if (forwardProjection <=? Fin 0)%num
              || (forwardProjection >? length)%num
           then results
           else
             let rightProjection := vdot toFighter right in
             if (nabs rightProjection <=? width / Fin 2)%num
             then results ++ [RFighter i]
             else results)
      (imap pair (fighters g)) [] in
  match commander g with
  | None => results
  | Some c =>
      let toCommander := vsub (position c) (a_position a) in
      let forwardProjection := vdot toCommander forward in
      if (forwardProjection >? Fin 0)%num && (forwardProjection <=? length)%num
      then
        let rightProjection := vdot toCommander right in
        if (nabs rightProjection <=? width / Fin 2)%num
        then results ++ [RCommander]
        else results
      else results
  end.

(** [findNewTarget(animal)]: two values are drawn for every living
    fighter. *)
Definition findNewTarget (m : AnimalMind) (a : Animal) (g : Game)
  : Animal * Game :=
  let '(highestThreat, bestTarget, g) :=
    fold_left
      (fun (acc : num * option TargetRef * Game) (entry : nat * Unit) =>
         let '(highestThreat, bestTarget, g) := acc in
         let (i, fighter) := entry in
         if decide (state fighter = Dead) then acc
         else
           let threatLevel := Fin 0 in
           let distance := vdistanceTo (a_position a) (position fighter) in
           let threatLevel :=
             (threatLevel + (Fin 50 - nmin (Fin 50) distance) / Fin 50)%num in
           let threatLevel := (threatLevel + health fighter / Fin 100)%num in
           let threatLevel :=
             if decide (state fighter = Attacking)
             then (threatLevel + Fin 0.3)%num else threatLevel in
           let '(rnd, g) := draw random g in
           let threatLevel := (threatLevel + rnd * Fin 0.2)%num in
           let '(rnd, g) := draw random g in
           let threatLevel :=
             if (rnd <? intelligence m)%num && (health fighter <? Fin 30)%num
             then (threatLevel + Fin 0.5)%num else threatLevel in
           if (threatLevel >? highestThreat)%num
           then (threatLevel, Some (RFighter i), g)
           else (highestThreat, bestTarget, g))
      (imap pair (fighters g)) (Fin (-1), None, g) in
  let bestTarget :=
    match commander g with
    | None => bestTarget
    | Some c =>
        let distance := vdistanceTo (a_position a) (position c) in
        let commanderThreat := Fin 0 in
        let commanderThreat :=
          (commanderThreat + (Fin 50 - nmin (Fin 50) distance) / Fin 50)%num in
        let commanderThreat := (commanderThreat + health c / Fin 100)%num in
        let commanderThreat := (commanderThreat + Fin 0.4)%num in
        let commanderThreat :=
          (commanderThreat + intelligence m * Fin 0.3)%num in
        if (commanderThreat >? highestThreat)%num then Some RCommander
        else bestTarget
    end in
  match bestTarget with
  | Some _ => (a_set_target bestTarget (a_state a) a, g)
  | None => (a_set_target None Searching a, g)
  end.

(** The behaviours.  [animal.target] is an object reference: the case of a
    reference that designates nothing does not arise and leaves everything as
    it is.  [direction.multiplyScalar(s)] scales [direction] in place: what is
    read from it afterwards is the scaled vector. *)
Definition executeChargeBehavior (a : Animal) (g : Game) (delta : num)
  : Animal * Game :=
  match a_target a with
  | None => (a, g)
  | Some r =>
      match deref g r with
      | None => (a, g)
      | Some target =>
          let direction := vnormalize (vsub (position target) (a_position a)) in
          let distanceToTarget := vdistanceTo (a_position a) (position target) in
          let speed :=
            if (distanceToTarget >? a_attackRange a * Fin 3)%num
            then a_chargeSpeed a else a_moveSpeed a in
          let a := a_set_velocity (vscale direction (speed * delta)%num) a in
          if (distanceToTarget <=? a_attackRange a)%num then
            let '(_, a, g) := performAttack random a g [r] (a_attackPower a) in
            (a, g)
          else (a, g)
      end
  end.

Definition randomDirection (g : Game) : Vec3 * Game :=
  let '(rx, g) := draw random g in
  let '(rz, g) := draw random g in
  (vnormalize (mkVec (rx * Fin 2 - Fin 1)%num (Fin 0) (rz * Fin 2 - Fin 1)%num), g).

Definition executeSearchBehavior (m : AnimalMind) (a : Animal) (g : Game)
    (delta : num) : AnimalMind * Animal * Game :=
  let '(searchDirection0, g) :=
    match searchDirection m with
    | Some d => (d, g)
    | None => randomDirection g
    end in
  let '(rnd, g) := draw random g in
  let '(searchDirection0, g) :=
    if (rnd <? Fin 0.02)%num then randomDirection g
    else (searchDirection0, g) in
  let searchDirection0 :=
    vscale searchDirection0 (a_moveSpeed a * Fin 0.5 * delta)%num in
  let m := m_set_searchDirection (Some searchDirection0) m in
  let a := a_set_velocity searchDirection0 a in
  let '(a, g) := findNewTarget m a g in
  (m, a, g).

(** One round of the stun loop of [executePoundBehavior]. *)
Definition stun (g : Game) (r : TargetRef) : Game :=
  let '(rnd, g) := draw random g in
  if (rnd <? Fin 0.7)%num then
    let '(rnd, g) := draw random g in
    match deref g r with
    | Some target => assign r (set_stun (Fin 1 + rnd)%num target) g
    | None => g
    end
  else g.

Definition executePoundBehavior (a : Animal) (g : Game) (delta : num)
  : Animal * Game :=
  match a_target a with
  | None => (a, g)
  | Some r =>
      match deref g r with
      | None => (a, g)
      | Some target =>
          let direction := vnormalize (vsub (position target) (a_position a)) in
          let a :=
            a_set_velocity
              (vscale direction (a_moveSpeed a * Fin 0.3 * delta)%num) a in
          let attackTargets := getFightersInRadius a g (a_attackRange a) in
          if (0 <? length attackTargets)%nat then
            let '(_, a, g) :=
              performAttack random a g attackTargets
                (a_attackPower a * Fin 1.5)%num in
            (a, fold_left stun attackTargets g)
          else (a, g)
      end
  end.

Definition executeBiteBehavior (a : Animal) (g : Game) (delta : num)
  : Animal * Game :=
  match a_target a with
  | None => (a, g)
  | Some r =>
      match deref g r with
      | None => (a, g)
      | Some target =>
          let direction := vnormalize (vsub (position target) (a_position a)) in
          let a :=
            a_set_velocity
              (vscale direction (a_moveSpeed a * Fin 1.2 * delta)%num) a in
          let distanceToTarget := vdistanceTo (a_position a) (position target) in
          if (distanceToTarget <=? a_attackRange a)%num then
            let '(_, a, g) :=
              performAttack random a g [r] (a_attackPower a * Fin 1.8)%num in
            (a, g)
          else (a, g)
      end
  end.

(** The animal object is built without a [size] property ([size] belongs to
    the entry of [animalTypes] only). *)
Definition a_size (a : Animal) : option Vec3 := None.

Definition executeTrampleBehavior (a : Animal) (g : Game) (delta : num)
  : Res (Animal * Game) :=
  match a_target a with
  | None => Ok (a, g)
  | Some r =>
      match deref g r with
      | None => Ok (a, g)
      | Some target =>
          let direction := vnormalize (vsub (position target) (a_position a)) in
          let a :=
            a_set_velocity
              (vscale direction (a_chargeSpeed a * Fin 1.2 * delta)%num) a in
          match a_size a with
          | None =>
              Throw (TypeError "Cannot read properties of undefined (reading 'x')")
          | Some size =>
              let trampleWidth := (vx size * Fin 0.8)%num in
              let attackTargets :=
                getFightersInRect a g trampleWidth (a_attackRange a * Fin 2)%num in
              if (0 <? length attackTargets)%nat then
                let '(_, a, g) :=
                  performAttack random a g attackTargets
                    (a_attackPower a * Fin 0.7)%num in
                Ok (a, g)
              else Ok (a, g)
          end
      end
  end.

(** Only a fighter has a [forceAccumulator]; the commander is left where it
    is. *)
Definition executeThrowBehavior (a : Animal) (g : Game) (delta : num)
  : Animal * Game :=
  match a_target a with
  | None => (a, g)
  | Some r =>
      match deref g r with
      | None => (a, g)
      | Some target =>
          let direction := vnormalize (vsub (position target) (a_position a)) in
          let direction :=
            vscale direction (a_moveSpeed a * Fin 0.7 * delta)%num in
          let a := a_set_velocity direction a in
          let distanceToTarget := vdistanceTo (a_position a) (position target) in
          if (distanceToTarget <=? a_attackRange a)%num then
            let '(_, a, g) := performAttack random a g [r] (a_attackPower a) in
            let knockbackDistance := Fin 10 in
            let knockbackDirection := direction in
            let g :=
              match r, deref g r with
              | RFighter _, Some target =>
                  assign r
                    (addForce (vscale knockbackDirection knockbackDistance) target)
                    g
              | _, _ => g
              end in
            (a, g)
          else (a, g)
      end
  end.

Definition executeAmbushBehavior (m : AnimalMind) (a : Animal) (g : Game)
    (delta : num) : AnimalMind * Animal * Game :=
  match a_target a with
  | None => (m, a, g)
  | Some r =>
      match deref g r with
      | None => (m, a, g)
      | Some target =>
          if negb (ambushPrepared m) then
            (m_set_ambushPrepared true m, a_set_velocity vzero a, g)
          else
            let direction :=
              vnormalize (vsub (position target) (a_position a)) in
            let a :=
              a_set_velocity
                (vscale direction (a_chargeSpeed a * Fin 1.5 * delta)%num) a in
            let distanceToTarget :=
              vdistanceTo (a_position a) (position target) in
            if (distanceToTarget <=? a_attackRange a)%num then
              let '(_, a, g) :=
                performAttack random a g [r] (a_attackPower a * Fin 2)%num in
              (m, a, g)
            else (m, a, g)
      end
  end.

(** [executeBehavior(animal, delta)]: the dispatch on [animal.currentBehavior]
    and the countdown of the special cooldowns. *)
Definition executeBehavior (m : AnimalMind) (a : Animal) (g : Game)
    (delta : num) : Res (AnimalMind * Animal * Game) :=
  let a := a_set_velocity vzero a in
  let behavior := default "null" (a_currentBehavior a) in
  do r <-
    (if decide (behavior = "charge") then
       let '(a, g) := executeChargeBehavior a g delta in Ok (m, a, g)
     else if decide (behavior = "search") then
       Ok (executeSearchBehavior m a g delta)
     else if decide (behavior = "sweep" \/ behavior = "swipe"
                     \/ behavior = "tuskSwipe") then
       do r <- executeSwipeBehavior random a g delta;
       Ok (m, fst r, snd r)
     else if decide (behavior = "pound") then
       let '(a, g) := executePoundBehavior a g delta in Ok (m, a, g)
     else if decide (behavior = "bite" \/ behavior = "gore") then
       let '(a, g) := executeBiteBehavior a g delta in Ok (m, a, g)
     else if decide (behavior = "pounce") then
       let '(a, g) := executePoundBehavior a g delta in Ok (m, a, g)
     else if decide (behavior = "trample") then
       do r <- executeTrampleBehavior a g delta;
       Ok (m, fst r, snd r)
     else if decide (behavior = "throw") then
       let '(a, g) := executeThrowBehavior a g delta in Ok (m, a, g)
     else if decide (behavior = "ambush") then
       Ok (executeAmbushBehavior m a g delta)
     else
       let '(a, g) := executeChargeBehavior a g delta in Ok (m, a, g));
  let '(m, a, g) := r in
  let cooldowns :=
    (fun c : num => if (c >? Fin 0)%num then (c - delta)%num else c)
    <$> specialCooldowns m in
  Ok (m_set_specialCooldowns cooldowns m, a, g).

Definition includes (x : string) (l : list string) : bool :=
  bool_decide (x ∈ l).

(** The weight that [selectNewBehavior] gives to a behaviour other than
    ['charge']. *)
Definition behaviorWeight (m : AnimalMind) (a : Animal) (g : Game)
    (behavior : string) : num :=
  let weight := Fin 0.3 in
  let onCooldown :=
    match specialCooldowns m !! behavior with
    | Some c => (c >? Fin 0)%num
    | None => false
    end in
  if onCooldown then Fin 0
  else
    let weight :=
      if (a_health a <? a_maxHealth a * Fin 0.3)%num
         && includes behavior ["pound"; "throw"; "gore"; "trample"]
      then (weight + Fin 0.3)%num else weight in
    let weight :=
      if a_isEnraged a
         && includes behavior ["swipe"; "bite"; "claw"; "tuskSwipe"; "gore"]
      then (weight + Fin 0.4)%num else weight in
    match a_target a with
    | None => weight
    | Some r =>
        match deref g r with
        | None => weight
        | Some target =>
            let distanceToTarget :=
              vdistanceTo (a_position a) (position target) in
            let weight :=
              if (distanceToTarget <? a_attackRange a * Fin 1.5)%num then
                if includes behavior ["swipe"; "bite"; "pound"; "claw"]
                then (weight + Fin 0.3)%num else weight
              else
                if includes behavior ["charge"; "throw"; "pounce"]
                then (weight + Fin 0.3)%num else weight in
            let nearbyFighters :=
              countNearbyFighters a g (a_attackRange a * Fin 2)%num in
            if (3 <=? nearbyFighters)%nat
               && includes behavior ["sweep"; "trample"; "tuskSwipe"]
            then (weight + Fin 0.4)%num else weight
        end
    end.

(** The options of [selectNewBehavior], before the weights are normalised. *)
Definition behaviorOptions (m : AnimalMind) (a : Animal) (g : Game)
  : list (string * num) :=
  let behaviorOptions :=
    fold_left
      (fun (options : list (string * num)) (behavior : string) =>
         if decide (behavior = "charge") then options
         else
           let weight := behaviorWeight m a g behavior in
           if (weight >? Fin 0)%num then options ++ [(behavior, weight)]
           else options)
      (behaviors m)
      [("charge", (Fin 0.5 + aggression m * Fin 0.5)%num)] in
  match a_target a with
  | None => [("search", Fin 1)]
  | Some _ => behaviorOptions
  end.

(** The selection loop: the first option at which the cumulated weight
    reaches the value drawn, if there is one.  (The weights are exact here,
    and the normalised weights sum to 1; in double arithmetic their sum can
    fall short of 1 by a rounding error of 2^-52, and a value drawn above it
    falls through the loop.) *)
Fixpoint pickBehavior (options : list (string * num)) (randomValue : num)
    (cumulativeWeight : num) : option string :=
  match options with
  | [] => None
  | (name, weight) :: options =>
      let cumulativeWeight := (cumulativeWeight + weight)%num in
      if (randomValue <=? cumulativeWeight)%num then Some name
      else pickBehavior options randomValue cumulativeWeight
  end.

Definition selectNewBehavior (m : AnimalMind) (a : Animal) (g : Game)
  : AnimalMind * Animal * Game :=
  let behaviorOptions := behaviorOptions m a g in
  let totalWeight :=
    fold_left (fun (sum : num) (option : string * num) => (sum + snd option)%num)
      behaviorOptions (Fin 0) in
  let behaviorOptions :=
    map (fun option : string * num => (fst option, (snd option / totalWeight)%num))
      behaviorOptions in
  let '(randomValue, g) := draw random g in
  let currentBehavior0 :=
    match pickBehavior behaviorOptions randomValue (Fin 0) with
    | Some name => Some name
    | None => currentBehavior m
    end in
  let '(rnd, g) := draw random g in
  let '(behaviorDuration0, cooldowns, g) :=
    if decide (currentBehavior0 = Some "charge")
    then ((Fin 3 + rnd * Fin 2)%num, specialCooldowns m, g)
    else if decide (currentBehavior0 = Some "search")
    then ((Fin 2 + rnd * Fin 3)%num, specialCooldowns m, g)
    else
      let behaviorDuration0 := (Fin 1.5 + rnd)%num in
      let '(rnd, g) := draw random g in
      (behaviorDuration0,
       <[default "null" currentBehavior0 := (Fin 5 + rnd * Fin 5)%num]>
         (specialCooldowns m), g) in
  let behaviorDuration0 :=
    if a_isEnraged a then (behaviorDuration0 * Fin 1.3)%num
    else behaviorDuration0 in
  (m_set_behavior currentBehavior0 behaviorDuration0 behaviorDuration0 cooldowns m,
   a_set_currentBehavior currentBehavior0 a, g).

(** [AnimalAI.update(delta)] *)
Definition AnimalAI_update (delta : num) (m : AnimalMind) (g : Game)
  : Res (AnimalMind * Game) :=
  match animal g with
  | None => Ok (m, g)
  | Some a =>
      if decide (phase g <> Battle) then Ok (m, g)
      else
        let m := m_set_behaviorTimer (behaviorTimer m - delta)%num m in
        let a := updateRageState a delta in
        let '(m, a, g) :=
          if (behaviorTimer m <=? Fin 0)%num then selectNewBehavior m a g
          else (m, a, g) in
        if decide (a_state a = Stunned) then
          let m := m_set_stunTime (a_stunTime m - delta)%num m in
          let a :=
            if (a_stunTime m <=? Fin 0)%num then a_set_state Searching a
            else a in
          Ok (m, g_set_animal (Some a) g)
        else
          let needsTarget :=
            match a_target a with
            | None => true
            | Some r =>
                match deref g r with
                | Some target => bool_decide (state target = Dead)
                | None => false
                end
            end in
          let '(a, g) := if needsTarget then findNewTarget m a g else (a, g) in
          do r <- executeBehavior m a g delta;
          let '(m, a, g) := r in
          let position := vadd (a_position a) (a_velocity a) in
          let rotation :=
            if (vlengthSq (a_velocity a) >? Fin 0.001)%num then
              let targetRotation :=
                natan2 (vx (a_velocity a)) (vz (a_velocity a)) in
              lerpAngle (a_rotation a) targetRotation (Fin 5 * delta)%num
            else a_rotation a in
          Ok (m, g_set_animal (Some (a_set_pose position rotation a)) g)
  end.

(** ** BattleSimulator ([js/game.js]): the frame *)

Definition updateSetupPhase (delta : num) (g : Game) : Game :=
  let g :=
    match animal g with
    | Some a =>
        g_set_animal
          (Some (a_set_pose (a_position a) (a_rotation a + Fin 0.5 * delta)%num a)) g
    | None => g
    end in
  match commander g with
  | Some c =>
      g_set_commander (Some (set_rotation (rotation c + Fin 0.5 * delta)%num c)) g
  | None => g
  end.

Definition updateBattlePhase (cfg : Config) (keys : Keys)
    (cameraRotationY : num) (delta : num) (m : AnimalMind) (g : Game)
  : Res (AnimalMind * Game) :=
  let g := g_set_time (time g + delta)%num g in
  let g := updateCommander cfg keys cameraRotationY delta g in
  let g := FighterAI_update delta g in
  do r <- AnimalAI_update delta m g;
  let '(m, g) := r in
  do g <- checkBattleEnd g;
  Ok (m, g).

(** [update(delta)], without the camera. *)
Definition update (cfg : Config) (keys : Keys) (cameraRotationY : num)
    (delta : num) (m : AnimalMind) (g : Game) : Res (AnimalMind * Game) :=
  match phase g with
  | Setup => Ok (m, updateSetupPhase delta g)
  | Battle => updateBattlePhase cfg keys cameraRotationY delta m g
  | Result => Ok (m, g)
  end.

End Session.

(** ** InputManager: key presses *)

Inductive CameraMode : Type := Overview | CommanderView | AnimalView.

Definition cameraModeName (mode : CameraMode) : string :=
  match mode with
  | Overview => "OVERVIEW"
  | CommanderView => "COMMANDER"
  | AnimalView => "ANIMAL"
  end.

Definition toggleCameraView (mode : CameraMode) (g : Game) : CameraMode * Game :=
  let mode :=
    match mode with
    | Overview => CommanderView
    | CommanderView => AnimalView
    | AnimalView => Overview
    end in
  (mode, g_log ("Camera: " +:+ cameraModeName mode) g).

(** [array.indexOf(x)]: the first place of [x], or [-1]. *)
Fixpoint indexOf_from (x : string) (l : list string) (i : Z) : Z :=
  match l with
  | [] => (-1)%Z
  | y :: l => if decide (y = x) then i else indexOf_from x l (i + 1)%Z
  end.
Definition indexOf (x : string) (l : list string) : Z := indexOf_from x l 0%Z.

(** The state that a key press acts on: the camera mode, the animal engine
    and the game. *)
Definition World : Type := CameraMode * AnimalMind * Game.

Section Input.
Context {M : MathLib}.
Variable random : nat -> Q.

(** [handleKeyPress(code, isDown)].  An index out of the array would give
    [undefined], which names no formation. *)
Definition handleKeyPress (cfg : Config) (code : string) (isDown : bool)
    (w : World) : Res World :=
  let '(mode, m, g) := w in
  if negb isDown then Ok w
  else if decide (code = "Space") then
    if decide (phase g = Setup) then Ok (mode, m, snd (startBattle g))
    else Ok w
  else if decide (code = "KeyF") then
    if decide (phase g = Battle) then
      let formations := ["circle"; "line"; "arrow"; "scatter"] in
      let currentIndex := indexOf (currentFormation (fighterAI g)) formations in
      let nextIndex :=
        Z.rem (currentIndex + 1) (Z.of_nat (length formations)) in
      let name := default "undefined" (formations !! Z.to_nat nextIndex) in
      Ok (mode, m, g_set_fighterAI (snd (setFormation name (fighterAI g))) g)
    else Ok w
  else if decide (code = "KeyR") then
    if decide (phase g = Result) then
      do r <- setupBattle random cfg m g;
      Ok (mode, fst r, snd r)
    else Ok w
  else if decide (code = "KeyC") then
    if decide (phase g = Battle) then
      let '(mode, g) := toggleCameraView mode g in Ok (mode, m, g)
    else Ok w
  else Ok w.

End Input.


(** A library of rational approximations, to run the engines on concrete
    states. *)
Definition approx_sqrt (q : Q) : Q :=
  inject_Z (Z.sqrt (Qfloor (q * inject_Z (2 ^ 60)))) / inject_Z (2 ^ 30).
Definition approx_sin (x : Q) : Q := x - x * x * x / 6 + x * x * x * x * x / 120.
Definition approx_cos (x : Q) : Q := 1 - x * x / 2 + x * x * x * x / 24.
Definition approx_PI : Q := 3.141592653589793.
Definition approx_atan (t : Q) : Q := t / (1 + 0.28 * t * t).
Definition approx_atan2 (y x : Q) : Q :=
  if Qeq_bool x 0 then
    if Qltb 0 y then approx_PI / 2 else if Qltb y 0 then - approx_PI / 2 else 0
  else if Qltb 0 x then approx_atan (y / x)
  else if Qle_bool 0 y then approx_atan (y / x) + approx_PI
  else approx_atan (y / x) - approx_PI.
Definition approx_acos (x : Q) : Q :=
  approx_PI / 2 - (x + x * x * x / 6 + 3 * x * x * x * x * x / 40).

Definition approxMath : MathLib :=
  Build_MathLib approx_sqrt approx_sin approx_cos approx_atan2 approx_acos approx_PI.

(** [Math.random] stuck at one half: damage is then the base damage. *)
Definition random_half (n : nat) : Q := 0.5.

(** * Vocabulary of the properties *)

(** The commander is not defeated as [checkBattleEnd] sees it. *)
Definition commanderAlive (g : Game) : Prop :=
  match commander g with
  | Some c => (health c <=? Fin 0)%num = false
  | None => True
  end.

(** What happens to the animal's rage between two looks at it: a hit on the
    animal is reported ([recordDamageToAnimal]), or a tick runs
    [updateRageState]. *)
Inductive RageEvent : Type :=
| Damaged (amount : num)
| Ticked (delta : num).

Definition rage_step (g : Game) (e : RageEvent) : Game :=
  match e with
  | Damaged amount => recordDamageToAnimal amount g
  | Ticked delta =>
      match animal g with
      | Some a => g_set_animal (Some (updateRageState a delta)) g
      | None => g
      end
  end.

(** The stats of [a'] are those of the calm animal [a], boosted once exactly
    when [a'] is enraged. *)
Definition rage_stats (a a' : Animal) : Prop :=
  if a_isEnraged a' then
    num_eq (a_attackPower a') (a_attackPower a * Fin 1.3)%num
    /\ num_eq (a_moveSpeed a') (a_moveSpeed a * Fin 1.2)%num
    /\ num_eq (a_chargeSpeed a') (a_chargeSpeed a * Fin 1.2)%num
  else
    num_eq (a_attackPower a') (a_attackPower a)
    /\ num_eq (a_moveSpeed a') (a_moveSpeed a)
    /\ num_eq (a_chargeSpeed a') (a_chargeSpeed a).

(** What the steering forces leave alone in a fighter. *)
Definition same_body (u v : Unit) : Prop :=
  position u = position v /\ health u = health v /\ maxHealth u = maxHealth v
  /\ commanderInfluence u = commanderInfluence v
  /\ lastAttackTime u = lastAttackTime v.

(** What a fighter's update leaves alone in the game. *)
Definition same_frame (g' g : Game) : Prop :=
  phase g' = phase g /\ commander g' = commander g /\ time g' = time g
  /\ fleeWhenInjured (weights (fighterAI g')) = fleeWhenInjured (weights (fighterAI g))
  /\ currentFormation (fighterAI g') = currentFormation (fighterAI g)
  /\ option_map a_position (animal g') = option_map a_position (animal g).

Definition clamp_error : Exn := TypeError "Math.clamp is not a function".

(** Health is not negative, and the unit is dead exactly when its health
    is 0. *)
Definition vital (u : Unit) : Prop :=
  (health u <? Fin 0)%num = false
  /\ (state u = Dead <-> num_eq (health u) (Fin 0)).

Definition units_ok (g : Game) : Prop :=
  Forall vital (fighters g) /\ (forall c, commander g = Some c -> vital c).

(** The start of a battle session: the roster holds fighters as
    [createFighter] made them, the commander is as [createCommander] made
    it. *)
Definition session_start (g : Game) : Prop :=
  Forall (fun u => exists pos, u = createFighter pos) (fighters g)
  /\ (forall c, commander g = Some c -> c = createCommander).

(** Whoever is dead in [g] is still there and dead in [g']. *)
Definition stays_dead (g g' : Game) : Prop :=
  (forall i u, fighters g !! i = Some u -> state u = Dead ->
     exists u', fighters g' !! i = Some u' /\ state u' = Dead)
  /\ (forall c, commander g = Some c -> state c = Dead ->
        exists c', commander g' = Some c' /\ state c' = Dead).

(** Health and state of every fighter and of the commander. *)
Definition vitals (g : Game) : list (num * UnitState) * option (num * UnitState) :=
  (map (fun u => (health u, state u)) (fighters g),
   option_map (fun u => (health u, state u)) (commander g)).

(** One unit across one step: the invariant and death are kept. *)
Definition ok_step (u u' : Unit) : Prop :=
  (vital u -> vital u') /\ (state u = Dead -> state u' = Dead).

Definition sound (g g' : Game) : Prop :=
  Forall2 ok_step (fighters g) (fighters g')
  /\ option_Forall2 ok_step (commander g) (commander g').

Section Steps.
Context {M : MathLib}.
Variable random : nat -> Q.

(** What can happen to the units during a battle: the fighter engine runs;
    the commander attacks or rallies; the animal engine resolves an attack,
    through [performAttack], on any targets with any base damage (every
    behaviour of the animal deals its damage that way); or something else
    happens that writes neither health nor state of a fighter or of the
    commander (movement, timers, stun flags, knockback, rage, target
    choice). *)
Inductive engine_step : Game -> Game -> Prop :=
| step_fighters (delta : num) (g : Game) :
    engine_step g (FighterAI_update delta g)
| step_commanderAttack (g : Game) :
    engine_step g (commanderAttack g)
| step_rally (g : Game) :
    engine_step g (rallyNearbyFighters g)
| step_performAttack (g : Game) (a : Animal) (targets : list TargetRef)
    (baseDamage : num) :
    animal g = Some a ->
    engine_step g
      (g_set_animal
         (Some (snd (fst (performAttack random a g targets baseDamage))))
         (snd (performAttack random a g targets baseDamage)))
| step_other (g g' : Game) :
    vitals g' = vitals g -> engine_step g g'.

End Steps.

(** ** Concrete states *)

(** The animal that [createAnimal] builds from the gorilla profile, put at
    [pos]. *)
Definition gorilla (pos : Vec3) : Animal :=
  mkAnimal "gorilla" pos vzero (Fin 0) (Fin 1000) (Fin 1000) (Fin 25) (Fin 2)
    (Fin 8) (Fin 12) Idle None (Fin 0) (Fin 2) None (Fin 0) false 0x8B4513%Z.

(** A battle under way at game time [t], with a fresh fighter engine. *)
Definition battle (fs : list Unit) (a : Animal) (c : Unit) (t : num) : Game :=
  mkGame Battle fs (Some a) (Some c) t (Fin 0) (Fin 0) false newFighterAI [] 0.

Definition animal0 : Animal := gorilla (mkVec (Fin 0) (Fin 1.25) (Fin (-45))).
Definition fighter0 : Unit := createFighter (mkVec (Fin 1) (Fin 0) (Fin (-44))).
Definition fighter1 : Unit := createFighter (mkVec (Fin (-1)) (Fin 0) (Fin (-44))).

(** Two fresh fighters next to the animal, five seconds into the battle. *)
Definition game0 : Game := battle [fighter0; fighter1] animal0 createCommander (Fin 5).

(** The same after the animal has struck both fighters, and half a second
    later. *)
Definition struck : bool * Animal * Game :=
  performAttack random_half animal0 game0 [RFighter 0; RFighter 1] (Fin 25).
Definition game_struck : Game :=
  g_set_animal (Some (snd (fst struck))) (snd struck).
Definition game_later : Game := g_set_time (Fin 5.5) (snd struck).

(** Rage: 150 points of damage reported, a frame, then a long pause. *)
Definition rage_events : list RageEvent :=
  [Damaged (Fin 150); Ticked (Fin 0.016); Ticked (Fin 1.9)].

(** The only fighter placed has fallen; the commander is unhurt. *)
Definition fallen : Unit := set_state Dead (set_health (Fin 0) fighter0).
Definition game_fallen : Game := battle [fallen] animal0 createCommander (Fin 5).
Definition game_empty : Game := battle [] animal0 createCommander (Fin 5).

(** A fighter at health 9 of 50; a fighter a rally has just flagged. *)
Definition game_hurt : Game :=
  battle [set_health (Fin 9) fighter0] animal0 createCommander (Fin 5).
Definition game_rallied : Game :=
  battle [set_commanderInfluence true fighter0] animal0 createCommander (Fin 5).

(** A single fighter, the line formation selected. *)
Definition game_line : Game :=
  g_set_fighterAI (snd (setFormation "line" newFighterAI))
    (battle [fighter0] animal0 createCommander (Fin 5)).

(** The gorilla sweeping at the first fighter. *)
Definition sweeper : Animal :=
  mkAnimal "gorilla" (mkVec (Fin 0) (Fin 1.25) (Fin (-45))) vzero (Fin 0)
    (Fin 1000) (Fin 1000) (Fin 25) (Fin 2) (Fin 8) (Fin 12) Idle
    (Some (RFighter 0)) (Fin 0) (Fin 2) (Some "sweep") (Fin 0) false 0x8B4513%Z.

(** The animal down to 3 health (say after 199 hits of 5 by the commander and
    2 hits of 1 by fighters), the commander one unit away from it and ready
    to strike. *)
Definition game_last_blow : Game :=
  battle [fighter0]
    (a_set_health (Fin 3) (gorilla (mkVec (Fin 0) (Fin 1) (Fin (-1)))))
    createCommander (Fin 600).

(** ** Vocabulary of the session and of the animal engine *)

(** The fighters placed by a series of clicks. *)
Definition placeFighters (cfg : Config) (clicks : list Vec3) (g : Game) : Game :=
  fold_left (fun g position => snd (placeFighter cfg position g)) clicks g.

(** The point [p] lies within the bounds that [keepInArena] enforces. *)
Definition inside_arena (cfg : Config) (p : Vec3) : Prop :=
  exists s x z : Q,
    arenaSize cfg = Fin s /\ vx p = Fin x /\ vz p = Fin z
    /\ - (s / 2 - 2) <= x <= s / 2 - 2
    /\ - (s / 2 - 2) <= z <= s / 2 - 2.

(** The animal engine before any animal is made. *)
Definition newAnimalAI : AnimalMind :=
  mkMind [] NaN NaN ∅ NaN None false (Fin 0) None (Fin 0).

(** What the fighter update keeps of a fighter: health and maximum health;
    all of a dead fighter; and that a living fighter is not dead. *)
Definition kept_by_fighter_update (u u' : Unit) : Prop :=
  health u' = health u /\ maxHealth u' = maxHealth u
  /\ (state u = Dead -> u' = u) /\ (state u <> Dead -> state u' <> Dead).

(** Between [g] and [g'] nothing was written but fighters (none added or
    removed), the commander and the count of random draws. *)
Definition only_units_written (g g' : Game) : Prop :=
  g_set_randomDraws (randomDraws g)
    (g_set_commander (commander g) (g_set_fighters (fighters g) g')) = g
  /\ length (fighters g') = length (fighters g)
  /\ (commander g = None <-> commander g' = None).

(** Across [g] to [g'] the units are sound (health never negative, dead
    exactly at health 0, the dead stay dead), no fighter is added or removed,
    and clock and phase are the same. *)
Definition same_clock (g g' : Game) : Prop :=
  sound g g' /\ time g' = time g /\ phase g' = phase g
  /\ length (fighters g') = length (fighters g).

(** ** Concrete states of the session *)

(** The animal engine as [createAnimal] leaves it for a gorilla. *)
Definition gorillaAI : AnimalMind :=
  mkMind ["charge"; "sweep"; "pound"] (Fin 0.8) (Fin 0.7) ∅ NaN None false
    (Fin 0) None (Fin 0).

(** No key held; W held. *)
Definition noKeys : Keys := mkKeys false false false false false.
Definition forwardKeys : Keys := mkKeys true false false false false.

(** The animal of [game_fallen] down to 900 of its 1000 health. *)
Definition game_lost : Game :=
  g_set_animal (Some (a_set_health (Fin 900) animal0)) game_fallen.

(** The unit carries a stun of 1 + a value drawn from the generator. *)
Definition stunned_by (random : nat -> Q) (u : Unit) : Prop :=
  stunned u = true /\ exists k : nat, stunTime u = (Fin 1 + Fin (random k))%num.

(** [u'] is [u] but for the fields [stunned] and [stunTime]. *)
Definition same_but_stun (u u' : Unit) : Prop :=
  set_stun (Fin 0) u' = set_stun (Fin 0) u.

(** What the selection loop of [selectNewBehavior] may select for the
    animal: 'search' without a target; with one, 'charge' or one of the
    animal's own behaviours whose special cooldown is not running. *)
Definition selectable (m : AnimalMind) (a : Animal) (b : string) : Prop :=
  (a_target a = None -> b = "search")
  /\ (a_target a <> None ->
      b = "charge"
      \/ (b ∈ behaviors m
          /\ forall c : num,
               specialCooldowns m !! b = Some c -> (c >? Fin 0)%num = false)).


(** * Properties *)

(** ** Numbers *)

Lemma Qltb_lt (x y : Q) : Qltb x y = true <-> x < y.
Proof.
  unfold Qltb. rewrite negb_true_iff. split.
  - intros H. apply Qnot_le_lt. intros Hle.
    apply Qle_bool_iff in Hle. congruence.
  - intros H. destruct (Qle_bool y x) eqn:E; [|reflexivity].
    apply Qle_bool_iff in E. exfalso. apply (Qlt_not_le _ _ H E).
Qed.

Lemma Qltb_ge (x y : Q) : Qltb x y = false <-> y <= x.
Proof.
  unfold Qltb. rewrite negb_false_iff. apply Qle_bool_iff.
Qed.

Lemma Qeq_bool_false (x y : Q) : Qeq_bool x y = false <-> ~ x == y.
Proof.
  split.
  - intros H E. apply Qeq_bool_iff in E. congruence.
  - intros H. destruct (Qeq_bool x y) eqn:E; [|reflexivity].
    apply Qeq_bool_iff in E. contradiction.
Qed.

Lemma num_eq_refl (a : num) : num_eq a a.
Proof. destruct a; simpl; [reflexivity | exact I]. Qed.

Lemma num_eq_sym (a b : num) : num_eq a b -> num_eq b a.
Proof. destruct a, b; simpl; try tauto. intros H. symmetry. exact H. Qed.

Lemma num_eq_trans (a b c : num) : num_eq a b -> num_eq b c -> num_eq a c.
Proof.
  destruct a, b, c; simpl; try tauto.
  intros H1 H2. rewrite H1. exact H2.
Qed.

Lemma nmul_compat (a b c : num) : num_eq a b -> num_eq (a * c)%num (b * c)%num.
Proof.
  destruct a, b, c; simpl; try tauto. intros H. rewrite H. reflexivity.
Qed.

(** Dividing by a non-zero constant undoes the multiplication by it. *)
Lemma nmul_ndiv_cancel (a : num) (k : Q) :
  ~ k == 0 -> num_eq ((a * Fin k) / Fin k)%num a.
Proof.
  intros Hk. destruct a as [x|]; simpl; [|exact I].
  destruct (Qeq_bool k 0) eqn:E.
  - apply Qeq_bool_iff in E. contradiction.
  - simpl. field. exact Hk.
Qed.

Lemma ndiv_compat (a b : num) (k : Q) :
  num_eq a b -> num_eq (a / Fin k)%num (b / Fin k)%num.
Proof.
  destruct a, b; simpl; try tauto.
  intros H. destruct (Qeq_bool k 0); simpl; [exact I|]. rewrite H. reflexivity.
Qed.

Lemma ndiv_Fin (x k : Q) :
  Qeq_bool k 0 = false -> (Fin x / Fin k)%num = Fin (x / k).
Proof. intros H. unfold ndiv. rewrite H. reflexivity. Qed.

Lemma nmul_NaN_r (a : num) : (a * NaN)%num = NaN.
Proof. destruct a; reflexivity. Qed.

Lemma nadd_NaN_r (a : num) : (a + NaN)%num = NaN.
Proof. destruct a; reflexivity. Qed.

(** ** Formation engine *)

Section FormationProperties.
Context {M : MathLib}.

(** C5. With a single fighter, the line formation divides zero by zero:
    [index / (totalFighters - 1)] is [0 / 0], and the slot it returns is not a
    position (every coordinate is NaN), whatever the reference frame. *)
Theorem lineFormation_single_fighter_not_finite :
  forall center direction : Vec3,
    lineFormation 0 1 center direction = vNaN
    /\ vfinite (lineFormation 0 1 center direction) = false.
Proof.
  intros center direction.
  assert (E : lineFormation 0 1 center direction = vNaN).
  { unfold lineFormation, vadd, vscale, vNaN. cbn [vx vy vz].
    replace (of_nat 0 / (of_nat 1 - Fin 1))%num with NaN by reflexivity.
    cbn [nsub nmul num2].
    rewrite !nmul_NaN_r, !nadd_NaN_r. reflexivity. }
  rewrite E. split; reflexivity.
Qed.

(** The arrow formation is safe for a single fighter only through the early
    return for the leader. *)
Lemma arrowFormation_leader (totalFighters : nat) (center direction : Vec3) :
  arrowFormation 0 totalFighters center direction
  = vadd center (vscale direction (Fin 3)).
Proof. reflexivity. Qed.

(** Behind the leader the same division is unguarded: with three fighters the
    last one is alone in its row, [posInRow / (totalInRow - 1)] is [0 / 0]. *)
Lemma arrowFormation_lone_row_not_finite (center direction : Vec3) :
  arrowFormation 2 3 center direction = vNaN.
Proof.
  unfold arrowFormation, vadd, vscale, vNaN. cbn [Nat.eqb vx vy vz].
  replace (nmod (of_nat 2) (nceil_sqrt (of_nat 3))
           / (nmin (nceil_sqrt (of_nat 3))
                (of_nat 3
                 - nfloor (of_nat 2 / nceil_sqrt (of_nat 3))
                   * nceil_sqrt (of_nat 3)) - Fin 1))%num
    with NaN by (vm_compute; reflexivity).
  cbn [nsub nmul num2].
  rewrite !nmul_NaN_r, !nadd_NaN_r. reflexivity.
Qed.

End FormationProperties.

(** ** Formation selection *)

Lemma setFormation_known (name : string) (f : FormationFn) (ai : FighterAI) :
  formations !! name = Some f ->
  setFormation name ai = (true, set_currentFormation name ai).
Proof.
  intros H. unfold setFormation, formations_get. rewrite H. reflexivity.
Qed.

Lemma setFormation_unknown (name : string) (ai : FighterAI) :
  formations !! name = None -> name ∉ Object_prototype ->
  setFormation name ai = (false, ai).
Proof.
  intros H1 H2. unfold setFormation, formations_get. rewrite H1.
  destruct (decide (name ∈ Object_prototype)); [contradiction | reflexivity].
Qed.

(** C10. [setFormation] tests [this.formations[formationName]] for truthiness,
    and an object literal also answers for what it inherits: the name
    ["toString"] is none of the four formation kinds, yet it is accepted and
    becomes the current formation. *)
Theorem setFormation_accepts_inherited_name :
  forall ai : FighterAI,
    formations !! "toString" = None
    /\ setFormation "toString" ai = (true, set_currentFormation "toString" ai)
    /\ currentFormation (snd (setFormation "toString" ai)) = "toString".
Proof.
  intros ai. split; [|split]; reflexivity.
Qed.

(** ** Combat resolution: the cooldown gate *)

Section CombatProperties.
Variable random : nat -> Q.

Lemma assign_time (r : TargetRef) (u : Unit) (g : Game) :
  time (assign r u g) = time g.
Proof. destruct r; reflexivity. Qed.

Lemma assign_animal (r : TargetRef) (u : Unit) (g : Game) :
  animal (assign r u g) = animal g.
Proof. destruct r; reflexivity. Qed.

Lemma hit_time (b : num) (g : Game) (r : TargetRef) :
  time (hit random b g r) = time g.
Proof.
  unfold hit. destruct (deref g r) as [u|]; [|reflexivity].
  destruct (decide (state u = Dead)); [reflexivity|].
  cbn [draw]. rewrite assign_time. reflexivity.
Qed.

Lemma hit_animal (b : num) (g : Game) (r : TargetRef) :
  animal (hit random b g r) = animal g.
Proof.
  unfold hit. destruct (deref g r) as [u|]; [|reflexivity].
  destruct (decide (state u = Dead)); [reflexivity|].
  cbn [draw]. rewrite assign_animal. reflexivity.
Qed.

Lemma hits_time (b : num) (targets : list TargetRef) (g : Game) :
  time (fold_left (hit random b) targets g) = time g.
Proof.
  revert g. induction targets as [|r targets IH]; intros g; [reflexivity|].
  cbn [fold_left]. rewrite IH. apply hit_time.
Qed.

Lemma hits_animal (b : num) (targets : list TargetRef) (g : Game) :
  animal (fold_left (hit random b) targets g) = animal g.
Proof.
  revert g. induction targets as [|r targets IH]; intros g; [reflexivity|].
  cbn [fold_left]. rewrite IH. apply hit_animal.
Qed.

(** An attack attempted before the cooldown has elapsed changes nothing. *)
Lemma performAttack_rejected (a : Animal) (g : Game) (targets : list TargetRef)
    (baseDamage : num) :
  (time g - a_lastAttackTime a <? a_attackCooldown a)%num = true ->
  performAttack random a g targets baseDamage = (false, a, g).
Proof. intros H. unfold performAttack. rewrite H. reflexivity. Qed.

(** An attack that goes through stamps the attacker with the game time. *)
Lemma performAttack_accepted (a : Animal) (g : Game) (targets : list TargetRef)
    (baseDamage : num) :
  (time g - a_lastAttackTime a <? a_attackCooldown a)%num = false ->
  performAttack random a g targets baseDamage
  = (true,
     a_set_attackTimer (time g) (if a_isEnraged a then Fin 0.7 else Fin 1) a,
     fold_left (hit random baseDamage) targets g).
Proof.
  intros H. unfold performAttack. rewrite H, hits_time. reflexivity.
Qed.

Lemma performAttack_true_inv (a a1 : Animal) (g g1 : Game)
    (targets : list TargetRef) (baseDamage : num) :
  performAttack random a g targets baseDamage = (true, a1, g1) ->
  a_lastAttackTime a1 = time g.
Proof.
  unfold performAttack.
  destruct (time g - a_lastAttackTime a <? a_attackCooldown a)%num;
    [discriminate|].
  intros H. injection H as <- _. rewrite hits_time. reflexivity.
Qed.

(** C3. [performAttack] called while less than [attackCooldown] seconds of
    game time have passed since the attacker's [lastAttackTime] returns
    [false] and leaves the attacker and the game as they were (no damage, no
    random draw).  Hence, after an attack that went through at game time
    [time g0], an attack attempted in any later state [g2] less than the
    attacker's [attackCooldown] seconds after it is rejected: the two calls
    apply damage once. *)
Theorem performAttack_cooldown_gate :
  (forall (a : Animal) (g : Game) (targets : list TargetRef) (baseDamage : num),
      (time g - a_lastAttackTime a <? a_attackCooldown a)%num = true ->
      performAttack random a g targets baseDamage = (false, a, g))
  /\
  (forall (a0 a1 : Animal) (g0 g1 g2 : Game) (targets1 targets2 : list TargetRef)
          (baseDamage1 baseDamage2 : num),
      performAttack random a0 g0 targets1 baseDamage1 = (true, a1, g1) ->
      (time g2 - time g0 <? a_attackCooldown a1)%num = true ->
      performAttack random a1 g2 targets2 baseDamage2 = (false, a1, g2)).
Proof.
  split.
  - intros. apply performAttack_rejected. assumption.
  - intros a0 a1 g0 g1 g2 ts1 ts2 b1 b2 H1 H2.
    apply performAttack_rejected.
    rewrite (performAttack_true_inv _ _ _ _ _ _ H1). exact H2.
Qed.

(** C4. An attack that goes through sets the attacker's [lastAttackTime] to
    the game time by one assignment after the loop over the targets: the
    attacker it returns is the same whatever the targets and however many of
    them are hit, and the loop leaves the clock alone. *)
Theorem performAttack_single_cooldown_charge :
  forall (a : Animal) (g : Game) (targets : list TargetRef) (baseDamage : num),
    (time g - a_lastAttackTime a <? a_attackCooldown a)%num = false ->
    exists g' : Game,
      performAttack random a g targets baseDamage
      = (true,
         a_set_attackTimer (time g) (if a_isEnraged a then Fin 0.7 else Fin 1) a,
         g')
      /\ a_lastAttackTime (snd (fst (performAttack random a g targets baseDamage)))
         = time g
      /\ snd (fst (performAttack random a g targets baseDamage))
         = snd (fst (performAttack random a g [] baseDamage))
      /\ time g' = time g.
Proof.
  intros a g targets baseDamage H.
  exists (fold_left (hit random baseDamage) targets g).
  rewrite !performAttack_accepted by assumption.
  repeat split; try reflexivity. apply hits_time.
Qed.

End CombatProperties.

(** ** End of battle *)

Lemma forallb_dead (fs : list Unit) :
  Forall (fun f => state f = Dead) fs ->
  forallb (fun fighter => bool_decide (state fighter = Dead)) fs = true.
Proof.
  induction 1 as [|f fs Hf _ IH]; [reflexivity|].
  cbn [forallb]. rewrite IH, bool_decide_eq_true_2 by assumption. reflexivity.
Qed.

(** C6, as the code has it.  While the animal stands: a roster that is not
    empty and whose fighters are all dead ends the battle as a defeat, whether
    or not the commander is alive; an empty roster ends nothing as long as the
    commander is alive. *)
Theorem checkBattleEnd_loss_boundary :
  forall (g : Game) (a : Animal),
    animal g = Some a ->
    (a_health a <=? Fin 0)%num = false ->
    (fighters g <> [] -> Forall (fun f => state f = Dead) (fighters g) ->
     exists g' : Game,
       checkBattleEnd g = Ok g' /\ phase g' = Result
       /\ uiMessages g' = "DEFEAT" :: uiMessages g)
    /\ (fighters g = [] -> commanderAlive g -> checkBattleEnd g = Ok g).
Proof.
  intros g a Ha Hh. split.
  - intros Hne Hdead. unfold checkBattleEnd, animalDefeated.
    rewrite Ha, Hh, (forallb_dead _ Hdead).
    destruct (fighters g) as [|f fs] eqn:E; [contradiction|].
    cbn [length Nat.ltb Nat.leb andb orb]. unfold endBattle. rewrite Ha.
    eexists. split; [reflexivity|]. split; reflexivity.
  - intros Hnil Hc. unfold checkBattleEnd, animalDefeated.
    rewrite Ha, Hh, Hnil. cbn [length forallb Nat.ltb Nat.leb andb orb].
    unfold commanderAlive in Hc. destruct (commander g) as [c|].
    + rewrite Hc. reflexivity.
    + reflexivity.
Qed.

(** ** Rage *)

Lemma enrage_then_calm (x y : num) (k : Q) :
  ~ k == 0 -> num_eq x (y * Fin k)%num -> num_eq (x / Fin k)%num y.
Proof.
  intros Hk H. eapply num_eq_trans.
  - apply ndiv_compat. exact H.
  - apply nmul_ndiv_cancel. exact Hk.
Qed.

Lemma updateRageState_stats (a a' : Animal) (delta : num) :
  rage_stats a a' -> rage_stats a (updateRageState a' delta).
Proof.
  unfold rage_stats, updateRageState. intros H.
  cbn [a_isEnraged a_recentDamage a_maxHealth a_attackPower a_moveSpeed
       a_chargeSpeed a_type a_set_recentDamage].
  destruct (a_isEnraged a') eqn:E; cbn [negb andb].
  - destruct (_ <? _)%num; cbn [a_isEnraged a_attackPower a_moveSpeed
                                 a_chargeSpeed a_set_recentDamage a_set_rage].
    + destruct H as (H1 & H2 & H3).
      repeat split; apply enrage_then_calm; try assumption; discriminate.
    + rewrite E. exact H.
  - destruct (_ >? _)%num; cbn [a_isEnraged a_attackPower a_moveSpeed
                                 a_chargeSpeed a_set_recentDamage a_set_rage].
    + destruct H as (H1 & H2 & H3).
      repeat split; apply nmul_compat; assumption.
    + rewrite E. exact H.
Qed.

Lemma rage_step_stats (a a' : Animal) (g : Game) (e : RageEvent) :
  animal g = Some a' -> rage_stats a a' ->
  exists a'', animal (rage_step g e) = Some a'' /\ rage_stats a a''.
Proof.
  intros Hg H. destruct e as [amount|delta]; cbn [rage_step].
  - unfold recordDamageToAnimal. rewrite Hg. eexists. split; [reflexivity|].
    exact H.
  - rewrite Hg. eexists. split; [reflexivity|].
    apply updateRageState_stats. exact H.
Qed.

Lemma rage_run_stats (a : Animal) (events : list RageEvent) :
  forall (g : Game) (a' : Animal),
    animal g = Some a' -> rage_stats a a' ->
    exists a'', animal (fold_left rage_step events g) = Some a''
                /\ rage_stats a a''.
Proof.
  induction events as [|e events IH]; intros g a' Hg H.
  - exists a'. split; assumption.
  - cbn [fold_left].
    destruct (rage_step_stats a a' g e Hg H) as (a'' & Hg' & H').
    exact (IH _ _ Hg' H').
Qed.

(** C2. Start from a calm animal and let any sequence of reported hits and
    rage updates go by, with any number of enrage / calm-down cycles in it.
    Whenever the animal is enraged its attackPower, moveSpeed and chargeSpeed
    are the calm values multiplied once by 1.3, 1.2 and 1.2; whenever it is
    calm again they are the calm values themselves.  (Over exact rationals the
    tolerance is zero.) *)
Theorem enrage_symmetry :
  forall (g : Game) (a : Animal) (events : list RageEvent),
    animal g = Some a ->
    a_isEnraged a = false ->
    exists a' : Animal,
      animal (fold_left rage_step events g) = Some a'
      /\ (a_isEnraged a' = true ->
          num_eq (a_attackPower a') (a_attackPower a * Fin 1.3)%num
          /\ num_eq (a_moveSpeed a') (a_moveSpeed a * Fin 1.2)%num
          /\ num_eq (a_chargeSpeed a') (a_chargeSpeed a * Fin 1.2)%num)
      /\ (a_isEnraged a' = false ->
          num_eq (a_attackPower a') (a_attackPower a)
          /\ num_eq (a_moveSpeed a') (a_moveSpeed a)
          /\ num_eq (a_chargeSpeed a') (a_chargeSpeed a)).
Proof.
  intros g a events Hg Hcalm.
  destruct (rage_run_stats a events g a Hg) as (a' & Hg' & H).
  { unfold rage_stats. rewrite Hcalm. repeat split; apply num_eq_refl. }
  exists a'. split; [exact Hg'|]. unfold rage_stats in H.
  split; intros E; rewrite E in H; exact H.
Qed.

(** ** Fighter engine *)

Section FighterProperties.
Context {M : MathLib}.

Lemma same_body_trans (u v w : Unit) :
  same_body u v -> same_body v w -> same_body u w.
Proof.
  unfold same_body. intros (?&?&?&?&?) (?&?&?&?&?).
  repeat split; etransitivity; eassumption.
Qed.

Ltac break_ifs :=
  repeat match goal with
         | |- context [if ?c then _ else _] => destruct c
         | |- context [match ?x with Some _ => _ | None => _ end] => destruct x
         end.

Lemma applyFormationForce_body (i : nat) (f : Unit) (g : Game) :
  same_body (applyFormationForce i f g) f.
Proof. repeat split. Qed.

Lemma applyTargetingForce_body (f : Unit) (g : Game) :
  same_body (applyTargetingForce f g) f.
Proof. unfold applyTargetingForce. break_ifs; repeat split. Qed.

Lemma applyAvoidanceForce_body (i : nat) (f : Unit) (g : Game) :
  same_body (applyAvoidanceForce i f g) f.
Proof. repeat split. Qed.

Lemma steering_body (i : nat) (f : Unit) (g : Game) :
  same_body
    (applyAvoidanceForce i
       (applyTargetingForce
          (applyFormationForce i (set_forceAccumulator vzero f) g) g) g) f.
Proof.
  eapply same_body_trans; [apply applyAvoidanceForce_body|].
  eapply same_body_trans; [apply applyTargetingForce_body|].
  eapply same_body_trans; [apply applyFormationForce_body|].
  repeat split.
Qed.

Lemma same_frame_refl (g : Game) : same_frame g g.
Proof. repeat split. Qed.

Lemma same_frame_trans (g1 g2 g3 : Game) :
  same_frame g1 g2 -> same_frame g2 g3 -> same_frame g1 g3.
Proof.
  unfold same_frame. intros (?&?&?&?&?&?) (?&?&?&?&?&?).
  repeat split; etransitivity; eassumption.
Qed.

Lemma applyCommanderInfluence_spec (f : Unit) (g : Game) :
  let r := applyCommanderInfluence f g in
  position (fst r) = position f /\ health (fst r) = health f
  /\ maxHealth (fst r) = maxHealth f
  /\ lastAttackTime (fst r) = lastAttackTime f
  /\ (commander g <> None -> commanderInfluence f = true ->
      commanderInfluence (fst r) = false)
  /\ (commanderInfluence f = false -> commanderInfluence (fst r) = false)
  /\ animal (snd r) = animal g /\ fighters (snd r) = fighters g
  /\ same_frame (snd r) g.
Proof.
  unfold applyCommanderInfluence. cbv zeta.
  destruct (commander g) as [c|] eqn:Hc;
    [|cbn [fst snd]; repeat split; intros; congruence].
  destruct (commanderInfluence f) eqn:Hf; cbn [orb].
  - break_ifs; cbn [fst snd]; repeat split; intros; try congruence;
      try assumption.
  - break_ifs; cbn [fst snd]; repeat split; intros; try congruence;
      try assumption.
Qed.

Lemma handleFighterAttacks_spec (f : Unit) (g : Game) :
  let r := handleFighterAttacks f g in
  state (fst r) = state f /\ forceAccumulator (fst r) = forceAccumulator f
  /\ health (fst r) = health f
  /\ commanderInfluence (fst r) = commanderInfluence f
  /\ fighters (snd r) = fighters g /\ same_frame (snd r) g
  /\ (animal g = None -> animal (snd r) = None)
  /\ (forall a, animal g = Some a ->
      animal (snd r) = Some a
      \/ animal (snd r)
         = Some (a_set_health
                   (a_health a
                    - (if commanderInfluence f then Fin 1 * Fin 1.5 else Fin 1))%num a)).
Proof.
  unfold handleFighterAttacks. cbv zeta.
  destruct (animal g) as [a|] eqn:Ha.
  - destruct (decide (state f <> Attacking)); [|destruct (_ && _)];
      cbn [fst snd]; repeat split; intros; cbn; rewrite ?Ha;
      try reflexivity; try congruence;
      try (left; congruence); try (right; congruence).
  - cbn [fst snd]. repeat split; intros; cbn; rewrite ?Ha; congruence.
Qed.

Lemma applyFleeingForce_spec (f : Unit) (g : Game) :
  let f' := applyFleeingForce f g in
  health f' = health f /\ commanderInfluence f' = commanderInfluence f
  /\ position f' = position f /\ lastAttackTime f' = lastAttackTime f
  /\ (forall a, animal g = Some a ->
      state f' = Fleeing
      /\ forceAccumulator f'
         = vscale (vnormalize (vsub (position f) (a_position a)))
             (fleeWhenInjured (weights (fighterAI g)) * Fin 2)%num).
Proof.
  unfold applyFleeingForce. destruct (animal g) as [a|]; cbv zeta.
  - repeat split; try reflexivity; injection H as <-; reflexivity.
  - repeat split; discriminate.
Qed.

Lemma steering_alive (i : nat) (f : Unit) (g : Game) :
  state f <> Dead ->
  state
    (applyAvoidanceForce i
       (applyTargetingForce
          (applyFormationForce i (set_forceAccumulator vzero f) g) g) g)
  <> Dead.
Proof.
  intros H. unfold applyAvoidanceForce, applyTargetingForce, applyFormationForce.
  cbv zeta. destruct (animal g); [destruct (_ <=? _)%num|]; cbn; congruence.
Qed.

Lemma applyCommanderInfluence_state (f : Unit) (g : Game) :
  state (fst (applyCommanderInfluence f g)) = state f.
Proof.
  unfold applyCommanderInfluence. cbv zeta.
  destruct (commander g); [|reflexivity].
  destruct (_ || _); [|reflexivity]. cbn [fst].
  destruct (_ >? _)%num; reflexivity.
Qed.

Lemma applyFleeingForce_alive (f : Unit) (g : Game) :
  state f <> Dead -> state (applyFleeingForce f g) <> Dead.
Proof.
  intros H. unfold applyFleeingForce. destruct (animal g); cbn; congruence.
Qed.

(** The update of one living fighter, summed up: only its own place in the
    roster is rewritten; its influence flag does not survive the update when
    there is a commander; the animal loses at most the damage of one hit; a
    badly hurt fighter ends up fleeing, with the flee force alone. *)
Lemma updateLoopBody_live (delta : num) (g : Game) (i : nat) (f : Unit) :
  fighters g !! i = Some f -> state f <> Dead ->
  exists (f' : Unit) (g' : Game),
    updateLoopBody delta g i = g_set_fighters (<[i := f']> (fighters g)) g'
    /\ same_frame g' g
    /\ health f' = health f
    /\ (commander g <> None \/ commanderInfluence f = false ->
        commanderInfluence f' = false
        /\ forall a, animal g = Some a ->
             animal g' = Some a
             \/ animal g' = Some (a_set_health (a_health a - Fin 1)%num a))
    /\ (animal g = None -> animal g' = None)
    /\ (forall a, animal g = Some a ->
        exists a', animal g' = Some a' /\ a_position a' = a_position a)
    /\ (forall a, animal g = Some a ->
        (health f <? maxHealth f * Fin 0.2)%num = true ->
        state f' = Fleeing
        /\ forceAccumulator f'
           = vscale (vnormalize (vsub (position f) (a_position a)))
               (fleeWhenInjured (weights (fighterAI g)) * Fin 2)%num)
    /\ state f' <> Dead.
Proof.
  intros Hf Hlive. unfold updateLoopBody. rewrite Hf.
  destruct (decide (state f = Dead)) as [|_]; [contradiction|]. cbv zeta.
  pose proof (steering_alive i f g Hlive) as Hs1.
  set (f1 := applyAvoidanceForce i _ g) in *.
  destruct (steering_body i f g) as (Hp1 & Hh1 & Hm1 & Hc1 & Hl1).
  fold f1 in Hp1, Hh1, Hm1, Hc1, Hl1.
  pose proof (applyCommanderInfluence_state f1 g) as Hs2.
  pose proof (applyCommanderInfluence_spec f1 g) as H2.
  destruct (applyCommanderInfluence f1 g) as [f2 g2]. cbn [fst snd] in H2, Hs2.
  destruct H2 as (Hp2 & Hh2 & Hm2 & Hl2 & Hc2 & Hc2' & Ha2 & Hfs2 & Hfr2).
  set (f3 := if (health f2 <? maxHealth f2 * Fin 0.2)%num
             then applyFleeingForce f2 g2 else f2).
  pose proof (applyFleeingForce_spec f2 g2) as H3. cbv zeta in H3.
  destruct H3 as (Hh3 & Hc3 & Hp3 & Hl3 & Hflee).
  assert (Hf3 : health f3 = health f2 /\ commanderInfluence f3 = commanderInfluence f2).
  { subst f3. destruct (_ <? _)%num; auto. }
  destruct Hf3 as (Hh3' & Hc3').
  assert (Hs3 : state f3 <> Dead).
  { subst f3. destruct (_ <? _)%num; [apply applyFleeingForce_alive|];
      congruence. }
  set (f4 := set_motion _ _ _ f3).
  pose proof (handleFighterAttacks_spec f4 g2) as H5.
  destruct (handleFighterAttacks f4 g2) as [f5 g5]. cbn [fst snd] in H5.
  destruct H5 as (Hs5 & Hfa5 & Hh5 & Hc5 & Hfs5 & Hfr5 & Hn5 & Ha5).
  exists f5, g5. rewrite Hfs5, Hfs2.
  split; [reflexivity|].
  split; [eapply same_frame_trans; eassumption|].
  split; [rewrite Hh5; subst f4; cbn [health set_motion]; congruence|].
  assert (Hflag : commanderInfluence f4 = commanderInfluence f2).
  { subst f4. cbn [commanderInfluence set_motion]. exact Hc3'. }
  split; [|split; [|split; [|split]]].
  - intros Hcmd.
    assert (Hoff : commanderInfluence f2 = false).
    { destruct (commanderInfluence f1) eqn:E1.
      - destruct Hcmd as [Hcmd|Hcmd]; [auto|congruence].
      - auto. }
    split; [congruence|].
    intros a Ha. rewrite Ha2 in Ha5. specialize (Ha5 a Ha).
    rewrite Hflag, Hoff in Ha5. exact Ha5.
  - intros Ha. apply Hn5. congruence.
  - intros a Ha. rewrite Ha2 in Ha5. destruct (Ha5 a Ha) as [E|E];
      rewrite E; eexists; split; reflexivity.
  - intros a Ha Hlow.
    assert (E3 : f3 = applyFleeingForce f2 g2).
    { subst f3. rewrite Hh2, Hm2, Hh1, Hm1, Hlow. reflexivity. }
    rewrite Ha2 in Hflee. destruct (Hflee a Ha) as (Hst & Hforce).
    rewrite Hs5, Hfa5. subst f4. cbn [state forceAccumulator set_motion].
    rewrite E3, Hst, Hforce, Hp2, Hp1.
    destruct Hfr2 as (_ & _ & _ & Hw & _). rewrite Hw. split; reflexivity.
  - rewrite Hs5. subst f4. cbn [state set_motion]. exact Hs3.
Qed.

Lemma same_frame_set_fighters (fs : list Unit) (g' g : Game) :
  same_frame g' g -> same_frame (g_set_fighters fs g') g.
Proof. intros H. exact H. Qed.

Lemma updateLoopBody_frame (delta : num) (g : Game) (j : nat) :
  same_frame (updateLoopBody delta g j) g
  /\ length (fighters (updateLoopBody delta g j)) = length (fighters g)
  /\ (forall i, i <> j ->
      fighters (updateLoopBody delta g j) !! i = fighters g !! i).
Proof.
  destruct (fighters g !! j) as [f|] eqn:Hf.
  - destruct (decide (state f = Dead)) as [Hd|Hd].
    + unfold updateLoopBody. rewrite Hf.
      destruct (decide (state f = Dead)); [|contradiction].
      split; [apply same_frame_refl|]. split; reflexivity.
    + destruct (updateLoopBody_live delta g j f Hf Hd) as (f' & g' & E & Hfr & _).
      rewrite E. split; [apply same_frame_set_fighters; exact Hfr|].
      cbn [fighters g_set_fighters]. split.
      * apply length_insert.
      * intros i Hi. apply list_lookup_insert_ne. congruence.
  - unfold updateLoopBody. rewrite Hf.
    split; [apply same_frame_refl|]. split; reflexivity.
Qed.

Lemma updateLoop_frame (delta : num) (l : list nat) (g : Game) :
  same_frame (fold_left (updateLoopBody delta) l g) g
  /\ length (fighters (fold_left (updateLoopBody delta) l g)) = length (fighters g)
  /\ (forall i, i ∉ l ->
      fighters (fold_left (updateLoopBody delta) l g) !! i = fighters g !! i).
Proof.
  revert g. induction l as [|j l IH]; intros g.
  - split; [apply same_frame_refl|]. split; reflexivity.
  - cbn [fold_left].
    destruct (IH (updateLoopBody delta g j)) as (H1 & H2 & H3).
    destruct (updateLoopBody_frame delta g j) as (K1 & K2 & K3).
    split; [eapply same_frame_trans; eassumption|].
    split; [congruence|].
    intros i Hi. apply not_elem_of_cons in Hi as (Hij & Hil).
    etransitivity; [apply H3; exact Hil | apply K3; exact Hij].
Qed.

Lemma updateFormationCenter_frame (g : Game) :
  same_frame (updateFormationCenter g) g
  /\ fighters (updateFormationCenter g) = fighters g
  /\ animal (updateFormationCenter g) = animal g.
Proof.
  unfold updateFormationCenter. destruct (commander g); repeat split.
Qed.

Lemma seq_split (n i : nat) :
  (i < n)%nat -> seq 0 n = seq 0 i ++ i :: seq (S i) (n - S i).
Proof.
  intros Hi. replace n with (i + S (n - S i))%nat at 1 by lia.
  rewrite seq_app. reflexivity.
Qed.

(** With a commander on the field, the update of one fighter takes nothing
    or exactly 1 from the animal. *)
Lemma updateLoopBody_damage (delta : num) (g : Game) (j : nat) (a : Animal) :
  commander g <> None -> animal g = Some a ->
  exists a' : Animal,
    animal (updateLoopBody delta g j) = Some a'
    /\ (a_health a' = a_health a \/ a_health a' = (a_health a - Fin 1)%num).
Proof.
  intros Hc Ha. destruct (fighters g !! j) as [f|] eqn:Hf.
  - destruct (decide (state f = Dead)) as [Hd|Hd].
    + unfold updateLoopBody. rewrite Hf.
      destruct (decide (state f = Dead)); [|contradiction].
      exists a. split; [exact Ha|left; reflexivity].
    + destruct (updateLoopBody_live delta g j f Hf Hd)
        as (f' & g' & E & _ & _ & Hinf & _).
      destruct Hinf as (_ & Hdmg); [left; exact Hc|].
      rewrite E. cbn [animal g_set_fighters].
      destruct (Hdmg a Ha) as [Ea|Ea]; rewrite Ea; eexists;
        (split; [reflexivity|]); [left|right]; reflexivity.
  - unfold updateLoopBody. rewrite Hf.
    exists a. split; [exact Ha|left; reflexivity].
Qed.

Lemma updateLoop_damage (delta : num) (l : list nat) (g : Game) (a : Animal) :
  commander g <> None -> animal g = Some a ->
  exists (a' : Animal) (k : nat),
    animal (fold_left (updateLoopBody delta) l g) = Some a'
    /\ a_health a' = Nat.iter k (fun h => (h - Fin 1)%num) (a_health a)
    /\ (k <= length l)%nat.
Proof.
  revert g a. induction l as [|j l IH]; intros g a Hc Ha.
  - exists a, 0%nat. split; [exact Ha|]. split; [reflexivity|]. cbn. lia.
  - cbn [fold_left].
    destruct (updateLoopBody_damage delta g j a Hc Ha) as (a1 & Ha1 & Hh1).
    destruct (updateLoopBody_frame delta g j) as ((_ & Hc1 & _) & _).
    destruct (IH (updateLoopBody delta g j) a1) as (a' & k & Ha' & Hh' & Hk);
      [congruence|exact Ha1|].
    destruct Hh1 as [E|E].
    + exists a', k. split; [exact Ha'|]. split; [congruence|]. cbn. lia.
    + exists a', (S k). split; [exact Ha'|]. split; [|cbn; lia].
      rewrite Hh', E, Nat.iter_succ_r. reflexivity.
Qed.

(** C9. The influence flag of a living fighter is cleared by
    [applyCommanderInfluence] before [handleFighterAttacks] reads it.  In a
    battle tick with a commander on the field, a living fighter whose flag
    was set when the tick began comes out of the fighter update with the flag
    cleared, and every hit of that update, this fighter's included, has taken
    exactly the base damage 1 from the animal -- never 1.5: the animal's
    health has gone down by 1, [k] times over, for some number [k] of hits. *)
Theorem influenced_fighter_deals_base_damage :
  forall (delta : num) (g : Game) (i : nat) (f c : Unit) (a : Animal),
    phase g = Battle ->
    fighters g !! i = Some f ->
    state f <> Dead ->
    commanderInfluence f = true ->
    commander g = Some c ->
    animal g = Some a ->
    exists (f' : Unit) (a' : Animal) (k : nat),
      fighters (FighterAI_update delta g) !! i = Some f'
      /\ commanderInfluence f' = false
      /\ animal (FighterAI_update delta g) = Some a'
      /\ a_health a' = Nat.iter k (fun h => (h - Fin 1)%num) (a_health a)
      /\ (k <= length (fighters g))%nat.
Proof.
  intros delta g i f c a Hphase Hf Hlive Hflag Hc Ha.
  unfold FighterAI_update.
  destruct (decide (phase g <> Battle)) as [|_]; [contradiction|]. cbv zeta.
  destruct (updateFormationCenter_frame g) as ((_ & Hc0 & _) & Hfs0 & Ha0).
  set (g0 := updateFormationCenter g) in *.
  assert (Hi : (i < length (fighters g0))%nat).
  { rewrite Hfs0. eapply lookup_lt_Some. exact Hf. }
  destruct (updateLoop_damage delta (seq 0 (length (fighters g0))) g0 a)
    as (a' & k & Ha' & Hh' & Hk); [congruence|congruence|].
  rewrite length_seq, Hfs0 in Hk.
  revert Ha'. rewrite (seq_split _ _ Hi), fold_left_app. cbn [fold_left].
  destruct (updateLoop_frame delta (seq 0 i) g0) as (Hfr1 & _ & Hkeep1).
  set (g1 := fold_left (updateLoopBody delta) (seq 0 i) g0) in *.
  assert (Hf1 : fighters g1 !! i = Some f).
  { rewrite Hkeep1, Hfs0; [exact Hf|]. rewrite elem_of_seq. lia. }
  destruct Hfr1 as (_ & Hc1 & _).
  destruct (updateLoopBody_live delta g1 i f Hf1 Hlive)
    as (f' & g2 & E & _ & _ & Hinf & _).
  destruct Hinf as (Hoff & _); [left; congruence|].
  destruct (updateLoop_frame delta (seq (S i) (length (fighters g0) - S i))
              (updateLoopBody delta g1 i)) as (_ & _ & Hkeep2).
  intros Ha'. exists f', a', k.
  rewrite Hkeep2 by (rewrite elem_of_seq; lia).
  split; [|split; [exact Hoff|split; [exact Ha'|split; [exact Hh'|exact Hk]]]].
  rewrite E. cbn [fighters g_set_fighters].
  apply list_lookup_insert_eq. eapply lookup_lt_Some. exact Hf1.
Qed.

Lemma vnormalize_direction (d : Vec3) (w : Q) :
  (forall q : Q, 0 <= Msqrt q) ->
  vfinite d = true -> 0 < w ->
  exists k : Q,
    0 < k /\ vec_eq (vscale (vnormalize d) (Fin w)) (vscale d (Fin k)).
Proof.
  intros Hsqrt Hd Hw. destruct d as [[x|] [y|] [z|]]; try discriminate.
  unfold vnormalize, vlength, vlengthSq, vdot, nsqrt.
  cbn [vx vy vz nmul nadd num2].
  assert (Hsq : Qltb (x * x + y * y + z * z) 0 = false).
  { apply Qltb_ge. nra. }
  rewrite Hsq. set (s := Msqrt (x * x + y * y + z * z)).
  assert (Hs : 0 <= s) by apply Hsqrt.
  unfold nor. destruct (Qeq_bool s 0) eqn:Es.
  - exists w. split; [exact Hw|].
    unfold vscale, vec_eq. cbn [vx vy vz].
    rewrite !ndiv_Fin by reflexivity. cbn [nmul num2 num_eq].
    repeat split; field.
  - assert (Hne : ~ s == 0) by (apply Qeq_bool_false; exact Es).
    assert (Hpos : 0 < s).
    { destruct (Qlt_le_dec 0 s) as [|Hle]; [assumption|].
      exfalso. apply Hne. apply Qle_antisym; assumption. }
    exists (w / s). split; [apply Qlt_shift_div_l; [exact Hpos|lra]|].
    unfold vscale, vec_eq. cbn [vx vy vz].
    rewrite !ndiv_Fin by exact Es. cbn [nmul num2 num_eq].
    repeat split; field; exact Hne.
Qed.

(** C8.  In a battle tick with the animal on the field, a fighter that the
    tick processes (one that is not dead) and whose health is below 20% of
    its maxHealth comes out of the fighter update with state ['fleeing'] and,
    as its whole force accumulator, the unit vector from the animal's
    position to its own (as they were when the tick began) scaled by twice
    the flee weight; nothing of the formation, target, separation or
    commander forces is left in it.  With finite positions and a positive
    flee weight (the constructor's is 0.7) this is a positive multiple of
    (fighter position - animal position): it points directly away from the
    animal.  ([Math.sqrt] is only asked not to return a negative number.)
    The formation is one of the four that the engine defines: for a name
    that [setFormation] took from [Object.prototype] the code can throw
    before the override is reached (see [getFormationPosition]). *)
Theorem injured_fighter_flees :
  forall (delta : num) (g : Game) (i : nat) (f : Unit) (a : Animal),
    phase g = Battle ->
    is_Some (formations !! currentFormation (fighterAI g)) ->
    animal g = Some a ->
    fighters g !! i = Some f ->
    state f <> Dead ->
    (health f <? maxHealth f * Fin 0.2)%num = true ->
    exists f' : Unit,
      fighters (FighterAI_update delta g) !! i = Some f'
      /\ state f' = Fleeing
      /\ forceAccumulator f'
         = vscale (vnormalize (vsub (position f) (a_position a)))
             (fleeWhenInjured (weights (fighterAI g)) * Fin 2)%num
      /\ forall w : Q,
           fleeWhenInjured (weights (fighterAI g)) = Fin w -> 0 < w ->
           (forall q : Q, 0 <= Msqrt q) ->
           vfinite (position f) = true -> vfinite (a_position a) = true ->
           exists k : Q,
             0 < k
             /\ vec_eq (forceAccumulator f')
                  (vscale (vsub (position f) (a_position a)) (Fin k)).
Proof.
  intros delta g i f a Hphase _ Ha Hf Hlive Hlow.
  unfold FighterAI_update.
  destruct (decide (phase g <> Battle)) as [|_]; [contradiction|]. cbv zeta.
  destruct (updateFormationCenter_frame g) as (Hfr0 & Hfs0 & Ha0).
  set (g0 := updateFormationCenter g) in *.
  assert (Hi : (i < length (fighters g0))%nat).
  { rewrite Hfs0. eapply lookup_lt_Some. exact Hf. }
  rewrite (seq_split _ _ Hi), fold_left_app. cbn [fold_left].
  destruct (updateLoop_frame delta (seq 0 i) g0) as (Hfr1 & Hlen1 & Hkeep1).
  set (g1 := fold_left (updateLoopBody delta) (seq 0 i) g0) in *.
  assert (Hf1 : fighters g1 !! i = Some f).
  { rewrite Hkeep1, Hfs0; [exact Hf|]. rewrite elem_of_seq. lia. }
  assert (Hfr : same_frame g1 g) by (eapply same_frame_trans; eassumption).
  destruct Hfr as (_ & _ & _ & Hw1 & _ & Hpos1).
  rewrite Ha in Hpos1. destruct (animal g1) as [a1|] eqn:Ha1; [|discriminate].
  injection Hpos1 as Hpos1.
  destruct (updateLoopBody_live delta g1 i f Hf1 Hlive)
    as (f' & g2 & E & _ & _ & _ & _ & _ & Hflee & _).
  destruct (Hflee a1 Ha1 Hlow) as (Hst & Hforce).
  destruct (updateLoop_frame delta (seq (S i) (length (fighters g0) - S i))
              (updateLoopBody delta g1 i)) as (_ & _ & Hkeep2).
  exists f'. rewrite Hkeep2 by (rewrite elem_of_seq; lia).
  rewrite E. cbn [fighters g_set_fighters].
  rewrite Hw1, Hpos1 in Hforce.
  split; [apply list_lookup_insert_eq; eapply lookup_lt_Some; exact Hf1|].
  split; [exact Hst|]. split; [exact Hforce|].
  intros w Hw Hw0 Hsqrt Hpf Hpa.
  rewrite Hforce, Hw. cbn [nmul num2].
  apply vnormalize_direction; [exact Hsqrt| |lra].
  destruct (position f) as [[?|] [?|] [?|]]; try discriminate.
  destruct (a_position a) as [[?|] [?|] [?|]]; try discriminate.
  reflexivity.
Qed.

End FighterProperties.

(** ** Cone attacks *)

Section ConeProperties.
Context {M : MathLib}.
Variable random : nat -> Q.

Lemma Math_clamp_throws (x lo hi : num) : Math_clamp x lo hi = Throw clamp_error.
Proof. reflexivity. Qed.

(** The loop over the roster stops with the error at the first living
    fighter within reach. *)
Lemma cone_loop_throws (a : Animal) (radius angle : num)
    (step := fun (results : list TargetRef) (entry : nat * Unit) =>
       let (i, fighter) := entry in
       if decide (state fighter = Dead) then Ok results
       else
         let toFighter := vsub (position fighter) (a_position a) in
         let distance := vlength toFighter in
         if (distance >? radius)%num then Ok results
         else
           let toFighter := vnormalize toFighter in
           let dotProduct :=
             vdot toFighter
               (applyAxisAngleY (mkVec (Fin 0) (Fin 0) (Fin (-1))) (a_rotation a)) in
           do clamped <- Math_clamp dotProduct (Fin (-1)) (Fin 1);
           let angleToFighter := nacos clamped in
           if (angleToFighter <=? angle / Fin 2)%num
           then Ok (results ++ [RFighter i])
           else Ok results)
    (entries : list (nat * Unit)) (i : nat) (f : Unit) :
  (i, f) ∈ entries ->
  state f <> Dead ->
  (vlength (vsub (position f) (a_position a)) >? radius)%num = false ->
  forall acc, foldM step entries acc = Throw clamp_error.
Proof.
  intros Hin Hlive Hnear.
  induction entries as [|[j u] entries IH]; intros acc.
  - inversion Hin.
  - cbn [foldM]. apply elem_of_cons in Hin as [Heq|Hin].
    + injection Heq as <- <-. subst step. cbv beta iota zeta.
      destruct (decide (state f = Dead)); [contradiction|].
      rewrite Hnear. reflexivity.
    + specialize (IH Hin). subst step. cbv beta iota zeta.
      destruct (decide (state u = Dead)); [apply IH|].
      destruct (vlength (vsub (position u) (a_position a)) >? radius)%num;
        [apply IH|]. reflexivity.
Qed.

Lemma getFightersInCone_throws (a : Animal) (g : Game) (radius angle : num)
    (i : nat) (f : Unit) :
  fighters g !! i = Some f ->
  state f <> Dead ->
  (vlength (vsub (position f) (a_position a)) >? radius)%num = false ->
  getFightersInCone a g radius angle = Throw clamp_error.
Proof.
  intros Hf Hlive Hnear. unfold getFightersInCone. cbv zeta.
  rewrite (cone_loop_throws a radius angle (imap pair (fighters g)) i f);
    [reflexivity| |assumption|assumption].
  apply elem_of_lookup_imap. exists i, f. split; [reflexivity|exact Hf].
Qed.

(** C7. A cone behaviour run with a target while a living fighter stands
    within the cone's radius (1.5 times the attack range) does not complete:
    [getFightersInCone] calls [Math.clamp], which [Math] does not have, and the
    [TypeError] leaves [executeSwipeBehavior] uncaught. *)
Theorem executeSwipeBehavior_throws :
  forall (a : Animal) (g : Game) (delta : num) (r : TargetRef) (target : Unit)
         (i : nat) (f : Unit),
    a_target a = Some r ->
    deref g r = Some target ->
    fighters g !! i = Some f ->
    state f <> Dead ->
    (vlength (vsub (position f) (a_position a)) >? a_attackRange a * Fin 1.5)%num
    = false ->
    executeSwipeBehavior random a g delta = Throw clamp_error.
Proof.
  intros a g delta r target i f Ht Hr Hf Hlive Hnear.
  unfold executeSwipeBehavior. rewrite Ht, Hr. cbv zeta.
  rewrite (getFightersInCone_throws _ g _ _ i f Hf Hlive); [reflexivity|].
  exact Hnear.
Qed.

End ConeProperties.

(** ** Health and death of fighters and commander *)

Section HealthProperties.
Context {M : MathLib}.
Variable random : nat -> Q.

Lemma ok_step_refl (u : Unit) : ok_step u u.
Proof. split; auto. Qed.

Lemma ok_step_trans (u v w : Unit) : ok_step u v -> ok_step v w -> ok_step u w.
Proof. intros [H1 H2] [K1 K2]. split; auto. Qed.

Lemma ok_step_keeps (u u' : Unit) :
  health u' = health u -> (state u' = Dead <-> state u = Dead) -> ok_step u u'.
Proof.
  intros Hh Hs. split.
  - unfold vital. rewrite Hh, Hs. auto.
  - apply Hs.
Qed.

Lemma Forall2_ok_refl (l : list Unit) : Forall2 ok_step l l.
Proof. induction l; constructor; [apply ok_step_refl|assumption]. Qed.

Lemma option_ok_refl (o : option Unit) : option_Forall2 ok_step o o.
Proof. destruct o; constructor. apply ok_step_refl. Qed.

Lemma sound_refl (g : Game) : sound g g.
Proof. split; [apply Forall2_ok_refl|apply option_ok_refl]. Qed.

Lemma sound_trans (g1 g2 g3 : Game) : sound g1 g2 -> sound g2 g3 -> sound g1 g3.
Proof.
  intros [H1 H2] [K1 K2]. split.
  - eapply Forall2_trans; [|exact H1|exact K1].
    intros x y z. apply ok_step_trans.
  - destruct H2; inversion K2; subst; constructor.
    eapply ok_step_trans; eassumption.
Qed.

Lemma sound_units_ok (g g' : Game) :
  sound g g' -> units_ok g -> units_ok g' /\ stays_dead g g'.
Proof.
  intros [H1 H2] [K1 K2]. split; [split|split].
  - clear H2 K2. induction H1 as [|u u' l l' Hu _ IH]; [constructor|].
    inversion K1; subst. constructor; [apply Hu; assumption|apply IH; assumption].
  - intros c' Hc'. rewrite Hc' in H2.
    destruct (commander g) as [c|]; inversion H2 as [? ? Hok|]; subst.
    apply Hok. apply K2. reflexivity.
  - intros i u Hu Hd.
    destruct (Forall2_lookup_l _ _ _ _ _ H1 Hu) as (u' & Hu' & Hs).
    exists u'. split; [exact Hu'|apply Hs; exact Hd].
  - intros c Hc Hd. rewrite Hc in H2.
    destruct (commander g') as [c'|]; inversion H2 as [? ? Hok|]; subst.
    exists c'. split; [reflexivity|apply Hok; exact Hd].
Qed.

(** The damage branch of [performAttack] on one living target. *)
Lemma struck_ok (u : Unit) (damage : num) (gray : bool) :
  state u <> Dead ->
  let u1 := set_health (health u - damage)%num u in
  let u2 := set_state Dead (set_health (Fin 0) u1) in
  ok_step u
    (if (health u1 <=? Fin 0)%num
     then (if gray then set_meshColor 0x555555%Z u2 else u2)
     else u1).
Proof.
  intros Hlive u1 u2. split; [|intros; contradiction].
  intros _. subst u1 u2. cbn [health set_health].
  destruct (health u - damage)%num as [h|] eqn:E; cbn [nleb ncmp].
  - destruct (Qle_bool h 0) eqn:Hle.
    + destruct gray; (split; [reflexivity|split; [reflexivity|auto]]).
    + assert (Hpos : 0 < h).
      { apply Qnot_le_lt. intros K. apply Qle_bool_iff in K. congruence. }
      split.
      * cbn. apply Qltb_ge. lra.
      * cbn [state set_health health num_eq]. split; [contradiction|].
        intros K. lra.
  - split; [reflexivity|]. cbn [state set_health health num_eq].
    split; [contradiction|tauto].
Qed.

Lemma hit_sound (b : num) (g : Game) (r : TargetRef) :
  sound g (hit random b g r).
Proof.
  unfold hit. destruct (deref g r) as [u|] eqn:Hu; [|apply sound_refl].
  destruct (decide (state u = Dead)) as [|Hlive]; [apply sound_refl|].
  cbn [draw]. cbv zeta.
  set (damage := nfloor _).
  destruct r as [i|]; cbn [deref] in Hu.
  - pose proof (struck_ok u damage true Hlive) as Hok. cbv zeta in Hok.
    unfold sound.
    cbn [assign fighters commander g_set_fighters g_set_randomDraws].
    split; [|apply option_ok_refl].
    rewrite <- (list_insert_id (fighters g) i u Hu) at 1.
    apply Forall2_insert; [apply Forall2_ok_refl|exact Hok].
  - pose proof (struck_ok u damage false Hlive) as Hok. cbv zeta in Hok.
    unfold sound.
    cbn [assign fighters commander g_set_commander g_set_randomDraws].
    split; [apply Forall2_ok_refl|].
    rewrite Hu. constructor. exact Hok.
Qed.

Lemma hits_sound (b : num) (targets : list TargetRef) (g : Game) :
  sound g (fold_left (hit random b) targets g).
Proof.
  revert g. induction targets as [|r targets IH]; intros g; [apply sound_refl|].
  cbn [fold_left]. eapply sound_trans; [apply hit_sound|apply IH].
Qed.

Lemma performAttack_sound (a : Animal) (g : Game) (targets : list TargetRef)
    (b : num) :
  sound g (snd (performAttack random a g targets b)).
Proof.
  unfold performAttack. destruct (_ <? _)%num; cbn [snd];
    [apply sound_refl|apply hits_sound].
Qed.

Lemma updateLoopBody_sound (delta : num) (g : Game) (j : nat) :
  sound g (updateLoopBody delta g j).
Proof.
  destruct (updateLoopBody_frame delta g j) as ((_ & Hc & _) & _).
  split; [|rewrite Hc; apply option_ok_refl].
  destruct (fighters g !! j) as [f|] eqn:Hf.
  - destruct (decide (state f = Dead)) as [Hd|Hd].
    + unfold updateLoopBody. rewrite Hf.
      destruct (decide (state f = Dead)); [|contradiction]. apply sound_refl.
    + destruct (updateLoopBody_live delta g j f Hf Hd)
        as (f' & g' & E & _ & Hh & _ & _ & _ & _ & Hs).
      rewrite E. cbn [fighters g_set_fighters].
      rewrite <- (list_insert_id (fighters g) j f Hf) at 1.
      apply Forall2_insert; [apply Forall2_ok_refl|].
      apply ok_step_keeps; [exact Hh|tauto].
  - unfold updateLoopBody. rewrite Hf. apply sound_refl.
Qed.

Lemma FighterAI_update_sound (delta : num) (g : Game) :
  sound g (FighterAI_update delta g).
Proof.
  unfold FighterAI_update. destruct (decide (phase g <> Battle));
    [apply sound_refl|]. cbv zeta.
  destruct (updateFormationCenter_frame g) as ((_ & Hc & _) & Hfs & _).
  eapply sound_trans with (g2 := updateFormationCenter g).
  { split; [rewrite Hfs; apply Forall2_ok_refl|].
    rewrite Hc. apply option_ok_refl. }
  generalize (seq 0 (length (fighters (updateFormationCenter g)))).
  generalize (updateFormationCenter g). intros g0 l. revert g0.
  induction l as [|j l IH]; intros g0; [apply sound_refl|].
  cbn [fold_left]. eapply sound_trans; [apply updateLoopBody_sound|apply IH].
Qed.

Lemma commanderAttack_sound (g : Game) : sound g (commanderAttack g).
Proof.
  unfold commanderAttack.
  destruct (commander g) as [c|] eqn:Hc; [|apply sound_refl].
  destruct (animal g) as [a|] eqn:Ha; [|apply sound_refl].
  destruct (_ <? _)%num; [apply sound_refl|]. cbv zeta.
  destruct (_ <=? _)%num; [|apply sound_refl].
  unfold recordDamageToAnimal, sound. cbn. split.
  - apply Forall2_ok_refl.
  - rewrite Hc. constructor. apply ok_step_keeps; [reflexivity|tauto].
Qed.

Lemma rallyNearbyFighters_sound (g : Game) : sound g (rallyNearbyFighters g).
Proof.
  unfold rallyNearbyFighters.
  destruct (commander g) as [c|] eqn:Hc; [|apply sound_refl]. cbv zeta.
  split; [|cbn; rewrite Hc; constructor; apply ok_step_refl].
  cbn [fighters g_set_fighters].
  induction (fighters g) as [|f fs IH]; [constructor|].
  cbn [map]. constructor; [|exact IH].
  destruct (decide (state f = Dead)); [apply ok_step_refl|].
  destruct (_ <=? _)%num; [|apply ok_step_refl].
  apply ok_step_keeps; [reflexivity|tauto].
Qed.

Lemma vitals_sound (g g' : Game) : vitals g' = vitals g -> sound g g'.
Proof.
  unfold vitals. intros H. injection H as Hf Hc. split.
  - revert Hf. generalize (fighters g'). induction (fighters g) as [|u l IH];
      intros [|u' l'] Hf; try discriminate; constructor.
    + cbn [map] in Hf. injection Hf as Hh Hs _.
      apply ok_step_keeps; [exact Hh|rewrite Hs; tauto].
    + apply IH. cbn [map] in Hf. injection Hf as _ _ Hl. exact Hl.
  - destruct (commander g) as [c|], (commander g') as [c'|];
      try discriminate; constructor.
    cbn in Hc. injection Hc as Hh Hs.
    apply ok_step_keeps; [exact Hh|rewrite Hs; tauto].
Qed.

Lemma engine_step_sound (g g' : Game) :
  engine_step random g g' -> sound g g'.
Proof.
  intros [delta g0|g0|g0|g0 a targets b Ha|g0 g1 Hv].
  - apply FighterAI_update_sound.
  - apply commanderAttack_sound.
  - apply rallyNearbyFighters_sound.
  - apply (performAttack_sound a g0 targets b).
  - apply vitals_sound. exact Hv.
Qed.

Lemma engine_run_sound (g g' : Game) :
  rtc (engine_step random) g g' -> sound g g'.
Proof.
  induction 1 as [g|g1 g2 g3 Hstep _ IH]; [apply sound_refl|].
  eapply sound_trans; [apply engine_step_sound; exact Hstep|exact IH].
Qed.

Lemma fresh_fighter_vital (pos : Vec3) : vital (createFighter pos).
Proof.
  split; [reflexivity|]. split; [discriminate|].
  intros H. vm_compute in H. discriminate.
Qed.

Lemma createCommander_vital : vital createCommander.
Proof.
  split; [reflexivity|]. split; [discriminate|].
  intros H. vm_compute in H. discriminate.
Qed.

Lemma session_start_units_ok (g : Game) : session_start g -> units_ok g.
Proof.
  intros [Hf Hc]. split.
  - induction Hf as [|u l (pos & ->) _ IH]; constructor;
      [apply fresh_fighter_vital|exact IH].
  - intros c E. rewrite (Hc c E). apply createCommander_vital.
Qed.

(** C1, for the units the animal attacks.  In every state [g1] that a run of
    the engines reaches from the start of a battle session, every fighter and
    the commander have a health that is not negative and are dead exactly
    when their health is 0; and whoever is dead in [g1] is still dead in
    every state [g2] reached later. *)
Theorem fighters_and_commander_health_invariant :
  forall g0 g1 g2 : Game,
    session_start g0 ->
    rtc (engine_step random) g0 g1 ->
    rtc (engine_step random) g1 g2 ->
    units_ok g1 /\ stays_dead g1 g2.
Proof.
  intros g0 g1 g2 Hstart Hrun1 Hrun2.
  assert (Hok : units_ok g1).
  { apply (sound_units_ok g0 g1); [apply engine_run_sound; exact Hrun1|].
    apply session_start_units_ok. exact Hstart. }
  split; [exact Hok|].
  apply (sound_units_ok g1 g2); [apply engine_run_sound; exact Hrun2|exact Hok].
Qed.

End HealthProperties.

(** * The properties on concrete states *)

Lemma approx_sqrt_nonneg (q : Q) : 0 <= approx_sqrt q.
Proof.
  unfold approx_sqrt. apply Qle_shift_div_l; [reflexivity|].
  rewrite Qmult_0_l. change 0 with (inject_Z 0). rewrite <- Zle_Qle.
  apply Z.sqrt_nonneg.
Qed.

(** A battle with one fighter in line formation: the slot is not a position,
    and one frame later neither is the fighter's own position. *)
Example single_fighter_line_tick :
  getFormationPosition (M := approxMath) 0
    (updateFormationCenter (M := approxMath) game_line) = vNaN
  /\ exists f' : Unit,
       fighters (FighterAI_update (M := approxMath) (Fin 0.016) game_line) !! 0%nat
       = Some f'
       /\ position f' = vNaN.
Proof.
  split; [vm_compute; reflexivity|].
  eexists. split; [vm_compute; reflexivity|reflexivity].
Qed.

(** The gorilla has struck at game time 5; half a second later its next
    attack is refused. *)
Lemma performAttack_cooldown_gate_witness :
  performAttack random_half (snd (fst struck)) game_later [RFighter 0] (Fin 25)
  = (false, snd (fst struck), game_later).
Proof.
  apply (proj2 (performAttack_cooldown_gate random_half)
           animal0 (snd (fst struck)) game0 (snd struck) game_later
           [RFighter 0; RFighter 1] [RFighter 0] (Fin 25) (Fin 25));
    vm_compute; reflexivity.
Defined.

(** The gorilla strikes two fighters in one call at game time 5. *)
Lemma performAttack_single_cooldown_charge_witness :
  exists g' : Game,
    performAttack random_half animal0 game0 [RFighter 0; RFighter 1] (Fin 25)
    = (true, a_set_attackTimer (Fin 5) (Fin 1) animal0, g')
    /\ a_lastAttackTime
         (snd (fst (performAttack random_half animal0 game0
                      [RFighter 0; RFighter 1] (Fin 25))))
       = Fin 5
    /\ snd (fst (performAttack random_half animal0 game0
                   [RFighter 0; RFighter 1] (Fin 25)))
       = snd (fst (performAttack random_half animal0 game0 [] (Fin 25)))
    /\ time g' = Fin 5.
Proof.
  apply (performAttack_single_cooldown_charge random_half animal0 game0
           [RFighter 0; RFighter 1] (Fin 25)).
  reflexivity.
Defined.

(** The gorilla (attack power 25, speeds 8 and 12) through [rage_events]. *)
Lemma enrage_symmetry_witness :
  exists a' : Animal,
    animal (fold_left rage_step rage_events game0) = Some a'
    /\ (a_isEnraged a' = true ->
        num_eq (a_attackPower a') (Fin 25 * Fin 1.3)%num
        /\ num_eq (a_moveSpeed a') (Fin 8 * Fin 1.2)%num
        /\ num_eq (a_chargeSpeed a') (Fin 12 * Fin 1.2)%num)
    /\ (a_isEnraged a' = false ->
        num_eq (a_attackPower a') (Fin 25)
        /\ num_eq (a_moveSpeed a') (Fin 8)
        /\ num_eq (a_chargeSpeed a') (Fin 12)).
Proof.
  apply (enrage_symmetry game0 animal0 rage_events); reflexivity.
Defined.

(** The run of [rage_events] does enrage the gorilla (attack power 32.5) and
    then calms it down, back at attack power 25. *)
Example enrage_cycle_restores :
  (exists a1, animal (fold_left rage_step (take 2 rage_events) game0) = Some a1
              /\ a_isEnraged a1 = true
              /\ num_eq (a_attackPower a1) (Fin 32.5))
  /\ (exists a2, animal (fold_left rage_step rage_events game0) = Some a2
                 /\ a_isEnraged a2 = false
                 /\ num_eq (a_attackPower a2) (Fin 25)
                 /\ num_eq (a_moveSpeed a2) (Fin 8)
                 /\ num_eq (a_chargeSpeed a2) (Fin 12)).
Proof.
  split; eexists; (split; [vm_compute; reflexivity|]).
  - split; [reflexivity|]. vm_compute. reflexivity.
  - split; [reflexivity|]. repeat split; vm_compute; reflexivity.
Qed.

(** One fallen fighter: defeat.  No fighter at all: the battle goes on. *)
Lemma checkBattleEnd_loss_boundary_witness :
  (exists g' : Game,
      checkBattleEnd game_fallen = Ok g' /\ phase g' = Result
      /\ uiMessages g' = "DEFEAT" :: uiMessages game_fallen)
  /\ checkBattleEnd game_empty = Ok game_empty.
Proof.
  split.
  - apply (checkBattleEnd_loss_boundary game_fallen animal0);
      [reflexivity|reflexivity|discriminate|].
    repeat constructor.
  - apply (checkBattleEnd_loss_boundary game_empty animal0);
      reflexivity.
Defined.

(** C6, as stated, fails: every placed fighter is dead, the commander is
    alive at full health, the animal stands, and [checkBattleEnd] ends the
    battle. *)
Lemma all_fighters_dead_ends_battle :
  Forall (fun f => state f = Dead) (fighters game_fallen)
  /\ (exists c, commander game_fallen = Some c /\ health c = Fin 200)
  /\ phase game_fallen = Battle
  /\ checkBattleEnd game_fallen <> Ok game_fallen
  /\ exists g' : Game, checkBattleEnd game_fallen = Ok g' /\ phase g' = Result.
Proof.
  split; [repeat constructor|].
  split; [eexists; split; reflexivity|].
  split; [reflexivity|].
  split; [vm_compute; discriminate|].
  eexists. split; vm_compute; reflexivity.
Qed.

(** The fighter at health 9 of 50, one frame of 16 ms. *)
Lemma injured_fighter_flees_witness :
  exists f' : Unit,
    fighters (FighterAI_update (M := approxMath) (Fin 0.016) game_hurt) !! 0%nat
    = Some f'
    /\ state f' = Fleeing
    /\ forceAccumulator f'
       = vscale
           (vnormalize (M := approxMath)
              (vsub (position fighter0) (a_position animal0)))
           (Fin 0.7 * Fin 2)%num
    /\ exists k : Q,
         0 < k
         /\ vec_eq (forceAccumulator f')
              (vscale (vsub (position fighter0) (a_position animal0)) (Fin k)).
Proof.
  destruct (injured_fighter_flees (M := approxMath) (Fin 0.016) game_hurt 0
              (set_health (Fin 9) fighter0) animal0 eq_refl
              ltac:(eexists; reflexivity) eq_refl eq_refl ltac:(discriminate)
              eq_refl)
    as (f' & Hf' & Hst & Hforce & Hdir).
  exists f'. split; [exact Hf'|]. split; [exact Hst|]. split; [exact Hforce|].
  apply (Hdir 0.7 eq_refl ltac:(reflexivity) approx_sqrt_nonneg eq_refl eq_refl).
Defined.

(** The dead are not processed: a fallen fighter has health 0, below 20% of
    its maxHealth 50, and the fighter update skips it -- it stays ['dead'],
    with no force at all. *)
Lemma dead_fighter_does_not_flee :
  exists f f' : Unit,
    fighters game_fallen !! 0%nat = Some f
    /\ (health f <? maxHealth f * Fin 0.2)%num = true
    /\ fighters (FighterAI_update (M := approxMath) (Fin 0.016) game_fallen) !! 0%nat
       = Some f'
    /\ state f' = Dead
    /\ state f' <> Fleeing
    /\ forceAccumulator f' = vzero.
Proof.
  do 2 eexists. split; [reflexivity|]. split; [reflexivity|].
  split; [vm_compute; reflexivity|].
  split; [reflexivity|]. split; [discriminate|reflexivity].
Qed.

(** The rallied fighter next to the gorilla, one frame of 16 ms. *)
Lemma influenced_fighter_deals_base_damage_witness :
  exists (f' : Unit) (a' : Animal) (k : nat),
    fighters (FighterAI_update (M := approxMath) (Fin 0.016) game_rallied) !! 0%nat
    = Some f'
    /\ commanderInfluence f' = false
    /\ animal (FighterAI_update (M := approxMath) (Fin 0.016) game_rallied) = Some a'
    /\ a_health a' = Nat.iter k (fun h => (h - Fin 1)%num) (Fin 1000)
    /\ (k <= 1)%nat.
Proof.
  apply (influenced_fighter_deals_base_damage (M := approxMath) (Fin 0.016)
           game_rallied 0 (set_commanderInfluence true fighter0)
           createCommander animal0);
    try reflexivity.
  discriminate.
Defined.

(** The rallied fighter does attack in that tick: its flag was set, the
    animal goes from 1000 to 999 -- the bonus would have left 998.5. *)
Example rallied_fighter_attack :
  exists (f f' : Unit) (a' : Animal),
    fighters game_rallied !! 0%nat = Some f
    /\ commanderInfluence f = true
    /\ fighters (FighterAI_update (M := approxMath) (Fin 0.016) game_rallied) !! 0%nat
       = Some f'
    /\ state f' = Attacking
    /\ lastAttackTime f' = Fin 5
    /\ commanderInfluence f' = false
    /\ animal (FighterAI_update (M := approxMath) (Fin 0.016) game_rallied) = Some a'
    /\ num_eq (a_health a') (Fin 999).
Proof.
  do 3 eexists. split; [reflexivity|]. split; [reflexivity|].
  split; [vm_compute; reflexivity|].
  split; [reflexivity|]. split; [reflexivity|]. split; [reflexivity|].
  split; [vm_compute; reflexivity|].
  vm_compute. reflexivity.
Qed.

(** The gorilla sweeps with a living fighter 1.6 units away. *)
Lemma executeSwipeBehavior_throws_witness :
  executeSwipeBehavior (M := approxMath) random_half sweeper game0 (Fin 0.016)
  = Throw clamp_error.
Proof.
  apply (executeSwipeBehavior_throws (M := approxMath) random_half sweeper game0
           (Fin 0.016) (RFighter 0) fighter0 0 fighter0);
    try reflexivity.
  discriminate.
Defined.

(** From two fresh fighters and a fresh commander, through one attack of the
    gorilla on both fighters. *)
Lemma fighters_and_commander_health_invariant_witness :
  units_ok game_struck
  /\ stays_dead game_struck (FighterAI_update (M := approxMath) (Fin 0.016) game_struck).
Proof.
  apply (fighters_and_commander_health_invariant (M := approxMath) random_half
           game0 game_struck
           (FighterAI_update (M := approxMath) (Fin 0.016) game_struck)).
  - split.
    + repeat constructor; eexists; reflexivity.
    + intros c Hc. injection Hc as <-. reflexivity.
  - apply rtc_once.
    apply (step_performAttack random_half game0 animal0
             [RFighter 0; RFighter 1] (Fin 25)).
    reflexivity.
  - apply rtc_once. apply step_fighters.
Defined.

(** C1, as stated, fails for the animal: with 3 health left and every unit
    sound, the commander's hit of 5 leaves the animal at -2, and the animal
    is not given the state ['dead']. *)
Lemma animal_health_goes_negative :
  units_ok game_last_blow
  /\ (exists a, animal game_last_blow = Some a /\ a_health a = Fin 3)
  /\ engine_step (M := approxMath) random_half game_last_blow
       (commanderAttack (M := approxMath) game_last_blow)
  /\ exists a' : Animal,
       animal (commanderAttack (M := approxMath) game_last_blow) = Some a'
       /\ (a_health a' <? Fin 0)%num = true
       /\ num_eq (a_health a') (Fin (-2))
       /\ a_state a' <> Dead.
Proof.
  split.
  { apply session_start_units_ok. split.
    - repeat constructor; eexists; reflexivity.
    - intros c Hc. injection Hc as <-. reflexivity. }
  split; [eexists; split; reflexivity|].
  split; [apply step_commanderAttack|].
  eexists. split; [vm_compute; reflexivity|].
  split; [reflexivity|]. split; [reflexivity|discriminate].
Qed.

(** * The session, the commander and the animal engine *)

(** ** Numbers, continued *)

Lemma Qle_bool_false (x y : Q) : Qle_bool x y = false -> y < x.
Proof.
  intros H. apply Qnot_le_lt. intros Hle. apply Qle_bool_iff in Hle. congruence.
Qed.

Lemma Qle_bool_true (x y : Q) : Qle_bool x y = true -> x <= y.
Proof. apply Qle_bool_iff. Qed.

(** [Math.max(-m, Math.min(m, x))] for finite values. *)
Lemma clamp_spec (m x : Q) :
  0 <= m ->
  exists x' : Q,
    nmax (- Fin m)%num (nmin (Fin m) (Fin x)) = Fin x'
    /\ - m <= x' <= m
    /\ (- m <= x <= m -> x' == x).
Proof.
  intros Hm. cbn. destruct (Qle_bool m x) eqn:E1.
  - apply Qle_bool_true in E1.
    destruct (Qle_bool (- m) m) eqn:E2.
    + exists m. split; [reflexivity|]. split; [lra|]. intros. lra.
    + apply Qle_bool_false in E2. lra.
  - apply Qle_bool_false in E1.
    destruct (Qle_bool (- m) x) eqn:E2.
    + apply Qle_bool_true in E2. exists x. split; [reflexivity|].
      split; [lra|]. intros. reflexivity.
    + apply Qle_bool_false in E2. exists (- m). split; [reflexivity|].
      split; [lra|]. intros. lra.
Qed.

(** *** Rounding to binary64 *)

Lemma pow2_pos (e : Z) : 0 < 2 ^ e.
Proof. apply Qpower_0_lt. reflexivity. Qed.

Lemma pow2_succ (e : Z) : 2 ^ (e + 1) == 2 * 2 ^ e.
Proof.
  rewrite Qpower_plus by discriminate. change (2 ^ 1) with 2. ring.
Qed.

Lemma ilog2_spec (q : Q) : 0 < q -> 2 ^ ilog2 q <= q < 2 ^ (ilog2 q + 1).
Proof.
  intros Hq. unfold ilog2. destruct q as [n d]. cbn [Qnum Qden].
  assert (Hn : (0 < n)%Z).
  { unfold Qlt in Hq. cbn in Hq. lia. }
  set (a := Z.log2 n). set (b := Z.log2 (Z.pos d)).
  destruct (Z.log2_spec n Hn) as (Ha1 & Ha2). fold a in Ha1, Ha2.
  destruct (Z.log2_spec (Z.pos d) eq_refl) as (Hb1 & Hb2). fold b in Hb1, Hb2.
  assert (Ha0 : (0 <= a)%Z) by apply Z.log2_nonneg.
  assert (Hb0 : (0 <= b)%Z) by apply Z.log2_nonneg.
  rewrite Zle_Qle in Ha1, Hb1. rewrite Zlt_Qlt in Ha2, Hb2.
  rewrite Zpower_Qpower in Ha1, Hb1 by assumption.
  rewrite Zpower_Qpower in Ha2, Hb2 by lia.
  change (inject_Z 2) with 2 in *.
  replace (Z.succ a) with (a + 1)%Z in Ha2 by lia.
  replace (Z.succ b) with (b + 1)%Z in Hb2 by lia.
  rewrite pow2_succ in Ha2, Hb2.
  assert (Hq' : (n # d) * inject_Z (Z.pos d) == inject_Z n).
  { rewrite (Qmake_Qdiv n d). field. discriminate. }
  assert (He : 2 ^ (a - b) * 2 ^ b == 2 ^ a).
  { rewrite <- Qpower_plus by discriminate. replace (a - b + b)%Z with a by lia.
    reflexivity. }
  assert (He1 : 2 ^ (a - b - 1) * 2 == 2 ^ (a - b)).
  { replace (a - b)%Z with (a - b - 1 + 1)%Z at 2 by lia. rewrite pow2_succ. ring. }
  pose proof (pow2_pos a) as Pa. pose proof (pow2_pos b) as Pb.
  pose proof (pow2_pos (a - b)) as Pe. pose proof (pow2_pos (a - b - 1)) as Pe1.
  set (A := 2 ^ a) in *. set (B := 2 ^ b) in *. set (E := 2 ^ (a - b)) in *.
  set (E1 := 2 ^ (a - b - 1)) in *.
  set (N := inject_Z n) in *. set (D := inject_Z (Z.pos d)) in *.
  set (q := n # d) in *.
  assert (Hup : q < 2 * E).
  { destruct (Qlt_le_dec q (2 * E)) as [|Hge]; [assumption|exfalso].
    assert (2 * E * B <= q * D) by (apply Qmult_le_compat_nonneg; split; lra).
    lra. }
  assert (Hlo : E1 <= q).
  { destruct (Qlt_le_dec q E1) as [Hlt|]; [exfalso|assumption].
    assert (P1 : q * D < E1 * D) by (apply Qmult_lt_compat_r; lra).
    assert (P2 : E1 * D <= E1 * (2 * B)).
    { rewrite !(Qmult_comm E1). apply Qmult_le_compat_r; lra. }
    assert (P3 : E1 * (2 * B) == A) by (rewrite <- He, <- He1; ring).
    lra. }
  destruct (Qle_bool E q) eqn:T.
  - apply Qle_bool_iff in T. rewrite pow2_succ. fold E. split; assumption.
  - replace (a - b - 1 + 1)%Z with (a - b)%Z by lia. fold E E1.
    split; [exact Hlo|]. apply Qnot_le_lt. intros H. apply Qle_bool_iff in H.
    congruence.
Qed.

Lemma round_half_even_spec (x : Q) :
  Qabs (inject_Z (round_half_even x) - x) <= 1 # 2
  /\ (forall n : Z, inject_Z n <= x -> (n <= round_half_even x)%Z)
  /\ (forall n : Z, x <= inject_Z n -> (round_half_even x <= n)%Z).
Proof.
  unfold round_half_even. cbv zeta.
  pose proof (Qfloor_le x) as Hf1. pose proof (Qlt_floor x) as Hf2.
  set (f := Qfloor x) in *.
  rewrite inject_Z_plus in Hf2. change (inject_Z 1) with 1 in Hf2.
  assert (Hlow : forall n : Z, inject_Z n <= x -> (n <= f)%Z).
  { intros n Hn. assert (H : inject_Z n < inject_Z (f + 1)).
    { rewrite inject_Z_plus. change (inject_Z 1) with 1. lra. }
    rewrite <- Zlt_Qlt in H. lia. }
  assert (Hup1 : forall n : Z, x <= inject_Z n -> (f <= n)%Z).
  { intros n Hn. rewrite Zle_Qle. lra. }
  assert (Hup2 : forall n : Z, inject_Z f < x -> x <= inject_Z n -> (f + 1 <= n)%Z).
  { intros n Hx Hn. assert (H : inject_Z f < inject_Z n) by lra.
    rewrite <- Zlt_Qlt in H. lia. }
  assert (Hs : forall k : Z, inject_Z (k + 1) == inject_Z k + 1).
  { intros k. rewrite inject_Z_plus. reflexivity. }
  destruct (Qltb (x - inject_Z f) (1 # 2)) eqn:E1.
  { apply Qltb_lt in E1. split; [apply Qabs_Qle_condition; lra|].
    split; [exact Hlow|exact Hup1]. }
  apply Qltb_ge in E1.
  assert (Hcase : Qabs (inject_Z (f + 1) - x) <= 1 # 2
                  /\ (forall n : Z, inject_Z n <= x -> (n <= f + 1)%Z)
                  /\ (forall n : Z, x <= inject_Z n -> (f + 1 <= n)%Z)).
  { split; [apply Qabs_Qle_condition; rewrite Hs; lra|].
    split; [intros n Hn; specialize (Hlow n Hn); lia|].
    intros n Hn. apply Hup2; [lra|exact Hn]. }
  destruct (Qltb (1 # 2) (x - inject_Z f)) eqn:E2; [exact Hcase|].
  apply Qltb_ge in E2.
  destruct (Z.even f); [|exact Hcase].
  split; [apply Qabs_Qle_condition; lra|]. split; [exact Hlow|exact Hup1].
Qed.

Lemma Qabs_pos_eq (q : Q) : 0 < q -> Qabs q = q.
Proof.
  intros H. destruct q as [n d]. unfold Qabs. f_equal. apply Z.abs_eq.
  unfold Qlt in H. cbn in H. lia.
Qed.

(** A positive value is rounded to a neighbour on the grid of its binade:
    between any two grid points that enclose it, and at most half a step
    away. *)
Lemma round64_grid (q : Q) :
  0 < q ->
  let ulp := 2 ^ (ilog2 q - 52) in
  Qabs (round64 q - q) <= ulp / 2
  /\ (forall n : Z, inject_Z n * ulp <= q -> inject_Z n * ulp <= round64 q)
  /\ (forall n : Z, q <= inject_Z n * ulp -> round64 q <= inject_Z n * ulp).
Proof.
  intros Hq. cbv zeta. unfold round64.
  assert (E0 : Qeq_bool q 0 = false).
  { destruct (Qeq_bool q 0) eqn:E; [|reflexivity].
    apply Qeq_bool_iff in E. lra. }
  assert (E1 : Qltb q 0 = false) by (apply Qltb_ge; lra).
  rewrite E0, E1, (Qabs_pos_eq q Hq). cbv zeta.
  pose proof (pow2_pos (ilog2 q - 52)) as Hu. set (ulp := 2 ^ (ilog2 q - 52)) in *.
  destruct (round_half_even_spec (q / ulp)) as (Habs & Hlo & Hup).
  set (k := round_half_even (q / ulp)) in *.
  assert (Hx : q / ulp * ulp == q) by (field; lra).
  apply Qabs_Qle_condition in Habs. destruct Habs as (H1 & H2).
  split; [|split].
  - apply Qabs_Qle_condition.
    assert (Hh : ulp / 2 == (1 # 2) * ulp) by field.
    assert (P1 : - (1 # 2) * ulp <= (inject_Z k - q / ulp) * ulp).
    { apply Qmult_le_compat_r; lra. }
    assert (P2 : (inject_Z k - q / ulp) * ulp <= (1 # 2) * ulp).
    { apply Qmult_le_compat_r; lra. }
    assert (P3 : (inject_Z k - q / ulp) * ulp == inject_Z k * ulp - q).
    { rewrite <- Hx at 2. ring. }
    lra.
  - intros n Hn. apply Qmult_le_compat_r; [|lra]. rewrite <- Zle_Qle. apply Hlo.
    apply Qle_shift_div_l; assumption.
  - intros n Hn. apply Qmult_le_compat_r; [|lra]. rewrite <- Zle_Qle. apply Hup.
    apply Qle_shift_div_r; assumption.
Qed.

Lemma round64_0 (q : Q) : q == 0 -> round64 q = 0.
Proof.
  intros H. unfold round64. apply Qeq_bool_iff in H. rewrite H. reflexivity.
Qed.

(** The relative error of one rounding is at most 2^-53, and the rounding of
    a positive value is positive. *)
Lemma round64_error (q : Q) :
  0 <= q ->
  0 <= round64 q /\ Qabs (round64 q - q) <= q * (1 # 2 ^ 53)
  /\ (0 < q -> 0 < round64 q).
Proof.
  intros Hq. destruct (Qeq_bool q 0) eqn:E0.
  { apply Qeq_bool_iff in E0. rewrite (round64_0 q E0).
    split; [lra|]. split; [|intros; lra]. apply Qabs_Qle_condition.
    change (1 # 2 ^ 53) with (1 # 9007199254740992). lra. }
  assert (Hpos : 0 < q).
  { destruct (Qlt_le_dec 0 q) as [|Hle]; [assumption|].
    assert (Hz : q == 0) by lra. apply Qeq_bool_iff in Hz. congruence. }
  destruct (round64_grid q Hpos) as (Hab & Hlo & _). cbv zeta in *.
  destruct (ilog2_spec q Hpos) as (He & _).
  set (e := ilog2 q) in *.
  assert (H52 : 2 ^ e == inject_Z (2 ^ 52) * 2 ^ (e - 52)).
  { rewrite Zpower_Qpower by lia. change (inject_Z 2) with 2.
    rewrite <- Qpower_plus by discriminate.
    replace (52 + (e - 52))%Z with e by lia. reflexivity. }
  pose proof (pow2_pos (e - 52)) as Hu. set (ulp := 2 ^ (e - 52)) in *.
  assert (Hge : 2 ^ e <= round64 q).
  { rewrite H52. apply Hlo. rewrite <- H52. exact He. }
  pose proof (pow2_pos e) as Pe.
  split; [lra|]. split; [|intros _; lra].
  eapply Qle_trans; [exact Hab|].
  assert (Hc : inject_Z (2 ^ 52) == 4503599627370496) by reflexivity.
  assert (Hd : q * (1 # 2 ^ 53) == q / 9007199254740992) by reflexivity.
  rewrite Hd. apply Qle_shift_div_l; [reflexivity|].
  assert (Hh : ulp / 2 == ulp * (1 # 2)) by field.
  rewrite Hh. rewrite Hc in H52. lra.
Qed.

(** Rounding does not carry a value of at most 1 past 1, and 1 is kept. *)
Lemma round64_le_1 (q : Q) : 0 < q -> q <= 1 -> round64 q <= 1.
Proof.
  intros Hpos Hle. destruct (round64_grid q Hpos) as (_ & _ & Hup).
  cbv zeta in Hup. destruct (ilog2_spec q Hpos) as (He & He').
  set (e := ilog2 q) in *.
  assert (He0 : (e <= 0)%Z).
  { apply (Qpower_le_compat_l_inv 2); [|reflexivity].
    change (2 ^ 0) with 1. lra. }
  assert (H1 : 1 == inject_Z (2 ^ (52 - e)) * 2 ^ (e - 52)).
  { rewrite Zpower_Qpower by lia. change (inject_Z 2) with 2.
    rewrite <- Qpower_plus by discriminate.
    replace (52 - e + (e - 52))%Z with 0%Z by lia. reflexivity. }
  rewrite H1. apply Hup. rewrite <- H1. exact Hle.
Qed.

Lemma round64_1 (q : Q) : q == 1 -> round64 q == 1.
Proof.
  intros H. assert (Hpos : 0 < q) by lra.
  apply Qle_antisym; [apply round64_le_1; lra|].
  destruct (round64_grid q Hpos) as (_ & Hlo & _).
  cbv zeta in Hlo. destruct (ilog2_spec q Hpos) as (He & He').
  set (e := ilog2 q) in *.
  assert (He0 : (e <= 0)%Z).
  { apply (Qpower_le_compat_l_inv 2); [|reflexivity].
    change (2 ^ 0) with 1. lra. }
  assert (H1 : 1 == inject_Z (2 ^ (52 - e)) * 2 ^ (e - 52)).
  { rewrite Zpower_Qpower by lia. change (inject_Z 2) with 2.
    rewrite <- Qpower_plus by discriminate.
    replace (52 - e + (e - 52))%Z with 0%Z by lia. reflexivity. }
  rewrite H1. apply Hlo. rewrite <- H1. lra.
Qed.

(** ** Placing fighters and starting the battle *)

Lemma placeFighter_setup (cfg : Config) (p : Vec3) (g : Game) :
  phase g = Setup ->
  snd (placeFighter cfg p g)
  = if (maxFighters cfg <=? length (fighters g))%nat then g
    else g_set_fighters (fighters g ++ [createFighter p]) g.
Proof.
  intros Hp. unfold placeFighter, BattleSimulator_createFighter.
  destruct (decide (phase g <> Setup)); [contradiction|].
  destruct (_ <=? _)%nat; reflexivity.
Qed.

Lemma placeFighters_setup (cfg : Config) (clicks : list Vec3) (g : Game) :
  phase g = Setup ->
  placeFighters cfg clicks g
  = g_set_fighters
      (fighters g
       ++ map createFighter (take (maxFighters cfg - length (fighters g)) clicks))
      g.
Proof.
  revert g. induction clicks as [|p clicks IH]; intros g Hp.
  - cbn. rewrite take_nil, app_nil_r. destruct g; reflexivity.
  - unfold placeFighters. cbn [fold_left].
    fold (placeFighters cfg clicks (snd (placeFighter cfg p g))).
    rewrite placeFighter_setup by exact Hp.
    destruct (_ <=? _)%nat eqn:E.
    + apply Nat.leb_le in E. rewrite IH by exact Hp.
      replace (maxFighters cfg - length (fighters g))%nat with 0%nat by lia.
      reflexivity.
    + apply Nat.leb_gt in E. rewrite IH by exact Hp.
      cbn [fighters g_set_fighters]. rewrite length_app. cbn [length].
      replace (maxFighters cfg - length (fighters g))%nat
        with (S (maxFighters cfg - (length (fighters g) + 1)))%nat by lia.
      cbn [take map]. rewrite <- app_assoc. reflexivity.
Qed.

Lemma startBattle_inv :
  forall g : Game,
    (fst (startBattle g) = true <-> phase g = Setup /\ fighters g <> [])
    /\ (fst (startBattle g) = false -> snd (startBattle g) = g)
    /\ (fst (startBattle g) = true ->
        let g' := snd (startBattle g) in
        phase g' = Battle /\ time g' = Fin 0 /\ score g' = Fin 0
        /\ commanderDamageDealt g' = Fin 0
        /\ fighters g' = fighters g /\ animal g' = animal g
        /\ commander g' = commander g).
Proof.
  intros g. unfold startBattle.
  destruct (bool_decide (phase g <> Setup)) eqn:E1; cbn [orb].
  - apply bool_decide_eq_true in E1. cbn [fst snd].
    split; [split; [discriminate|intros (? & _); contradiction]|].
    split; [reflexivity|discriminate].
  - apply bool_decide_eq_false in E1.
    assert (Hp : phase g = Setup).
    { destruct (decide (phase g = Setup)) as [?|n]; [assumption|]. exfalso. exact (E1 n). }
    destruct (fighters g) as [|f fs] eqn:Ef; cbn [length Nat.eqb fst snd].
    + split; [split; [discriminate|intros (_ & ?); contradiction]|].
      split; [reflexivity|discriminate].
    + split; [split; [intros _; split; [exact Hp|discriminate]|reflexivity]|].
      split; [discriminate|]. intros _. cbn. repeat split.
Qed.

(** X1. Fighters are placed only in the setup phase and only up to
    [maxFighters]: outside the setup phase a series of clicks changes
    nothing; in the setup phase the clicks that fit under the cap each add a
    fresh fighter at the end of the roster, in order, the clicks beyond the
    cap are dropped, and nothing but the roster changes. *)
Theorem placeFighters_respects_cap :
  forall (cfg : Config) (clicks : list Vec3) (g : Game),
    (length (fighters g) <= maxFighters cfg)%nat ->
    let g' := placeFighters cfg clicks g in
    (phase g <> Setup -> g' = g)
    /\ (phase g = Setup ->
        fighters g'
        = fighters g
          ++ map createFighter
               (take (maxFighters cfg - length (fighters g)) clicks)
        /\ length (fighters g')
           = Nat.min (maxFighters cfg) (length (fighters g) + length clicks)
        /\ g' = g_set_fighters (fighters g') g).
Proof.
  intros cfg clicks g Hcap g'. split.
  - intros Hp. subst g'. unfold placeFighters.
    induction clicks as [|p clicks IH]; [reflexivity|]. cbn [fold_left].
    unfold placeFighter at 2.
    destruct (decide (phase g <> Setup)); [|contradiction]. exact IH.
  - intros Hp. subst g'. rewrite placeFighters_setup by exact Hp.
    cbn [fighters g_set_fighters]. split; [reflexivity|]. split; [|reflexivity].
    rewrite length_app, length_map, length_take. lia.
Qed.

Lemma placeFighters_respects_cap_witness :
  let g := mkGame Setup [] None (Some createCommander) (Fin 0) (Fin 0) (Fin 0)
             false newFighterAI [] 0 in
  let cfg := mkConfig 2 "gorilla" (Fin 100) in
  length (fighters (placeFighters cfg [vzero; vzero; vzero] g)) = 2%nat.
Proof.
  intros g cfg.
  destruct (placeFighters_respects_cap cfg [vzero; vzero; vzero] g) as (_ & H).
  - cbn. lia.
  - destruct (H eq_refl) as (_ & Hlen & _). exact Hlen.
Defined.

(** X2. [startBattle] succeeds exactly in the setup phase with at least one
    fighter placed; a refused call changes nothing; a successful one enters
    the battle phase with clock, score and commander damage at zero and the
    roster, animal and commander as they were. *)
Theorem startBattle_precondition :
  forall g : Game,
    (fst (startBattle g) = true <-> phase g = Setup /\ fighters g <> [])
    /\ (fst (startBattle g) = false -> snd (startBattle g) = g)
    /\ (fst (startBattle g) = true ->
        let g' := snd (startBattle g) in
        phase g' = Battle /\ time g' = Fin 0 /\ score g' = Fin 0
        /\ commanderDamageDealt g' = Fin 0
        /\ fighters g' = fighters g /\ animal g' = animal g
        /\ commander g' = commander g).
Proof. exact startBattle_inv. Qed.

(** ** The animal and the session *)

Lemma animalTypes_inv (type : string) (d : AnimalData) :
  animalTypes !! type = Some d ->
  (type ∉ Object_prototype)
  /\ (exists h y : Q,
       d_health d = Fin h /\ 800 <= h /\ vy (d_size d) = Fin y /\ 0 < y).
Proof.
  assert (Hfin : forall (t : string) (h y : Q) (e : AnimalData),
             bool_decide (t ∈ Object_prototype) = false ->
             d_health e = Fin h -> Qle_bool 800 h = true ->
             vy (d_size e) = Fin y -> Qltb 0 y = true ->
             (t ∉ Object_prototype)
             /\ (exists h y : Q,
                  d_health e = Fin h /\ 800 <= h /\ vy (d_size e) = Fin y /\ 0 < y)).
  { intros t h y e H1 H2 H3 H4 H5. split; [apply bool_decide_eq_false in H1; exact H1|].
    exists h, y. apply Qle_bool_true in H3. apply Qltb_lt in H5. auto. }
  unfold animalTypes. intros H.
  repeat (apply lookup_insert_Some in H as [[<- <-]|[_ H]];
          [eapply Hfin; vm_compute; reflexivity|]).
  apply lookup_singleton_Some in H as [<- <-].
  eapply Hfin; vm_compute; reflexivity.
Qed.

Section SessionProperties.
Context {M : MathLib}.
Variable random : nat -> Q.

Lemma createAnimal_own (cfg : Config) (type : string) (d : AnimalData)
    (m : AnimalMind) (g : Game) :
  animalTypes !! type = Some d ->
  let position :=
    mkVec ((Fin (random (randomDraws g)) - Fin 0.5) * arenaSize cfg * Fin 0.8)%num
          (vy (d_size d) / Fin 2)%num
          (- arenaSize cfg / Fin 2 * Fin 0.9)%num in
  let a :=
    mkAnimal type position vzero (Fin 0) (d_health d) (d_health d)
      (d_attackPower d) (d_attackRange d) (d_moveSpeed d) (d_chargeSpeed d)
      Idle None (Fin 0) (Fin 2) None (Fin 0) false (typeColor type) in
  createAnimal random cfg type m g
  = Ok (a,
        mkMind (d_behaviors d) (d_aggression d) (d_intelligence d) ∅ NaN None
          false (Fin 0) None (behaviorDuration m),
        g_set_animal (Some a) (g_set_randomDraws (S (randomDraws g)) g)).
Proof.
  intros H. unfold createAnimal, animalTypes_get. rewrite H. cbn. rewrite H.
  reflexivity.
Qed.

Lemma createAnimal_Ok_inv (cfg : Config) (type : string) (m m' : AnimalMind)
    (g g' : Game) (a : Animal) :
  createAnimal random cfg type m g = Ok (a, m', g') ->
  exists (t : string) (d : AnimalData),
    animalTypes !! t = Some d
    /\ (animalTypes !! type = None -> t = "gorilla")
    /\ (animalTypes !! type <> None -> t = type)
    /\ createAnimal random cfg t m g = Ok (a, m', g').
Proof.
  intros H. destruct (animalTypes !! type) as [d|] eqn:E.
  - exists type, d. rewrite E. repeat split; try congruence.
  - unfold createAnimal, animalTypes_get in H. rewrite E in H.
    destruct (decide (type ∈ Object_prototype)).
    + rewrite E in H. destruct (decide (type ∈ Object_prototype)); discriminate.
    + change (createAnimal random cfg "gorilla" m g = Ok (a, m', g')) in H.
      eexists "gorilla", _. split; [vm_compute; reflexivity|].
      repeat split; try congruence.
Qed.

Lemma createAnimal_fallback :
  forall (cfg : Config) (type : string) (m : AnimalMind) (g : Game),
    animalTypes !! type = None ->
    (type ∉ Object_prototype ->
     createAnimal random cfg type m g = createAnimal random cfg "gorilla" m g
     /\ exists (pos : Vec3) (m' : AnimalMind) (g' : Game),
          createAnimal random cfg type m g = Ok (gorilla pos, m', g')
          /\ animal g' = Some (gorilla pos))
    /\ (type ∈ Object_prototype ->
        createAnimal random cfg type m g
        = Throw (TypeError "Cannot read properties of undefined (reading 'x')")).
Proof.
  intros cfg type m g Hnone. split.
  - intros Hproto.
    assert (E : createAnimal random cfg type m g
                = createAnimal random cfg "gorilla" m g).
    { unfold createAnimal at 1. unfold animalTypes_get. rewrite Hnone.
      destruct (decide (type ∈ Object_prototype)); [contradiction|].
      reflexivity. }
    split; [exact E|]. rewrite E.
    pose proof (createAnimal_own cfg "gorilla" _ m g
                  ltac:(vm_compute; reflexivity)) as Hg.
    cbv zeta in Hg. rewrite Hg.
    eexists _, _, _. split; reflexivity.
  - intros Hproto. unfold createAnimal, animalTypes_get. rewrite Hnone.
    destruct (decide (type ∈ Object_prototype)); [|contradiction].
    rewrite Hnone. destruct (decide (type ∈ Object_prototype)); [|contradiction].
    reflexivity.
Qed.

(** X3. [createAnimal] with a type that [animalTypes] does not have: when the
    name is also not a member that the table inherits from
    [Object.prototype], the animal is the gorilla, exactly as if 'gorilla' had
    been asked for; when the name is an inherited member ('toString',
    'constructor', ...), the lookup is truthy, no fallback happens and
    reading the size of the entry is a [TypeError]. *)
Theorem createAnimal_unknown_type :
  forall (cfg : Config) (type : string) (m : AnimalMind) (g : Game),
    animalTypes !! type = None ->
    (type ∉ Object_prototype ->
     createAnimal random cfg type m g = createAnimal random cfg "gorilla" m g
     /\ exists (pos : Vec3) (m' : AnimalMind) (g' : Game),
          createAnimal random cfg type m g = Ok (gorilla pos, m', g')
          /\ animal g' = Some (gorilla pos))
    /\ (type ∈ Object_prototype ->
        createAnimal random cfg type m g
        = Throw (TypeError "Cannot read properties of undefined (reading 'x')")).
Proof. exact createAnimal_fallback. Qed.

(** X4. The animal that [createAnimal] makes: it is the game's animal, of one
    of the seven types; its health is its maximum health, at least 800; it
    is calm, idle, without a target, at rest, with 2 seconds to wait before
    its first attack; and with a generator that yields values in [0, 1) it
    stands at the far end of the arena, at z = -0.45 x arenaSize with x
    within 0.4 x arenaSize of the middle, which is inside the arena bounds
    when the arena is at least 40 wide. Fighters, commander, phase and clock
    are not touched, and one random value is drawn. *)
Theorem createAnimal_fresh_animal :
  forall (cfg : Config) (type : string) (m m' : AnimalMind) (g g' : Game)
         (a : Animal) (s : Q),
    createAnimal random cfg type m g = Ok (a, m', g') ->
    arenaSize cfg = Fin s -> 0 <= s ->
    0 <= random (randomDraws g) < 1 ->
    animal g' = Some a
    /\ animalTypes !! a_type a <> None
    /\ a_health a = a_maxHealth a
    /\ (exists h : Q, a_health a = Fin h /\ 800 <= h)
    /\ a_isEnraged a = false /\ a_state a = Idle /\ a_target a = None
    /\ a_velocity a = vzero /\ a_attackCooldown a = Fin 2
    /\ (exists x y z : Q,
          a_position a = mkVec (Fin x) (Fin y) (Fin z)
          /\ - (0.4 * s) <= x <= 0.4 * s /\ 0 < y /\ z == - (0.45 * s))
    /\ (40 <= s -> inside_arena cfg (a_position a))
    /\ g' = g_set_animal (Some a) (g_set_randomDraws (S (randomDraws g)) g).
Proof.
  intros cfg type m m' g g' a s H Hs Hs0 Hr.
  apply createAnimal_Ok_inv in H as (t & d & Ht & _ & _ & H).
  rewrite (createAnimal_own cfg t d m g Ht) in H. cbv zeta in H.
  injection H as <- <- <-.
  destruct (animalTypes_inv t d Ht) as (_ & h & y & Hh & Hh800 & Hy & Hy0).
  cbn [animal g_set_animal a_type a_health a_maxHealth a_isEnraged a_state
       a_target a_velocity a_attackCooldown a_position].
  rewrite Hs, Hh, Hy. cbn [nsub nmul nneg num1 num2].
  rewrite !ndiv_Fin by reflexivity. cbn [nmul num2].
  split; [reflexivity|]. split; [congruence|]. split; [reflexivity|].
  split; [exists h; split; [reflexivity|exact Hh800]|].
  do 5 (split; [reflexivity|]).
  split; [|split; [|reflexivity]].
  - eexists _, _, _. split; [reflexivity|].
    split; [nra|]. split; [|field].
    apply Qlt_shift_div_l; lra.
  - intros H40. exists s. eexists _, _.
    split; [exact Hs|]. split; [reflexivity|]. split; [reflexivity|].
    assert (H1 : 0 <= random (randomDraws g) * s) by nra.
    assert (H2 : random (randomDraws g) * s <= s) by nra.
    assert (Hh1 : s / 2 == s * (1 # 2)) by field.
    assert (Hh2 : - s / 2 == - s * (1 # 2)) by field.
    rewrite Hh1, Hh2. split; lra.
Qed.

Lemma fresh_roster_alive (fs : list Unit) :
  Forall (fun u => exists pos, u = createFighter pos) fs -> fs <> [] ->
  forallb (fun fighter => bool_decide (state fighter = Dead)) fs = false.
Proof.
  intros H Hne. destruct H as [|u fs (pos & ->) _]; [contradiction|].
  reflexivity.
Qed.

(** X5. [setupBattle] on a configured type that is not a member inherited
    from [Object.prototype]: whatever the game held before, the result is in
    the setup phase with an empty roster, the commander as [createCommander]
    makes it and a new animal at full health, calm and without a target; the
    animal engine's timer and behaviour are reset.  The clock and the score
    of the previous battle stay until [startBattle] resets them. *)
Theorem setupBattle_fresh_session :
  forall (cfg : Config) (m : AnimalMind) (g : Game),
    animalType cfg ∉ Object_prototype ->
    exists (a : Animal) (m' : AnimalMind) (g' : Game),
      setupBattle random cfg m g = Ok (m', g')
      /\ phase g' = Setup /\ fighters g' = []
      /\ commander g' = Some createCommander
      /\ animal g' = Some a
      /\ a_health a = a_maxHealth a /\ (a_health a >? Fin 0)%num = true
      /\ a_isEnraged a = false /\ a_target a = None
      /\ behaviorTimer m' = Fin 0 /\ currentBehavior m' = None
      /\ specialCooldowns m' = ∅
      /\ time g' = time g /\ score g' = score g
      /\ session_start g'.
Proof.
  intros cfg m g Hproto. unfold setupBattle. cbv zeta.
  set (g0 := g_set_phase Setup (clearBattle g)).
  assert (Hc : exists (t : string) (d : AnimalData),
             animalTypes !! t = Some d
             /\ createAnimal random cfg (animalType cfg) m g0
                = createAnimal random cfg t m g0).
  { destruct (animalTypes !! animalType cfg) as [d|] eqn:E.
    - exists (animalType cfg), d. split; [exact E|reflexivity].
    - destruct (createAnimal_fallback cfg (animalType cfg) m g0 E)
        as (H & _).
      destruct (H Hproto) as (Heq & _).
      eexists "gorilla", _. split; [vm_compute; reflexivity|exact Heq]. }
  destruct Hc as (t & d & Ht & ->).
  rewrite (createAnimal_own cfg t d m g0 Ht). cbv zeta. cbn [bind].
  destruct (animalTypes_inv t d Ht) as (_ & h & y & Hh & Hh800 & _).
  eexists (mkAnimal t _ vzero (Fin 0) (d_health d) (d_health d) _ _ _ _ Idle
             None (Fin 0) (Fin 2) None (Fin 0) false _), _, _.
  split; [reflexivity|].
  cbn. rewrite Hh. cbn.
  repeat (split; [reflexivity|]).
  split.
  - unfold Qltb. destruct (Qle_bool h 0) eqn:E; [|reflexivity].
    apply Qle_bool_true in E. lra.
  - repeat (split; [reflexivity|]). split; [constructor|].
    intros c Hc. injection Hc as <-. reflexivity.
Qed.

Lemma setupBattle_Ok_inv (cfg : Config) (m m1 : AnimalMind) (g g1 : Game) :
  setupBattle random cfg m g = Ok (m1, g1) ->
  phase g1 = Setup /\ fighters g1 = []
  /\ commander g1 = Some createCommander
  /\ exists (a : Animal) (h : Q),
       animal g1 = Some a /\ a_health a = Fin h /\ 800 <= h.
Proof.
  unfold setupBattle. cbv zeta.
  set (g0 := g_set_phase Setup (clearBattle g)).
  destruct (createAnimal random cfg (animalType cfg) m g0)
    as [[[a m'] g']|e] eqn:E; [|discriminate].
  cbn [bind]. intros H. injection H as <- <-.
  apply createAnimal_Ok_inv in E as (t & d & Ht & _ & _ & E).
  rewrite (createAnimal_own cfg t d m g0 Ht) in E. cbv zeta in E.
  injection E as <- <- <-.
  destruct (animalTypes_inv t d Ht) as (_ & h & y & Hh & Hh800 & _).
  cbn. repeat (split; [reflexivity|]).
  eexists _, h. split; [reflexivity|]. split; [exact Hh|exact Hh800].
Qed.

(** X6. From [setupBattle] through the placement clicks to [startBattle]:
    the battle starts exactly when at least one click was made (and the cap
    is not zero); the battle that starts has as many fighters as clicks, up
    to the cap, all as [createFighter] makes them, the commander as
    [createCommander] makes it, every unit alive with positive health, and
    the end-of-battle check leaves it running. *)
Theorem new_battle_is_under_way :
  forall (cfg : Config) (m m1 : AnimalMind) (g g1 : Game) (clicks : list Vec3),
    setupBattle random cfg m g = Ok (m1, g1) ->
    let g2 := placeFighters cfg clicks g1 in
    (fst (startBattle g2) = true <-> clicks <> [] /\ (0 < maxFighters cfg)%nat)
    /\ (fst (startBattle g2) = true ->
        let g3 := snd (startBattle g2) in
        phase g3 = Battle /\ time g3 = Fin 0
        /\ length (fighters g3) = Nat.min (maxFighters cfg) (length clicks)
        /\ session_start g3 /\ units_ok g3
        /\ checkBattleEnd g3 = Ok g3).
Proof.
  intros cfg m m1 g g1 clicks Hsetup g2.
  apply setupBattle_Ok_inv in Hsetup
    as (Hp & Hfs & Hc & a & h & Ha & Hh & Hh800).
  assert (Hg2 : g2 = g_set_fighters
                       (map createFighter (take (maxFighters cfg) clicks)) g1).
  { subst g2. rewrite placeFighters_setup by exact Hp. rewrite Hfs.
    cbn [length app]. rewrite Nat.sub_0_r. reflexivity. }
  destruct (startBattle_inv g2) as (Hiff & _ & Hok).
  assert (Hne : fighters g2 <> [] <-> clicks <> [] /\ (0 < maxFighters cfg)%nat).
  { rewrite Hg2. cbn [fighters g_set_fighters].
    destruct clicks as [|p clicks]; [rewrite take_nil; cbn; intuition|].
    destruct (maxFighters cfg); cbn; intuition (try discriminate; try lia). }
  assert (Hp2 : phase g2 = Setup) by (rewrite Hg2; exact Hp).
  split; [rewrite Hiff; intuition|].
  intros Hstart. destruct (Hok Hstart) as (Hp3 & Ht3 & _ & _ & Hf3 & Ha3 & Hc3).
  cbv zeta. set (g3 := snd (startBattle g2)) in *.
  assert (Hfresh : Forall (fun u => exists pos, u = createFighter pos) (fighters g3)).
  { rewrite Hf3, Hg2. cbn [fighters g_set_fighters].
    apply Forall_forall. intros u Hu. apply list_elem_of_fmap in Hu as (p & -> & _).
    exists p. reflexivity. }
  assert (Hstart' : session_start g3).
  { split; [exact Hfresh|]. intros c Hcc. rewrite Hc3, Hg2 in Hcc.
    cbn [commander g_set_fighters] in Hcc. congruence. }
  split; [exact Hp3|]. split; [exact Ht3|].
  split.
  { rewrite Hf3, Hg2. cbn [fighters g_set_fighters].
    rewrite length_map, length_take. lia. }
  split; [exact Hstart'|].
  split; [apply session_start_units_ok; exact Hstart'|].
  unfold checkBattleEnd, animalDefeated.
  rewrite Ha3, Hg2. cbn [animal g_set_fighters]. rewrite Ha, Hh.
  assert (E0 : (Fin h <=? Fin 0)%num = false).
  { cbn. destruct (Qle_bool h 0) eqn:E; [|reflexivity].
    apply Qle_bool_true in E. lra. }
  rewrite E0. rewrite Hc3, Hg2. cbn [commander g_set_fighters]. rewrite Hc.
  rewrite fresh_roster_alive; [rewrite andb_false_r; reflexivity|exact Hfresh|].
  rewrite Hf3. apply Hne. apply Hiff in Hstart as (_ & Hx).
  apply Hne. exact Hx.
Qed.

End SessionProperties.

(** ** The score *)

Lemma nmax_0_nonneg (x : Q) : exists b : Q, nmax (Fin 0) (Fin x) = Fin b /\ 0 <= b
  /\ (x <= 0 -> b == 0) /\ (0 <= x -> b == x).
Proof.
  cbn. destruct (Qle_bool 0 x) eqn:E.
  - apply Qle_bool_true in E. exists x. repeat split; try lra.
  - apply Qle_bool_false in E. exists 0. repeat split; try lra.
Qed.

(** X7. Victory has priority and is worth at least 1000: when the animal's
    health is 0 or less, [checkBattleEnd] ends the battle as a victory
    whatever the state of the fighters and of the commander, and the score is
    1000, plus 100 for every fighter that is not dead, plus 10 for every
    second by which the battle was shorter than 300 seconds (nothing after
    300 seconds). *)
Theorem checkBattleEnd_victory_score :
  forall (g : Game) (a : Animal) (t : Q),
    animal g = Some a -> (a_health a <=? Fin 0)%num = true ->
    time g = Fin t ->
    exists s : Q,
      checkBattleEnd g = Ok (g_end (Fin s) "VICTORY!" g)
      /\ 1000 <= s
      /\ (300 <= t ->
          s == 1000
               + 100 * inject_Z (Z.of_nat (length (filter (fun f => state f <> Dead)
                                                     (fighters g)))))
      /\ (t <= 300 ->
          s == 1000
               + 100 * inject_Z (Z.of_nat (length (filter (fun f => state f <> Dead)
                                                     (fighters g))))
               + 10 * (300 - t)).
Proof.
  intros g a t Ha Hdead Ht. unfold checkBattleEnd, animalDefeated.
  rewrite Ha, Hdead. unfold endBattle. rewrite Ht.
  set (n := length (filter (fun f => state f <> Dead) (fighters g))).
  destruct (nmax_0_nonneg (300 - t)) as (b & Hb & Hb0 & Hlo & Hhi).
  change (Fin 300 - Fin t)%num with (Fin (300 - t)). rewrite Hb.
  eexists. split; [reflexivity|].
  assert (Hn : 0 <= inject_Z (Z.of_nat n)).
  { change 0 with (inject_Z 0). rewrite <- Zle_Qle. lia. }
  split; [nra|]. split; intros Hcase.
  - rewrite Hlo by lra. ring.
  - rewrite Hhi by lra. ring.
Qed.

Lemma checkBattleEnd_victory_score_witness :
  exists s : Q,
    checkBattleEnd (g_set_animal (Some (a_set_health (Fin (-2)) animal0)) game_fallen)
    = Ok (g_end (Fin s) "VICTORY!"
            (g_set_animal (Some (a_set_health (Fin (-2)) animal0)) game_fallen))
    /\ 1000 <= s.
Proof.
  destruct (checkBattleEnd_victory_score
              (g_set_animal (Some (a_set_health (Fin (-2)) animal0)) game_fallen)
              (a_set_health (Fin (-2)) animal0) 5 eq_refl eq_refl eq_refl)
    as (s & H & Hs & _).
  exists s. split; [exact H|exact Hs].
Defined.

(** X8. A defeat is worth the share of the animal's health that was taken,
    out of 500, rounded down -- as doubles compute it.  With the animal's
    health above 0 and at most its maximum, the score is a whole number from
    0 to 500 that is at most the exact value of (1 - health / maxHealth) x 500
    and more than that value less 1, both up to 10^-12 for the three
    roundings; it is 0 when the animal is unhurt.  Where the exact value is a
    whole number the rounding can cost a point: health 900 of 1000 scores 49,
    not 50. *)
Theorem endBattle_defeat_score :
  forall (g : Game) (a : Animal) (h m : Q),
    animal g = Some a -> a_health a = Fin h -> a_maxHealth a = Fin m ->
    0 < h <= m ->
    exists k : Z,
      endBattle false g = Ok (g_end (Fin (inject_Z k)) "DEFEAT" g)
      /\ (0 <= k <= 500)%Z
      /\ (1 - h / m) * 500 - 1 - (1 # 1000000000000) < inject_Z k
      /\ inject_Z k <= (1 - h / m) * 500 + (1 # 1000000000000)
      /\ (h == m -> k = 0%Z).
Proof.
  intros g a h m Ha Hh Hm Hrange. unfold endBattle. rewrite Ha, Hh, Hm.
  assert (Hm0 : Qeq_bool m 0 = false).
  { apply Qeq_bool_false. lra. }
  rewrite ndiv_Fin by exact Hm0. cbn [nsub nmul nfloor nround num1 num2].
  assert (Hq : 0 < h / m <= 1).
  { split.
    - apply Qlt_shift_div_l; lra.
    - apply Qle_shift_div_r; lra. }
  set (x := h / m) in *.
  destruct (round64_error x ltac:(lra)) as (_ & E1 & P1).
  specialize (P1 ltac:(lra)).
  pose proof (round64_le_1 x ltac:(lra) ltac:(lra)) as L1.
  apply Qabs_Qle_condition in E1.
  set (q1 := round64 x) in *.
  destruct (round64_error (1 - q1) ltac:(lra)) as (P2 & E2 & _).
  apply Qabs_Qle_condition in E2.
  set (q2 := round64 (1 - q1)) in *.
  destruct (round64_error (q2 * 500) ltac:(lra)) as (P3 & E3 & _).
  apply Qabs_Qle_condition in E3.
  set (q3 := round64 (q2 * 500)) in *.
  change (1 # 2 ^ 53) with (1 # 9007199254740992) in E1, E2, E3.
  exists (Qfloor q3). split; [reflexivity|].
  pose proof (Qfloor_le q3) as F1. pose proof (Qlt_floor q3) as F2.
  rewrite inject_Z_plus in F2. change (inject_Z 1) with 1 in F2.
  split; [|split; [lra|split; [lra|]]].
  - assert (Hlo : (Qfloor 0 <= Qfloor q3)%Z) by (apply Qfloor_resp_le; lra).
    change (Qfloor 0) with 0%Z in Hlo. split; [exact Hlo|].
    assert (Hhi : inject_Z (Qfloor q3) < inject_Z 501).
    { change (inject_Z 501) with 501. lra. }
    rewrite <- Zlt_Qlt in Hhi. lia.
  - intros Heq.
    assert (Hx1 : x == 1).
    { subst x. rewrite Heq. field. lra. }
    assert (Hy : 1 - q1 == 0).
    { subst q1. rewrite (round64_1 x Hx1). ring. }
    subst q3 q2. rewrite (round64_0 _ Hy).
    rewrite (round64_0 (0 * 500)) by ring. reflexivity.
Qed.

(** ** The commander *)

Section CommanderProperties.
Context {M : MathLib}.

Lemma keepInArena_frame (cfg : Config) (u : Unit) :
  set_position (position u) (keepInArena cfg u) = u
  /\ vy (position (keepInArena cfg u)) = vy (position u).
Proof. destruct u. split; reflexivity. Qed.

Lemma keepInArena_inside (cfg : Config) (u : Unit) (s : Q) :
  arenaSize cfg = Fin s -> 4 <= s ->
  is_finite (vx (position u)) = true -> is_finite (vz (position u)) = true ->
  inside_arena cfg (position (keepInArena cfg u)).
Proof.
  intros Hs H4 Hx Hz.
  destruct (vx (position u)) as [x|] eqn:Ex; [|discriminate].
  destruct (vz (position u)) as [z|] eqn:Ez; [|discriminate].
  assert (Hm : 0 <= s / 2 - 2).
  { assert (Hh : s / 2 == s * (1 # 2)) by field. rewrite Hh. lra. }
  destruct (clamp_spec (s / 2 - 2) x Hm) as (x' & Hx' & Hbx & _).
  destruct (clamp_spec (s / 2 - 2) z Hm) as (z' & Hz' & Hbz & _).
  unfold keepInArena. cbv zeta. rewrite Hs, Ex, Ez.
  rewrite ndiv_Fin by reflexivity.
  change (Fin (s / 2) - Fin 2)%num with (Fin (s / 2 - 2)).
  cbn [position set_position vx vz].
  exists s, x', z'. rewrite Hx', Hz'. auto.
Qed.

Lemma keepInArena_identity (cfg : Config) (u : Unit) (s : Q) :
  arenaSize cfg = Fin s -> 4 <= s ->
  inside_arena cfg (position u) ->
  vec_eq (position (keepInArena cfg u)) (position u).
Proof.
  intros Hs H4 (s0 & x & z & Hs0 & Ex & Ez & Hbx & Hbz).
  assert (s0 = s) by congruence. subst s0.
  assert (Hm : 0 <= s / 2 - 2) by lra.
  destruct (clamp_spec (s / 2 - 2) x Hm) as (x' & Hx' & _ & Hix).
  destruct (clamp_spec (s / 2 - 2) z Hm) as (z' & Hz' & _ & Hiz).
  unfold keepInArena. cbv zeta. rewrite Hs, Ex, Ez.
  rewrite ndiv_Fin by reflexivity.
  change (Fin (s / 2) - Fin 2)%num with (Fin (s / 2 - 2)).
  cbn [position set_position]. rewrite Hx', Hz'.
  unfold vec_eq. cbn [vx vy vz]. rewrite Ex, Ez. cbn [num_eq].
  split; [apply Hix; exact Hbx|]. split; [apply num_eq_refl|].
  apply Hiz; exact Hbz.
Qed.

(** X9. [keepInArena] clamps the x and z of a finite position into the
    bounds, arenaSize / 2 - 2 on either side of the middle (for an arena at
    least 4 wide): the result is inside the arena, a position that is inside
    already keeps its coordinates, and nothing but x and z is written.  A
    coordinate that is not a number is not repaired. *)
Theorem keepInArena_clamps :
  forall (cfg : Config) (u : Unit) (s x z : Q),
    arenaSize cfg = Fin s -> 4 <= s ->
    vx (position u) = Fin x -> vz (position u) = Fin z ->
    inside_arena cfg (position (keepInArena cfg u))
    /\ (inside_arena cfg (position u) ->
        vec_eq (position (keepInArena cfg u)) (position u))
    /\ set_position (position u) (keepInArena cfg u) = u
    /\ vy (position (keepInArena cfg u)) = vy (position u)
    /\ vx (position (keepInArena cfg (set_position (mkVec NaN (Fin 0) (Fin z)) u)))
       = NaN.
Proof.
  intros cfg u s x z Hs H4 Ex Ez.
  split; [apply (keepInArena_inside cfg u s Hs H4); rewrite ?Ex, ?Ez; reflexivity|].
  split; [|split; [apply keepInArena_frame|split; [apply keepInArena_frame|]]].
  - apply (keepInArena_identity cfg u s Hs H4).
  - unfold keepInArena. cbv zeta. rewrite Hs.
    rewrite ndiv_Fin by reflexivity. reflexivity.
Qed.

Lemma keepInArena_clamps_witness :
  inside_arena defaultConfig
    (position (keepInArena defaultConfig
                 (set_position (mkVec (Fin 70) (Fin 1) (Fin (-3))) createCommander))).
Proof.
  apply (keepInArena_clamps defaultConfig
           (set_position (mkVec (Fin 70) (Fin 1) (Fin (-3))) createCommander)
           100 70 (-3) eq_refl ltac:(vm_compute; discriminate) eq_refl eq_refl).
Defined.

Lemma rallyNearbyFighters_commander (g : Game) :
  commander (rallyNearbyFighters g) = commander g
  /\ mouseIsDown (rallyNearbyFighters g) = mouseIsDown g
  /\ animal (rallyNearbyFighters g) = animal g
  /\ time (rallyNearbyFighters g) = time g
  /\ phase (rallyNearbyFighters g) = phase g.
Proof.
  unfold rallyNearbyFighters.
  destruct (commander g) eqn:E; cbn; rewrite ?E; auto.
Qed.

Lemma commanderAttack_commander (g : Game) (c : Unit) :
  commander g = Some c ->
  exists c' : Unit,
    commander (commanderAttack g) = Some c'
    /\ set_lastAttackTime (lastAttackTime c) c' = c.
Proof.
  intros Hc. unfold commanderAttack. rewrite Hc.
  destruct (animal g) as [a|] eqn:Ha;
    [|exists c; split; [exact Hc|destruct c; reflexivity]].
  destruct (_ <? _)%num;
    [exists c; split; [exact Hc|destruct c; reflexivity]|].
  destruct (_ <=? _)%num;
    [|exists c; split; [exact Hc|destruct c; reflexivity]].
  unfold recordDamageToAnimal. cbn.
  eexists. split; [reflexivity|]. destruct c; reflexivity.
Qed.

(** X10. After [updateCommander], with a finite frame time and camera angle
    and a commander at a finite position in an arena at least 4 wide, the
    commander is inside the arena bounds whatever keys are held; its health
    and state are untouched.  With none of W, A, S, D held it does not move:
    its velocity is zero, its rotation is kept and, if it was inside the
    arena, so is its position. *)
Theorem updateCommander_stays_in_arena :
  forall (cfg : Config) (keys : Keys) (theta d : Q) (g : Game) (c : Unit) (s : Q),
    arenaSize cfg = Fin s -> 4 <= s ->
    commander g = Some c -> vfinite (position c) = true ->
    exists c' : Unit,
      commander (updateCommander cfg keys (Fin theta) (Fin d) g) = Some c'
      /\ inside_arena cfg (position c')
      /\ health c' = health c /\ state c' = state c
      /\ (KeyW keys = false -> KeyS keys = false -> KeyA keys = false ->
          KeyD keys = false ->
          velocity c' = vzero /\ rotation c' = rotation c
          /\ (inside_arena cfg (position c) ->
              vec_eq (position c') (position c))).
Proof.
  intros cfg keys theta d g c s Hs H4 Hc Hfin.
  unfold updateCommander. rewrite Hc. cbv zeta.
  set (velocity1 := if KeyA keys then _ else _).
  set (rotation1 := if (vlengthSq velocity1 >? Fin 0.001)%num then _ else _).
  set (c1 := set_motion (vadd (position c) velocity1) velocity1 rotation1 c).
  set (g1 := g_set_commander (Some c1) g).
  set (g2 := if KeyE keys then rallyNearbyFighters g1 else g1).
  assert (Hc2 : commander g2 = Some c1).
  { subst g2. destruct (KeyE keys); [|reflexivity].
    destruct (rallyNearbyFighters_commander g1) as (E & _). rewrite E. reflexivity. }
  set (g3 := if mouseIsDown g2 then commanderAttack g2 else g2).
  assert (Hc3 : exists c3, commander g3 = Some c3
                           /\ set_lastAttackTime (lastAttackTime c1) c3 = c1).
  { subst g3. destruct (mouseIsDown g2).
    - apply commanderAttack_commander. exact Hc2.
    - exists c1. split; [exact Hc2|]. subst c1. destruct c; reflexivity. }
  destruct Hc3 as (c3 & Hc3 & E3). rewrite Hc3.
  exists (keepInArena cfg c3). split; [reflexivity|].
  assert (Hp3 : position c3 = vadd (position c) velocity1).
  { change (position c3) with (position (set_lastAttackTime (lastAttackTime c1) c3)).
    rewrite E3. reflexivity. }
  assert (Hv3 : velocity c3 = velocity1 /\ rotation c3 = rotation1
                /\ health c3 = health c /\ state c3 = state c).
  { change (velocity c3) with (velocity (set_lastAttackTime (lastAttackTime c1) c3)).
    change (rotation c3) with (rotation (set_lastAttackTime (lastAttackTime c1) c3)).
    change (health c3) with (health (set_lastAttackTime (lastAttackTime c1) c3)).
    change (state c3) with (state (set_lastAttackTime (lastAttackTime c1) c3)).
    rewrite E3. repeat split. }
  destruct Hv3 as (Hv3 & Hr3 & Hh3 & Hst3).
  destruct (position c) as [[x|] [y|] [z|]] eqn:Ep; try discriminate.
  assert (Hfv : exists vx1 vy1 vz1 : Q, velocity1 = mkVec (Fin vx1) (Fin vy1) (Fin vz1)).
  { subst velocity1.
    destruct (KeyW keys), (KeyS keys), (KeyA keys), (KeyD keys);
      eexists _, _, _; reflexivity. }
  destruct Hfv as (vx1 & vy1 & vz1 & Ev).
  split.
  { apply (keepInArena_inside cfg c3 s Hs H4); rewrite Hp3, Ev; reflexivity. }
  split; [exact Hh3|]. split; [exact Hst3|].
  intros HW HS HA HD.
  assert (Ev0 : velocity1 = vzero).
  { subst velocity1. rewrite HW, HS, HA, HD. reflexivity. }
  split; [change (velocity c3 = vzero); congruence|].
  split.
  { change (rotation (keepInArena cfg c3)) with (rotation c3).
    rewrite Hr3. subst rotation1. rewrite Ev0. reflexivity. }
  intros Hin.
  assert (Hin3 : inside_arena cfg (position c3)).
  { rewrite Hp3, Ev0. destruct Hin as (s0 & x0 & z0 & ? & Hx0 & Hz0 & Hbx & Hbz).
    cbn in Hx0, Hz0. injection Hx0 as <-. injection Hz0 as <-.
    exists s0, (x + 0), (z + 0). cbn. repeat split; try assumption; lra. }
  destruct (keepInArena_identity cfg c3 s Hs H4 Hin3) as (Hx & Hy & Hz).
  set (p' := position (keepInArena cfg c3)) in *. clearbody p'.
  rewrite Hp3, Ev0 in Hx, Hy, Hz.
  cbn [vadd vzero vx vy vz nadd num2] in Hx, Hy, Hz.
  unfold vec_eq. cbn [vx vy vz].
  destruct p' as [[x'|] [y'|] [z'|]]; cbn in *; try contradiction.
  repeat split; lra.
Qed.

(** X11. The books of the commander's attack balance: whatever
    [commanderAttack] takes from the animal's health it adds to
    [commanderDamageDealt] and to the damage recorded for the rage
    mechanics, so the sums health + damage dealt and health + recent damage
    are the same before and after (for a finite attack power).  Fighters,
    clock and the commander's own health are not touched, and an attack
    that is refused (cooldown not over, or animal farther than the attack
    range) changes nothing at all. *)
Theorem commanderAttack_books_balance :
  forall (g : Game) (a0 : Animal) (c0 : Unit),
    animal g = Some a0 -> commander g = Some c0 ->
    is_finite (attackPower c0) = true ->
    exists (a' : Animal) (c' : Unit),
      animal (commanderAttack g) = Some a'
      /\ commander (commanderAttack g) = Some c'
      /\ num_eq (a_health a' + commanderDamageDealt (commanderAttack g))%num
                (a_health a0 + commanderDamageDealt g)%num
      /\ num_eq (a_health a' + a_recentDamage a')%num
                (a_health a0 + a_recentDamage a0)%num
      /\ fighters (commanderAttack g) = fighters g
      /\ time (commanderAttack g) = time g
      /\ health c' = health c0
      /\ ((time g - lastAttackTime c0 <? attackCooldown c0)%num = true
          \/ (vdistanceTo (position c0) (a_position a0) <=? attackRange c0)%num
             = false ->
          commanderAttack g = g).
Proof.
  intros g a0 c0 Ha Hc Hfin. unfold commanderAttack. rewrite Ha, Hc.
  assert (Hrefl : num_eq (a_health a0 + commanderDamageDealt g)%num
                    (a_health a0 + commanderDamageDealt g)%num
                  /\ num_eq (a_health a0 + a_recentDamage a0)%num
                       (a_health a0 + a_recentDamage a0)%num)
    by (split; apply num_eq_refl).
  destruct (_ <? _)%num eqn:Ecd.
  { exists a0, c0. rewrite Ha, Hc. intuition. }
  destruct (_ <=? _)%num eqn:Erange.
  2:{ exists a0, c0. rewrite Ha, Hc. intuition. }
  cbv zeta. unfold recordDamageToAnimal. cbn.
  eexists _, _. split; [reflexivity|]. split; [reflexivity|]. cbn.
  destruct (attackPower c0) as [p|]; [|discriminate].
  split; [|split].
  - destruct (a_health a0) as [h|], (commanderDamageDealt g) as [dd|]; cbn; auto.
    ring.
  - destruct (a_health a0) as [h|], (a_recentDamage a0) as [r|]; cbn; auto.
    ring.
  - repeat split. intros [?|?]; discriminate.
Qed.

(** X12. A rally only raises influence flags: every fighter comes out of
    [rallyNearbyFighters] either untouched or, if it is not dead, with its
    [commanderInfluence] flag set and nothing else changed; a dead fighter is
    never flagged; nothing but the roster is written; and a second rally
    right after the first changes nothing more. *)
Theorem rallyNearbyFighters_only_flags :
  forall g : Game,
    Forall2 (fun u u' =>
               u' = u \/ (state u <> Dead /\ u' = set_commanderInfluence true u))
      (fighters g) (fighters (rallyNearbyFighters g))
    /\ g_set_fighters (fighters g) (rallyNearbyFighters g) = g
    /\ rallyNearbyFighters (rallyNearbyFighters g) = rallyNearbyFighters g.
Proof.
  intros g. unfold rallyNearbyFighters.
  destruct (commander g) as [c|] eqn:Hc.
  - cbv zeta. cbn [fighters g_set_fighters commander]. rewrite Hc.
    split; [|split].
    + apply Forall2_fmap_r, Forall_Forall2_diag, Forall_forall.
      intros u _. unfold compose. cbv beta. case_decide; [left; reflexivity|].
      destruct (_ <=? _)%num; [right; split; [assumption|reflexivity]|].
      left; reflexivity.
    + destruct g; reflexivity.
    + unfold g_set_fighters. cbn [phase fighters animal commander time score
        commanderDamageDealt mouseIsDown fighterAI uiMessages randomDraws].
      f_equal. rewrite <- list_fmap_compose. apply list_fmap_ext.
      intros i u _. unfold compose. cbv beta.
      destruct (decide (state u = Dead)) as [Hd|Hd].
      * destruct (decide (state u = Dead)); [reflexivity|contradiction].
      * destruct (vdistanceTo (position c) (position u) <=? Fin 15)%num eqn:E.
        -- cbn [state position set_commanderInfluence].
           destruct (decide (state u = Dead)); [contradiction|].
           rewrite E. reflexivity.
        -- destruct (decide (state u = Dead)); [contradiction|].
           rewrite E. reflexivity.
  - split; [apply Forall_Forall2_diag, Forall_forall; intros; left; reflexivity|].
    split; [destruct g; reflexivity|]. rewrite Hc. reflexivity.
Qed.

(** X13. [lerpAngle(a, b, t)] turns from [a] towards [b]: the step [d] it
    takes differs from [b - a] by a whole number of full turns and is below
    a half turn; with [t >= 1] the result is [a + d], that is [b] up to full
    turns, and with [t <= 1] it is [a + d * t].  When [b - a] is at least
    minus three half turns, [d] is the short way round, between minus a half
    turn and a half turn; when [b - a] is less than that, the remainder
    operator keeps the sign of its negative operand and [d] is the long way
    round, below minus a half turn. *)
Theorem lerpAngle_turns_towards_target :
  forall a b t : Q,
    0 < MPI ->
    exists (r d : Q) (k : Z),
      lerpAngle (Fin a) (Fin b) (Fin t) = Fin r
      /\ b - a == d + 2 * MPI * inject_Z k
      /\ d < MPI
      /\ (- (3 * MPI) <= b - a -> - MPI <= d)
      /\ (b - a < - (3 * MPI) -> - (3 * MPI) < d <= - MPI)
      /\ (1 <= t -> r == a + d)
      /\ (t <= 1 -> r == a + d * t).
Proof.
  intros a b t Hpi. unfold lerpAngle, nPI. cbv zeta.
  cbn [nsub nadd nmul nmin nmod num1 num2].
  assert (Hy : Qeq_bool (MPI * 2) 0 = false).
  { apply Qeq_bool_false. lra. }
  rewrite Hy. cbn [nsub nadd nmul num2].
  set (x := b - a + MPI * 3). set (y := MPI * 2) in *.
  set (q := Qtrunc (x / y)).
  exists (a + (x - y * inject_Z q - MPI) * (if Qle_bool 1 t then 1 else t)),
    (x - y * inject_Z q - MPI), (q - 1)%Z.
  split; [reflexivity|].
  unfold Z.sub. rewrite inject_Z_plus. change (inject_Z (Z.opp 1)) with (-1).
  split; [subst x y; ring|].
  assert (Hy0 : 0 < y) by (subst y; lra).
  assert (Hz : x == (x / y) * y) by (field; lra).
  set (z := x / y) in *.
  assert (Hx : x == b - a + MPI * 3) by reflexivity.
  assert (Hyd : y == MPI * 2) by reflexivity.
  clearbody z x y.
  assert (Hq : (0 <= z -> inject_Z q <= z < inject_Z q + 1)
               /\ (z < 0 -> inject_Z q - 1 < z <= inject_Z q)).
  { subst q. unfold Qtrunc. split; intros Hz0.
    - destruct (Qle_bool 0 z) eqn:E.
      + pose proof (Qfloor_le z). pose proof (Qlt_floor z) as H1.
        rewrite inject_Z_plus in H1. change (inject_Z 1) with 1 in H1. lra.
      + apply Qle_bool_false in E. lra.
    - destruct (Qle_bool 0 z) eqn:E.
      + apply Qle_bool_true in E. lra.
      + pose proof (Qle_ceiling z). pose proof (Qceiling_lt z) as H1.
        unfold Z.sub in H1. rewrite inject_Z_plus in H1.
        change (inject_Z (Z.opp 1)) with (-1) in H1. lra. }
  destruct Hq as (Hq1 & Hq2). clearbody q.
  assert (Hcases : 0 <= z \/ z < 0) by (destruct (Qlt_le_dec z 0); auto).
  assert (Hsign : 0 <= z <-> - (3 * MPI) <= b - a).
  { split; intros H.
    - assert (0 <= z * y) by (apply Qmult_le_0_compat; lra). lra.
    - destruct (Qlt_le_dec z 0) as [Hlt|]; [|assumption].
      assert (0 < (- z) * y) by (apply Qmult_lt_0_compat; lra). lra. }
  assert (Hd : forall lo hi : Q,
             lo < z - inject_Z q -> z - inject_Z q <= hi ->
             lo * y < x - y * inject_Z q /\ x - y * inject_Z q <= hi * y).
  { intros lo hi Hlo Hhi. split.
    - assert (0 < (z - inject_Z q - lo) * y) by (apply Qmult_lt_0_compat; lra).
      lra.
    - assert (0 <= (hi - (z - inject_Z q)) * y) by (apply Qmult_le_0_compat; lra).
      lra. }
  assert (Hd' : forall lo hi : Q,
             lo <= z - inject_Z q -> z - inject_Z q < hi ->
             lo * y <= x - y * inject_Z q /\ x - y * inject_Z q < hi * y).
  { intros lo hi Hlo Hhi. split.
    - assert (0 <= (z - inject_Z q - lo) * y) by (apply Qmult_le_0_compat; lra).
      lra.
    - assert (0 < (hi - (z - inject_Z q)) * y) by (apply Qmult_lt_0_compat; lra).
      lra. }
  split; [|split; [|split; [|split]]].
  - destruct Hcases as [H|H].
    + specialize (Hq1 H). destruct (Hd' 0 1) as (_ & H1); lra.
    + specialize (Hq2 H). destruct (Hd (-1) 0) as (_ & H1); lra.
  - intros H. apply Hsign in H. specialize (Hq1 H).
    destruct (Hd' 0 1) as (H1 & _); lra.
  - intros H.
    assert (Hneg : z < 0).
    { destruct (Qlt_le_dec z 0) as [|Hge]; [assumption|].
      apply Hsign in Hge. lra. }
    specialize (Hq2 Hneg). destruct (Hd (-1) 0) as (H1 & H2); lra.
  - intros H. destruct (Qle_bool 1 t) eqn:E; [ring|].
    apply Qle_bool_false in E. lra.
  - intros H. destruct (Qle_bool 1 t) eqn:E; [|reflexivity].
    apply Qle_bool_true in E. assert (Ht : t == 1) by lra. rewrite Ht. ring.
Qed.

End CommanderProperties.

(** ** Formations, continued *)

Section FormationProperties2.
Context {M : MathLib}.

Lemma of_nat_pred (n : nat) :
  (2 <= n)%nat ->
  (of_nat n - Fin 1)%num = Fin (inject_Z (Z.of_nat n) - 1)
  /\ 0 < inject_Z (Z.of_nat n) - 1.
Proof.
  intros Hn. split; [reflexivity|].
  assert (H : inject_Z 2 <= inject_Z (Z.of_nat n)) by (rewrite <- Zle_Qle; lia).
  change (inject_Z 2) with 2 in H. lra.
Qed.

(** X14. The line formation for two fighters or more, around a finite
    centre and direction: every slot is finite, at the height of the centre;
    the slots of the fighters [i] and [n - 1 - i] are mirror images about
    the centre; and neighbouring slots are one step apart along the
    perpendicular of the direction, the step being the line width,
    min(1.2 n, 30), divided by [n - 1]. *)
Theorem lineFormation_is_centred :
  forall (n i : nat) (center direction : Vec3),
    (2 <= n)%nat -> (i < n)%nat ->
    vfinite center = true -> vfinite direction = true ->
    vfinite (lineFormation i n center direction) = true
    /\ num_eq (vy (lineFormation i n center direction)) (vy center)
    /\ vec_eq (vadd (lineFormation i n center direction)
                    (lineFormation (n - 1 - i) n center direction))
              (vscale center (Fin 2))
    /\ ((S i < n)%nat ->
        vec_eq (vsub (lineFormation (S i) n center direction)
                     (lineFormation i n center direction))
               (vscale (mkVec (- vz direction)%num (Fin 0) (vx direction))
                  (nmin (of_nat n * Fin 1.2)%num (Fin 30)
                   / (of_nat n - Fin 1))%num)).
Proof.
  intros n i [[cx|] [cy|] [cz|]] [[dx|] [dy|] [dz|]] Hn Hi Hc Hd;
    try discriminate.
  destruct (of_nat_pred n Hn) as (Hpred & Hpos).
  assert (Hne : Qeq_bool (inject_Z (Z.of_nat n) - 1) 0 = false).
  { apply Qeq_bool_false. lra. }
  assert (HJ : inject_Z (Z.of_nat (n - 1 - i))
               == inject_Z (Z.of_nat n) - 1 - inject_Z (Z.of_nat i)).
  { rewrite !Nat2Z.inj_sub by lia. unfold Z.sub.
    rewrite !inject_Z_plus, !inject_Z_opp. change (inject_Z (Z.of_nat 1)) with 1.
    ring. }
  assert (HS : inject_Z (Z.of_nat (S i)) == inject_Z (Z.of_nat i) + 1).
  { rewrite Nat2Z.inj_succ. unfold Z.succ. rewrite inject_Z_plus. reflexivity. }
  unfold lineFormation. cbv zeta. rewrite Hpred. unfold of_nat.
  rewrite !ndiv_Fin by exact Hne.
  set (N := inject_Z (Z.of_nat n)) in *.
  set (I := inject_Z (Z.of_nat i)) in *.
  cbn [nmul nmin nsub num2 nneg num1 vx vy vz vadd vsub vscale nadd].
  set (w := if Qle_bool (N * 1.2) 30 then N * 1.2 else 30).
  rewrite ndiv_Fin by exact Hne.
  split; [reflexivity|]. unfold vec_eq.
  cbn [vx vy vz vadd vsub vscale nadd nsub nmul num2 num_eq].
  split; [ring|].
  split.
  - rewrite HJ. repeat split; field; lra.
  - intros _. rewrite HS. fold I. repeat split; field; lra.
Qed.

Lemma scatter_seed (i : nat) :
  nmod (of_nat i * Fin 13371)%num (Fin 17)
  = Fin (inject_Z ((Z.of_nat i * 13371) mod 17)).
Proof.
  unfold nmod, of_nat. cbn [nmul num2].
  change (Qeq_bool 17 0) with false. cbv iota.
  assert (Hnn : Qle_bool 0 (inject_Z (Z.of_nat i) * 13371 / 17) = true).
  { apply Qle_bool_iff. apply Qle_shift_div_l; [reflexivity|].
    assert (H : inject_Z 0 <= inject_Z (Z.of_nat i)) by (rewrite <- Zle_Qle; lia).
    change (inject_Z 0) with 0 in H. lra. }
  unfold Qtrunc. rewrite Hnn.
  unfold Qfloor, Qdiv, Qmult, Qminus, Qplus, Qopp, Qinv, inject_Z.
  cbn [Qnum Qden].
  change (Z.pos (1 * 1)) with 1%Z. change (Z.pos (1 * 1 * 17)) with 17%Z.
  change (1 * 1 * (1 * 1))%positive with 1%positive.
  rewrite !Z.mul_1_r. do 2 f_equal.
  rewrite (Z.mod_eq (Z.of_nat i * 13371) 17) by lia. ring.
Qed.

Lemma scatter_seed_period (i : nat) :
  ((Z.of_nat (i + 17) * 13371) mod 17 = (Z.of_nat i * 13371) mod 17)%Z.
Proof.
  rewrite Nat2Z.inj_add, Z.mul_add_distr_r.
  change (Z.of_nat 17 * 13371)%Z with (13371 * 17)%Z.
  apply Z_mod_plus_full.
Qed.

Lemma scatter_seed_residue (i : nat) :
  ((Z.of_nat i * 13371) mod 17 = (Z.of_nat (i mod 17) * 9) mod 17)%Z.
Proof.
  rewrite Nat2Z.inj_mod. change (Z.of_nat 17) with 17%Z.
  rewrite Z.mul_mod_idemp_l by lia.
  rewrite (Z.mul_mod (Z.of_nat i) 13371 17) by lia.
  rewrite (Z.mul_mod (Z.of_nat i) 9 17) by lia. reflexivity.
Qed.

(** X15. The scatter formation has 17 slots at most: the seed of a slot is
    9 x index modulo 17, so the fighters [i] and [i + 17] are sent to the very
    same point; and the distance from the centre is the seed modulo 7, so the
    seeds 0, 7 and 14, those of the fighters 0, 14 and 11 (and of every 17th
    after them), all give the centre itself. *)
Theorem scatterFormation_slots_repeat :
  forall (i n : nat) (center direction : Vec3),
    scatterFormation (i + 17) n center direction
    = scatterFormation i n center direction
    /\ ((i mod 17 = 0 \/ i mod 17 = 11 \/ i mod 17 = 14)%nat ->
        vfinite center = true ->
        vec_eq (scatterFormation i n center direction) center).
Proof.
  intros i n center direction. unfold scatterFormation. cbv zeta.
  rewrite !scatter_seed. split.
  - rewrite scatter_seed_period. reflexivity.
  - intros Hi Hc. rewrite scatter_seed_residue.
    destruct center as [[cx|] [cy|] [cz|]]; try discriminate.
    assert (Hd : exists s : Z,
               ((Z.of_nat (i mod 17) * 9) mod 17)%Z = s
               /\ nmod (Fin (inject_Z s)) (Fin 7) = Fin 0).
    { destruct Hi as [Hi|[Hi|Hi]]; rewrite Hi; eexists; split;
        try reflexivity; vm_compute; reflexivity. }
    destruct Hd as (s & -> & ->).
    unfold nPI, of_nat.
    cbn [nmul nmin num2].
    rewrite !ndiv_Fin by reflexivity.
    cbn [nmul nmin nsin ncos nadd num1 num2 vadd vx vy vz].
    unfold vec_eq. cbn [vadd nadd num2 vx vy vz num_eq].
    repeat split; field.
Qed.

End FormationProperties2.

(** ** The fighter engine, continued *)

Section FighterProperties2.
Context {M : MathLib}.

Lemma kept_refl (u : Unit) : kept_by_fighter_update u u.
Proof. repeat split; auto. Qed.

Lemma kept_trans (u v w : Unit) :
  kept_by_fighter_update u v -> kept_by_fighter_update v w ->
  kept_by_fighter_update u w.
Proof.
  intros (H1 & H2 & H3 & H4) (K1 & K2 & K3 & K4). repeat split.
  - congruence.
  - congruence.
  - intros Hd. rewrite <- (H3 Hd). apply K3. rewrite (H3 Hd). exact Hd.
  - intros Hd. apply K4, H4, Hd.
Qed.

Lemma updateLoopBody_entry (delta : num) (g : Game) (j : nat) (f : Unit) :
  fighters g !! j = Some f -> state f <> Dead ->
  exists f' : Unit,
    fighters (updateLoopBody delta g j) = <[j := f']> (fighters g)
    /\ kept_by_fighter_update f f'.
Proof.
  intros Hf Hlive.
  destruct (updateLoopBody_live delta g j f Hf Hlive)
    as (f' & g' & E & _ & Hh & _ & _ & _ & _ & Hs).
  exists f'. split; [rewrite E; reflexivity|].
  split; [exact Hh|]. split; [|split; [contradiction|intros _; exact Hs]].
  revert E. unfold updateLoopBody. rewrite Hf.
  destruct (decide (state f = Dead)); [contradiction|]. cbv zeta.
  pose proof (steering_body j f g) as (_ & _ & Hm1 & _).
  set (f1 := applyAvoidanceForce j _ g) in *.
  pose proof (applyCommanderInfluence_spec f1 g) as H2.
  destruct (applyCommanderInfluence f1 g) as [f2 g2]. cbn [fst snd] in H2.
  destruct H2 as (_ & _ & Hm2 & _ & _ & _ & _ & Hfs2 & _).
  set (f3 := if (health f2 <? maxHealth f2 * Fin 0.2)%num
             then applyFleeingForce f2 g2 else f2).
  assert (Hm3 : maxHealth f3 = maxHealth f2).
  { subst f3. destruct (_ <? _)%num; [|reflexivity].
    unfold applyFleeingForce. destruct (animal g2); reflexivity. }
  set (f4 := set_motion _ _ _ f3).
  pose proof (handleFighterAttacks_spec f4 g2) as H5.
  assert (Hm5 : maxHealth (fst (handleFighterAttacks f4 g2)) = maxHealth f4).
  { unfold handleFighterAttacks. destruct (animal g2); [|reflexivity].
    destruct (decide (state f4 <> Attacking)); [reflexivity|].
    destruct (_ && _); reflexivity. }
  destruct (handleFighterAttacks f4 g2) as [f5 g5]. cbn [fst snd] in H5, Hm5.
  destruct H5 as (_ & _ & _ & _ & Hfs5 & _).
  intros E. apply (f_equal fighters) in E.
  cbn [fighters g_set_fighters] in E. rewrite Hfs5, Hfs2 in E.
  assert (Hlen : (j < length (fighters g))%nat) by (eapply lookup_lt_Some; eauto).
  assert (E' : <[j := f5]> (fighters g) !! j = <[j := f']> (fighters g) !! j)
    by (rewrite E; reflexivity).
  rewrite !list_lookup_insert_eq in E' by exact Hlen.
  injection E' as <-. rewrite Hm5. subst f4. cbn [maxHealth set_motion].
  congruence.
Qed.

Lemma updateLoopBody_roster (delta : num) (g : Game) (j : nat) :
  Forall2 kept_by_fighter_update (fighters g)
    (fighters (updateLoopBody delta g j)).
Proof.
  assert (Hrefl : Forall2 kept_by_fighter_update (fighters g) (fighters g)).
  { apply Forall_Forall2_diag, Forall_forall. intros u _. apply kept_refl. }
  destruct (fighters g !! j) as [f|] eqn:Hf.
  - destruct (decide (state f = Dead)) as [Hd|Hd].
    + unfold updateLoopBody. rewrite Hf.
      destruct (decide (state f = Dead)); [exact Hrefl|contradiction].
    + destruct (updateLoopBody_entry delta g j f Hf Hd) as (f' & -> & Hk).
      apply Forall2_same_length_lookup_2; [rewrite length_insert; reflexivity|].
      intros i x y Hx Hy. destruct (decide (i = j)) as [->|Hij].
      * rewrite list_lookup_insert_eq in Hy by (eapply lookup_lt_Some; eauto).
        congruence.
      * rewrite list_lookup_insert_ne in Hy by congruence.
        assert (x = y) by congruence. subst y. apply kept_refl.
  - unfold updateLoopBody. rewrite Hf. exact Hrefl.
Qed.

Lemma updateLoop_roster (delta : num) (l : list nat) (g : Game) :
  Forall2 kept_by_fighter_update (fighters g)
    (fighters (fold_left (updateLoopBody delta) l g)).
Proof.
  revert g. induction l as [|j l IH]; intros g.
  - apply Forall_Forall2_diag, Forall_forall. intros u _. apply kept_refl.
  - cbn [fold_left].
    eapply Forall2_trans;
      [|apply updateLoopBody_roster|apply IH].
    intros u v w. apply kept_trans.
Qed.

(** X16. The fighter engine keeps the roster: [FighterAI.update] changes
    neither the number of fighters nor the health or maximum health of any
    of them; a dead fighter is left exactly as it is (no force, no move, no
    state change); a fighter that is not dead does not become dead; and the
    commander, the clock and the phase are not written. *)
Theorem FighterAI_update_keeps_roster :
  forall (delta : num) (g : Game),
    Forall2 kept_by_fighter_update (fighters g)
      (fighters (FighterAI_update delta g))
    /\ length (fighters (FighterAI_update delta g)) = length (fighters g)
    /\ commander (FighterAI_update delta g) = commander g
    /\ time (FighterAI_update delta g) = time g
    /\ phase (FighterAI_update delta g) = phase g.
Proof.
  intros delta g. unfold FighterAI_update.
  destruct (decide (phase g <> Battle)).
  - split; [apply Forall_Forall2_diag, Forall_forall; intros u _; apply kept_refl|].
    repeat split.
  - cbv zeta.
    destruct (updateFormationCenter_frame g) as ((Hp & Hc & Ht & _) & Hfs & _).
    set (g0 := updateFormationCenter g) in *.
    destruct (updateLoop_frame delta (seq 0 (length (fighters g0))) g0)
      as ((Kp & Kc & Kt & _) & Klen & _).
    split; [rewrite <- Hfs; apply updateLoop_roster|].
    split; [congruence|]. split; [congruence|]. split; congruence.
Qed.

Lemma updateLoopBody_animal (delta : num) (g : Game) (j : nat) :
  match animal g with
  | None => animal (updateLoopBody delta g j) = None
  | Some a =>
      animal (updateLoopBody delta g j) = Some a
      \/ animal (updateLoopBody delta g j)
         = Some (a_set_health (a_health a - Fin 1)%num a)
      \/ animal (updateLoopBody delta g j)
         = Some (a_set_health (a_health a - Fin 1 * Fin 1.5)%num a)
  end.
Proof.
  unfold updateLoopBody.
  destruct (fighters g !! j) as [f|]; [|destruct (animal g); auto].
  destruct (decide (state f = Dead)); [destruct (animal g); auto|]. cbv zeta.
  set (f1 := applyAvoidanceForce j _ g).
  pose proof (applyCommanderInfluence_spec f1 g) as H2.
  destruct (applyCommanderInfluence f1 g) as [f2 g2]. cbn [fst snd] in H2.
  destruct H2 as (_ & _ & _ & _ & _ & _ & Ha2 & _).
  set (f4 := set_motion _ _ _ _).
  pose proof (handleFighterAttacks_spec f4 g2) as H5.
  destruct (handleFighterAttacks f4 g2) as [f5 g5]. cbn [fst snd] in H5.
  destruct H5 as (_ & _ & _ & _ & _ & _ & Hn5 & Ha5).
  cbn [animal g_set_fighters]. rewrite Ha2 in Hn5, Ha5.
  destruct (animal g) as [a|]; [|apply Hn5; reflexivity].
  destruct (Ha5 a eq_refl) as [E|E]; [left; exact E|].
  destruct (commanderInfluence f4); [right; right|right; left]; exact E.
Qed.

Lemma updateLoop_animal (delta : num) (l : list nat) (g : Game) :
  match animal g with
  | None => animal (fold_left (updateLoopBody delta) l g) = None
  | Some a =>
      exists a' : Animal,
        animal (fold_left (updateLoopBody delta) l g) = Some a'
        /\ a' = a_set_health (a_health a') a
        /\ forall h : Q,
             a_health a = Fin h ->
             exists h' : Q,
               a_health a' = Fin h'
               /\ h - 1.5 * inject_Z (Z.of_nat (length l)) <= h' <= h
  end.
Proof.
  revert g. induction l as [|j l IH]; intros g.
  - cbn [fold_left]. destruct (animal g) as [a|]; [|reflexivity].
    exists a. split; [reflexivity|]. split; [destruct a; reflexivity|].
    intros h Hh. exists h. split; [exact Hh|]. cbn [length].
    change (inject_Z (Z.of_nat 0)) with 0. lra.
  - cbn [fold_left]. specialize (IH (updateLoopBody delta g j)).
    pose proof (updateLoopBody_animal delta g j) as H1.
    destruct (animal g) as [a|].
    + assert (Hstep : exists a1,
                 animal (updateLoopBody delta g j) = Some a1
                 /\ a1 = a_set_health (a_health a1) a
                 /\ forall h, a_health a = Fin h ->
                      exists h1, a_health a1 = Fin h1 /\ h - 1.5 <= h1 <= h).
      { destruct H1 as [E|[E|E]]; eexists; (split; [exact E|]);
          (split; [destruct a; reflexivity|]); intros h Hh;
          cbn [a_health a_set_health]; rewrite ?Hh; cbn [nsub nmul num2];
          eexists; (split; [reflexivity|]); lra. }
      destruct Hstep as (a1 & E1 & Hset1 & Hb1). rewrite E1 in IH.
      destruct IH as (a' & E' & Hset' & Hb'). exists a'.
      split; [exact E'|]. split.
      * rewrite Hset', Hset1. destruct a; reflexivity.
      * intros h Hh. destruct (Hb1 h Hh) as (h1 & Hh1 & Hr1).
        destruct (Hb' h1 Hh1) as (h' & Hh' & Hr').
        exists h'. split; [exact Hh'|].
        cbn [length]. rewrite Nat2Z.inj_succ. unfold Z.succ.
        rewrite inject_Z_plus. change (inject_Z 1) with 1. lra.
    + rewrite H1 in IH. exact IH.
Qed.

(** X17. Fighters' hits never feed the animal's rage.  [FighterAI.update]
    writes nothing of the animal but its health: the animal after the update
    is the animal before with another health, so its recent damage, rage
    flag, stats, target and position are the same (only the commander's
    attack reports damage to the rage mechanics).  A finite health does not
    rise, and falls by at most 1.5 for every fighter on the roster. *)
Theorem FighterAI_update_only_lowers_animal_health :
  forall (delta : num) (g : Game) (a : Animal),
    animal g = Some a ->
    exists a' : Animal,
      animal (FighterAI_update delta g) = Some a'
      /\ a' = a_set_health (a_health a') a
      /\ a_recentDamage a' = a_recentDamage a
      /\ a_isEnraged a' = a_isEnraged a
      /\ forall h : Q,
           a_health a = Fin h ->
           exists h' : Q,
             a_health a' = Fin h'
             /\ h - 1.5 * inject_Z (Z.of_nat (length (fighters g))) <= h' <= h.
Proof.
  intros delta g a Ha. unfold FighterAI_update.
  destruct (decide (phase g <> Battle)).
  - exists a. split; [exact Ha|]. split; [destruct a; reflexivity|].
    split; [reflexivity|]. split; [reflexivity|].
    intros h Hh. exists h. split; [exact Hh|].
    assert (0 <= inject_Z (Z.of_nat (length (fighters g)))).
    { change 0 with (inject_Z 0). rewrite <- Zle_Qle. lia. }
    lra.
  - cbv zeta.
    destruct (updateFormationCenter_frame g) as (_ & Hfs & Ha0).
    set (g0 := updateFormationCenter g) in *.
    pose proof (updateLoop_animal delta (seq 0 (length (fighters g0))) g0) as H.
    rewrite Ha0, Ha in H. destruct H as (a' & E & Hset & Hb).
    exists a'. split; [exact E|]. split; [exact Hset|].
    split; [rewrite Hset; reflexivity|]. split; [rewrite Hset; reflexivity|].
    intros h Hh. destruct (Hb h Hh) as (h' & Hh' & Hr).
    exists h'. split; [exact Hh'|]. rewrite length_seq, Hfs in Hr. exact Hr.
Qed.

End FighterProperties2.

(** ** Key presses *)

Section InputProperties.
Variable random : nat -> Q.

Lemma formations_None_inv (name : string) :
  formations !! name = None ->
  name <> "circle" /\ name <> "line" /\ name <> "arrow" /\ name <> "scatter".
Proof.
  intros H. repeat split; intros ->; vm_compute in H; discriminate.
Qed.

(** X18. The F key always leaves a formation that exists.  In the battle
    phase a press of F moves the formation one step along circle, line,
    arrow, scatter and back to circle; from a [currentFormation] that names
    none of the four (which [setFormation] can install, with a name
    inherited from [Object.prototype]) the press selects the circle.
    Nothing but the formation name is written. *)
Theorem handleKeyPress_KeyF_cycles :
  forall (cfg : Config) (mode : CameraMode) (m : AnimalMind) (g : Game),
    phase g = Battle ->
    exists name : string,
      handleKeyPress random cfg "KeyF" true (mode, m, g)
      = Ok (mode, m,
            g_set_fighterAI (set_currentFormation name (fighterAI g)) g)
      /\ formations !! name <> None
      /\ (currentFormation (fighterAI g) = "circle" -> name = "line")
      /\ (currentFormation (fighterAI g) = "line" -> name = "arrow")
      /\ (currentFormation (fighterAI g) = "arrow" -> name = "scatter")
      /\ (currentFormation (fighterAI g) = "scatter" -> name = "circle")
      /\ (formations !! currentFormation (fighterAI g) = None ->
          name = "circle").
Proof.
  intros cfg mode m g Hp. unfold handleKeyPress. cbn [negb].
  destruct (decide ("KeyF" = "Space")) as [E|_]; [discriminate E|].
  destruct (decide ("KeyF" = "KeyF")) as [_|E]; [|contradiction].
  destruct (decide (phase g = Battle)) as [_|E]; [|contradiction].
  cbv zeta. unfold indexOf. cbn [indexOf_from].
  set (cur := currentFormation (fighterAI g)).
  assert (Hcases : cur = "circle" \/ cur = "line" \/ cur = "arrow"
                   \/ cur = "scatter" \/ formations !! cur = None).
  { destruct (formations !! cur) as [f|] eqn:E; [|auto].
    unfold formations in E.
    repeat (apply lookup_insert_Some in E as [[<- _]|[_ E]]; [auto|]).
    apply lookup_singleton_Some in E as [<- _]. auto. }
  destruct Hcases as [E|[E|[E|[E|E]]]].
  - rewrite E. exists "line". split; [reflexivity|].
    split; [vm_compute; discriminate|]. repeat split; intros H; try reflexivity; try discriminate H;
      try (vm_compute in H; discriminate H).
  - rewrite E. exists "arrow". split; [reflexivity|].
    split; [vm_compute; discriminate|]. repeat split; intros H; try reflexivity; try discriminate H;
      try (vm_compute in H; discriminate H).
  - rewrite E. exists "scatter". split; [reflexivity|].
    split; [vm_compute; discriminate|]. repeat split; intros H; try reflexivity; try discriminate H;
      try (vm_compute in H; discriminate H).
  - rewrite E. exists "circle". split; [reflexivity|].
    split; [vm_compute; discriminate|]. repeat split; intros H; try reflexivity; try discriminate H;
      try (vm_compute in H; discriminate H).
  - destruct (formations_None_inv cur E) as (H1 & H2 & H3 & H4).
    destruct (decide ("circle" = cur)); [congruence|].
    destruct (decide ("line" = cur)); [congruence|].
    destruct (decide ("arrow" = cur)); [congruence|].
    destruct (decide ("scatter" = cur)); [congruence|].
    exists "circle". split; [reflexivity|].
    split; [vm_compute; discriminate|]. repeat split; intros H; try reflexivity; contradiction.
Qed.

End InputProperties.

(** ** Combat resolution, continued *)

Section CombatProperties2.
Variable random : nat -> Q.

Lemma only_units_refl (g : Game) : only_units_written g g.
Proof. split; [destruct g; reflexivity|]. split; [reflexivity|tauto]. Qed.

Lemma only_units_trans (g1 g2 g3 : Game) :
  only_units_written g1 g2 -> only_units_written g2 g3 ->
  only_units_written g1 g3.
Proof.
  intros (H1 & L1 & C1) (H2 & L2 & C2).
  split; [|split; [congruence|tauto]].
  destruct g1, g2, g3. unfold g_set_randomDraws, g_set_commander, g_set_fighters in *.
  cbn in *. inversion H1; inversion H2; subst. reflexivity.
Qed.

Lemma hit_frame (b : num) (g : Game) (r : TargetRef) :
  only_units_written g (hit random b g r)
  /\ (forall r', r' <> r -> deref (hit random b g r) r' = deref g r')
  /\ (randomDraws g <= randomDraws (hit random b g r) <= S (randomDraws g))%nat.
Proof.
  unfold hit. destruct (deref g r) as [u|] eqn:Hu;
    [|split; [apply only_units_refl|split; [reflexivity|lia]]].
  destruct (decide (state u = Dead));
    [split; [apply only_units_refl|split; [reflexivity|lia]]|].
  cbn [draw]. cbv zeta. set (u' := if (_ <=? _)%num then _ else _).
  destruct r as [i|]; cbn [assign deref] in *.
  - split; [|split].
    + split; [destruct g; reflexivity|].
      cbn [fighters commander g_set_fighters g_set_randomDraws].
      split; [apply length_insert|tauto].
    + intros [j|] Hne; cbn [deref fighters commander g_set_fighters
                             g_set_randomDraws]; [|reflexivity].
      apply list_lookup_insert_ne. congruence.
    + cbn. lia.
  - split; [|split].
    + split; [destruct g; reflexivity|].
      cbn [fighters commander g_set_commander g_set_randomDraws].
      split; [reflexivity|]. rewrite Hu. split; discriminate.
    + intros [j|] Hne; cbn [deref fighters commander g_set_commander
                             g_set_randomDraws]; [reflexivity|congruence].
    + cbn. lia.
Qed.

Lemma hits_frame (b : num) (targets : list TargetRef) (g : Game) :
  only_units_written g (fold_left (hit random b) targets g)
  /\ (forall r', r' ∉ targets ->
      deref (fold_left (hit random b) targets g) r' = deref g r')
  /\ (randomDraws g <= randomDraws (fold_left (hit random b) targets g)
      <= randomDraws g + length targets)%nat.
Proof.
  revert g. induction targets as [|r targets IH]; intros g.
  - cbn [fold_left length]. split; [apply only_units_refl|].
    split; [reflexivity|lia].
  - cbn [fold_left length].
    destruct (hit_frame b g r) as (H1 & H2 & H3).
    destruct (IH (hit random b g r)) as (K1 & K2 & K3).
    split; [eapply only_units_trans; eassumption|]. split; [|lia].
    intros r' Hr'. apply not_elem_of_cons in Hr' as (Hne & Hnin).
    etransitivity; [apply K2; exact Hnin|apply H2; exact Hne].
Qed.

(** X19. [performAttack] touches only its targets: a fighter or commander
    that is not among the targets is left exactly as it was; no fighter is
    added or removed; nothing else in the game is written (animal, clock,
    phase, score, formations); at most one random value is drawn per target;
    and a call refused by the cooldown changes nothing at all. *)
Theorem performAttack_touches_only_targets :
  forall (a : Animal) (g : Game) (targets : list TargetRef) (b : num),
    let r := performAttack random a g targets b in
    only_units_written g (snd r)
    /\ (forall r', r' ∉ targets -> deref (snd r) r' = deref g r')
    /\ (randomDraws g <= randomDraws (snd r)
        <= randomDraws g + length targets)%nat
    /\ (fst (fst r) = false -> r = (false, a, g)).
Proof.
  intros a g targets b. unfold performAttack.
  destruct (_ <? _)%num; cbn [fst snd].
  - split; [apply only_units_refl|]. split; [reflexivity|]. split; [lia|].
    reflexivity.
  - destruct (hits_frame b targets g) as (H1 & H2 & H3).
    split; [exact H1|]. split; [exact H2|]. split; [exact H3|]. discriminate.
Qed.


End CombatProperties2.

(** ** The animal's senses and behaviours *)

Section AnimalProperties.
Context {M : MathLib}.
Variable random : nat -> Q.

Lemma radius_loop (a : Animal) (radius : num) (h : nat -> nat)
    (l : list Unit) (acc : list TargetRef) (n : nat) :
  let results :=
    fold_left
      (fun (results : list TargetRef) (entry : nat * Unit) =>
         let (i, fighter) := entry in
         if decide (state fighter = Dead) then results
         else
           let distance := vdistanceTo (a_position a) (position fighter) in
           if (distance <=? radius)%num then results ++ [RFighter i]
           else results)
      (imap (fun i x => (h i, x)) l) acc in
  (forall r, r ∈ results <->
     r ∈ acc
     \/ exists i f, l !! i = Some f /\ state f <> Dead
          /\ (vdistanceTo (a_position a) (position f) <=? radius)%num = true
          /\ r = RFighter (h i))
  /\ (length acc = n ->
      length results
      = fold_left
          (fun (count : nat) (fighter : Unit) =>
             if decide (state fighter = Dead) then count
             else
               let distance := vdistanceTo (a_position a) (position fighter) in
               if (distance <=? radius)%num then S count else count)
          l n).
Proof.
  revert h acc n. induction l as [|f l IH]; intros h acc n; cbv zeta.
  - cbn. split; [|auto]. intros r. split; [auto|].
    intros [H|(i & f & H & _)]; [exact H|]. rewrite lookup_nil in H. discriminate.
  - rewrite imap_cons. cbn [fold_left].
    set (acc' := if decide (state f = Dead) then acc else _).
    specialize (IH (h ∘ S) acc'). cbv zeta in IH.
    split.
    + intros r. destruct (IH 0%nat) as (IH1 & _). rewrite (IH1 r). clear IH1.
      split.
      * intros [Hr|(i & f' & Hl & Hs & Hd & ->)].
        -- subst acc'. destruct (decide (state f = Dead)); [left; exact Hr|].
           destruct (_ <=? _)%num eqn:E; [|left; exact Hr].
           apply elem_of_app in Hr as [Hr|Hr]; [left; exact Hr|].
           apply list_elem_of_singleton in Hr. right. exists 0%nat, f. auto.
        -- right. exists (S i), f'. auto.
      * intros [Hr|(i & f' & Hl & Hs & Hd & ->)].
        -- left. subst acc'. destruct (decide (state f = Dead)); [exact Hr|].
           destruct (_ <=? _)%num; [|exact Hr]. apply elem_of_app. left. exact Hr.
        -- destruct i as [|i].
           ++ cbn in Hl. injection Hl as <-. left. subst acc'.
              destruct (decide (state f = Dead)); [contradiction|].
              rewrite Hd. apply elem_of_app. right. apply list_elem_of_singleton.
              reflexivity.
           ++ right. exists i, f'. auto.
    + intros Hlen. destruct (IH 0%nat) as (_ & _).
      subst acc'. destruct (decide (state f = Dead)).
      * apply (IH n). exact Hlen.
      * cbv zeta. destruct (_ <=? _)%num.
        -- apply (IH (S n)). rewrite length_app. cbn. lia.
        -- apply (IH n). exact Hlen.
Qed.

(** X21. [getFightersInRadius] returns exactly the fighters that are not
    dead and stand within the radius of the animal, and the commander when it
    stands within the radius -- also a dead commander, whose state is not
    looked at; [countNearbyFighters] is the length of that list. *)
Theorem getFightersInRadius_spec :
  forall (a : Animal) (g : Game) (radius : num),
    (forall i : nat,
        RFighter i ∈ getFightersInRadius a g radius <->
        exists f : Unit,
          fighters g !! i = Some f /\ state f <> Dead
          /\ (vdistanceTo (a_position a) (position f) <=? radius)%num = true)
    /\ (RCommander ∈ getFightersInRadius a g radius <->
        exists c : Unit,
          commander g = Some c
          /\ (vdistanceTo (a_position a) (position c) <=? radius)%num = true)
    /\ countNearbyFighters a g radius
       = length (getFightersInRadius a g radius).
Proof.
  intros a g radius. unfold getFightersInRadius, countNearbyFighters. cbv zeta.
  destruct (radius_loop a radius id (fighters g) [] 0%nat) as (Hin & Hlen).
  cbv zeta in Hin, Hlen. specialize (Hlen eq_refl).
  change (imap (fun i x => (id i, x)) (fighters g))
    with (imap pair (fighters g)) in Hin, Hlen.
  set (results := fold_left _ (imap pair (fighters g)) []) in *.
  assert (Hf : forall i, RFighter i ∈ results <->
                 exists f, fighters g !! i = Some f /\ state f <> Dead
                   /\ (vdistanceTo (a_position a) (position f) <=? radius)%num
                      = true).
  { intros i. rewrite Hin. split.
    - intros [H|(j & f & Hl & Hs & Hd & E)]; [inversion H|].
      injection E as ->. exists f. auto.
    - intros (f & Hl & Hs & Hd). right. exists i, f. auto. }
  assert (Hc : RCommander ∉ results).
  { rewrite Hin. intros [H|(j & f & _ & _ & _ & E)]; [inversion H|discriminate]. }
  destruct (commander g) as [c|].
  - destruct (_ <=? _)%num eqn:E.
    + split; [|split].
      * intros i. rewrite elem_of_app, Hf. split; [|auto].
        intros [H|H]; [exact H|]. apply list_elem_of_singleton in H. discriminate.
      * split; [intros _; exists c; auto|intros _].
        apply elem_of_app. right. apply list_elem_of_singleton. reflexivity.
      * rewrite length_app. cbn. rewrite <- Hlen. lia.
    + split; [exact Hf|]. split; [|symmetry; exact Hlen].
      split; [intros H; contradiction|].
      intros (c' & Hc' & Hd). injection Hc' as <-. congruence.
  - split; [exact Hf|]. split; [|symmetry; exact Hlen].
    split; [intros H; contradiction|]. intros (c' & Hc' & _). discriminate.
Qed.

Lemma cone_loop_result (a : Animal) (radius angle : num)
    (step := fun (results : list TargetRef) (entry : nat * Unit) =>
       let (i, fighter) := entry in
       if decide (state fighter = Dead) then Ok results
       else
         let toFighter := vsub (position fighter) (a_position a) in
         let distance := vlength toFighter in
         if (distance >? radius)%num then Ok results
         else
           let toFighter := vnormalize toFighter in
           let dotProduct :=
             vdot toFighter
               (applyAxisAngleY (mkVec (Fin 0) (Fin 0) (Fin (-1))) (a_rotation a)) in
           do clamped <- Math_clamp dotProduct (Fin (-1)) (Fin 1);
           let angleToFighter := nacos clamped in
           if (angleToFighter <=? angle / Fin 2)%num
           then Ok (results ++ [RFighter i])
           else Ok results)
    (entries : list (nat * Unit)) (acc : list TargetRef) :
  foldM step entries acc = Ok acc \/ foldM step entries acc = Throw clamp_error.
Proof.
  revert acc. induction entries as [|[j u] entries IH]; intros acc.
  - left. reflexivity.
  - cbn [foldM]. subst step. cbv beta iota zeta.
    destruct (decide (state u = Dead)); [apply IH|].
    destruct (_ >? _)%num; [apply IH|]. right. reflexivity.
Qed.

Lemma getFightersInCone_result (a : Animal) (g : Game) (radius angle : num) :
  getFightersInCone a g radius angle = Ok []
  \/ getFightersInCone a g radius angle = Throw clamp_error.
Proof.
  unfold getFightersInCone. cbv zeta.
  pose proof (cone_loop_result a radius angle (imap pair (fighters g)) []) as H.
  cbv beta zeta in H. destruct H as [E|E]; rewrite E; [|right; reflexivity].
  cbn [bind]. destruct (commander g) as [c|]; [|left; reflexivity].
  destruct (_ <=? _)%num; [right; reflexivity|left; reflexivity].
Qed.

Lemma executeSwipeBehavior_Ok_inv :
  forall (a a' : Animal) (g g' : Game) (delta : num),
    executeSwipeBehavior random a g delta = Ok (a', g') ->
    g' = g
    /\ a_set_velocity (a_velocity a) a' = a
    /\ forall (a0 : Animal) (radius angle : num),
         getFightersInCone a0 g radius angle = Ok []
         \/ getFightersInCone a0 g radius angle = Throw clamp_error.
Proof.
  intros a a' g g' delta. unfold executeSwipeBehavior.
  destruct (a_target a) as [r|];
    [|intros E; injection E as <- <-; repeat split;
      [destruct a; reflexivity|intros; apply getFightersInCone_result]].
  destruct (deref g r) as [target|];
    [|intros E; injection E as <- <-; repeat split;
      [destruct a; reflexivity|intros; apply getFightersInCone_result]].
  cbv zeta.
  destruct (getFightersInCone_result
              (a_set_velocity
                 (vscale (vnormalize (vsub (position target) (a_position a)))
                    (a_moveSpeed a * Fin 0.5 * delta)%num) a)
              g (a_attackRange
                   (a_set_velocity
                      (vscale (vnormalize (vsub (position target) (a_position a)))
                         (a_moveSpeed a * Fin 0.5 * delta)%num) a) * Fin 1.5)%num
              (nPI / Fin 2)%num) as [E|E]; rewrite E; [|discriminate].
  cbn [bind length Nat.ltb Nat.leb]. intros K. injection K as <- <-.
  split; [reflexivity|]. split; [destruct a; reflexivity|].
  intros. apply getFightersInCone_result.
Qed.

(** X22. The cone attack never hurts anyone.  [getFightersInCone] returns
    normally only when it has found nobody to test: whatever the radius and
    the angle, it returns the empty list or throws.  So whenever
    [executeSwipeBehavior] (the sweep, swipe and tuskSwipe behaviours)
    returns, the game is exactly as it was and the animal differs at most in
    its velocity: no damage is dealt and no cooldown is used. *)
Theorem executeSwipeBehavior_never_hits :
  forall (a a' : Animal) (g g' : Game) (delta : num),
    executeSwipeBehavior random a g delta = Ok (a', g') ->
    g' = g
    /\ a_set_velocity (a_velocity a) a' = a
    /\ forall (a0 : Animal) (radius angle : num),
         getFightersInCone a0 g radius angle = Ok []
         \/ getFightersInCone a0 g radius angle = Throw clamp_error.
Proof. exact executeSwipeBehavior_Ok_inv. Qed.

(** X23. The trample never happens.  The animal object has no [size]
    property, so [executeTrampleBehavior] throws a [TypeError] whenever the
    animal has a target, before it looks for anyone to hit; and
    [executeBehavior] with the behaviour 'trample' (a behaviour of the
    elephant and of the rhinoceros) throws with it, so the countdown of the
    special cooldowns is not reached in that frame. *)
Theorem executeTrampleBehavior_throws :
  forall (m : AnimalMind) (a : Animal) (g : Game) (delta : num)
         (r : TargetRef) (target : Unit),
    a_target a = Some r -> deref g r = Some target ->
    executeTrampleBehavior random a g delta
    = Throw (TypeError "Cannot read properties of undefined (reading 'x')")
    /\ (a_currentBehavior a = Some "trample" ->
        executeBehavior random m a g delta
        = Throw (TypeError "Cannot read properties of undefined (reading 'x')")).
Proof.
  intros m a g delta r target Ht Hr. split.
  - unfold executeTrampleBehavior. rewrite Ht, Hr. reflexivity.
  - intros Hb. unfold executeBehavior. cbv zeta.
    cbn [a_currentBehavior a_set_velocity]. rewrite Hb.
    unfold default, from_option, id.
    unfold executeTrampleBehavior. cbn [a_target a_set_velocity].
    rewrite Ht, Hr. reflexivity.
Qed.

Lemma Qsq_nonneg (x : Q) : 0 <= x * x.
Proof. destruct (Qlt_le_dec x 0); nra. Qed.

Lemma target_loop (m : AnimalMind) (a : Animal) (h : nat -> nat)
    (l : list Unit) (t0 : num) (b0 : option TargetRef) (g0 : Game) :
  let r :=
    fold_left
      (fun (acc : num * option TargetRef * Game) (entry : nat * Unit) =>
         let '(highestThreat, bestTarget, g) := acc in
         let (i, fighter) := entry in
         if decide (state fighter = Dead) then acc
         else
           let threatLevel := Fin 0 in
           let distance := vdistanceTo (a_position a) (position fighter) in
           let threatLevel :=
             (threatLevel + (Fin 50 - nmin (Fin 50) distance) / Fin 50)%num in
           let threatLevel := (threatLevel + health fighter / Fin 100)%num in
           let threatLevel :=
             if decide (state fighter = Attacking)
             then (threatLevel + Fin 0.3)%num else threatLevel in
           let '(rnd, g) := draw random g in
           let threatLevel := (threatLevel + rnd * Fin 0.2)%num in
           let '(rnd, g) := draw random g in
           let threatLevel :=
             if (rnd <? intelligence m)%num && (health fighter <? Fin 30)%num
             then (threatLevel + Fin 0.5)%num else threatLevel in
           if (threatLevel >? highestThreat)%num
           then (threatLevel, Some (RFighter i), g)
           else (highestThreat, bestTarget, g))
      (imap (fun i x => (h i, x)) l) (t0, b0, g0) in
  ((fst (fst r) = t0 /\ snd (fst r) = b0)
   \/ exists i f, l !! i = Some f /\ state f <> Dead
        /\ snd (fst r) = Some (RFighter (h i)))
  /\ snd r
     = g_set_randomDraws
         (randomDraws g0 + 2 * length (filter (fun f => state f <> Dead) l)) g0.
Proof.
  revert h t0 b0 g0. induction l as [|f l IH]; intros h t0 b0 g0; cbv zeta.
  - cbn. split; [left; auto|]. rewrite Nat.add_0_r. destruct g0; reflexivity.
  - rewrite imap_cons. cbn [fold_left].
    destruct (decide (state f = Dead)) as [Hd|Hd].
    + specialize (IH (h ∘ S) t0 b0 g0). cbv zeta in IH.
      destruct IH as (IH1 & IH2). split.
      * destruct IH1 as [IH1|(i & f' & Hl & Hs & Hb)]; [left; exact IH1|].
        right. exists (S i), f'. auto.
      * etransitivity; [exact IH2|]. rewrite filter_cons_False by tauto. reflexivity.
    + cbn [draw]. cbv zeta.
      set (g2 := g_set_randomDraws (S (randomDraws (g_set_randomDraws _ g0))) _).
      set (t1 := if (_ && _) then _ else _).
      assert (Hg2 : g2 = g_set_randomDraws (randomDraws g0 + 2) g0).
      { subst g2. cbn. replace (randomDraws g0 + 2)%nat
          with (S (S (randomDraws g0))) by lia. reflexivity. }
      assert (Hlen : forall g1 : Game,
                 g_set_randomDraws
                   (randomDraws g2
                    + 2 * length (filter (fun f => state f <> Dead) l)) g2
                 = g_set_randomDraws
                     (randomDraws g0
                      + 2 * length (filter (fun f => state f <> Dead) (f :: l)))
                     g0).
      { intros _. rewrite filter_cons_True by exact Hd. rewrite Hg2.
        unfold g_set_randomDraws.
        cbn [phase fighters animal commander time score commanderDamageDealt
             mouseIsDown fighterAI uiMessages randomDraws length].
        f_equal. lia. }
      destruct (t1 >? t0)%num.
      * specialize (IH (h ∘ S) t1 (Some (RFighter (h 0%nat))) g2).
        cbv zeta in IH. destruct IH as (IH1 & IH2). split.
        -- right. destruct IH1 as [(_ & IH1)|(i & f' & Hl & Hs & Hb)].
           ++ exists 0%nat, f. auto.
           ++ exists (S i), f'. auto.
        -- etransitivity; [exact IH2|]. apply Hlen. exact g0.
      * specialize (IH (h ∘ S) t0 b0 g2).
        cbv zeta in IH. destruct IH as (IH1 & IH2). split.
        -- destruct IH1 as [IH1|(i & f' & Hl & Hs & Hb)]; [left; exact IH1|].
           right. exists (S i), f'. auto.
        -- etransitivity; [exact IH2|]. apply Hlen. exact g0.
Qed.

Lemma findNewTarget_inv :
  forall (m : AnimalMind) (a : Animal) (g : Game),
    let a' := fst (findNewTarget random m a g) in
    let g' := snd (findNewTarget random m a g) in
    (forall i : nat,
        a_target a' = Some (RFighter i) ->
        exists f : Unit, fighters g !! i = Some f /\ state f <> Dead)
    /\ (a_target a' = Some RCommander -> commander g <> None)
    /\ (a_target a' = None -> a_state a' = Searching)
    /\ (a_target a' <> None -> a_state a' = a_state a)
    /\ a' = a_set_target (a_target a') (a_state a') a
    /\ g' = g_set_randomDraws
              (randomDraws g
               + 2 * length (filter (fun f => state f <> Dead) (fighters g))) g
    /\ (Forall (fun f => state f = Dead) (fighters g) -> commander g = None ->
        a_target a' = None)
    /\ (forall (c : Unit) (hc q : Q),
          commander g = Some c -> health c = Fin hc -> 0 <= hc ->
          intelligence m = Fin q -> 0 <= q ->
          vfinite (position c) = true -> vfinite (a_position a) = true ->
          (forall x : Q, 0 <= x -> 0 <= Msqrt x) ->
          a_target a' <> None).
Proof.
  intros m a g. cbv zeta. unfold findNewTarget.
  pose proof (target_loop m a id (fighters g) (Fin (-1)) None g) as H.
  cbv zeta in H.
  change (imap (fun i x => (id i, x)) (fighters g))
    with (imap pair (fighters g)) in H.
  destruct (fold_left _ (imap pair (fighters g)) (Fin (-1), None, g))
    as [[t b] g1]. cbn [fst snd] in H. destruct H as (Hb & Hg).
  assert (Hcg : commander g1 = commander g) by (rewrite Hg; reflexivity).
  rewrite Hcg.
  match goal with
  | |- context [match commander g with Some c => @?F c | None => b end] =>
      set (b' := match commander g with Some c => F c | None => b end)
  end.
  assert (Hb' : b' = b \/ (b' = Some RCommander /\ commander g <> None)).
  { subst b'. destruct (commander g); [|auto].
    destruct (_ >? _)%num; [right; split; [reflexivity|discriminate]|auto]. }
  assert (Hres : fst (match b' with
                      | Some _ => (a_set_target b' (a_state a) a, g1)
                      | None => (a_set_target None Searching a, g1)
                      end)
                 = a_set_target b' (if b' is Some _ then a_state a else Searching) a
                 /\ snd (match b' with
                         | Some _ => (a_set_target b' (a_state a) a, g1)
                         | None => (a_set_target None Searching a, g1)
                         end) = g1).
  { destruct b'; split; reflexivity. }
  destruct Hres as (-> & ->). cbn [a_target a_state a_set_target].
  assert (Hfight : forall i, b = Some (RFighter i) ->
                     exists f, fighters g !! i = Some f /\ state f <> Dead).
  { intros i Hi. destruct Hb as [(_ & Hb)|(j & f & Hl & Hs & Hb)];
      [congruence|]. rewrite Hb in Hi. injection Hi as <-. exists f. auto. }
  assert (HbC : b <> Some RCommander).
  { destruct Hb as [(_ & Hb)|(j & f & _ & _ & Hb)]; congruence. }
  split; [|split; [|split; [|split; [|split; [|split; [|split]]]]]].
  - intros i Hi. apply Hfight.
    destruct Hb' as [E|(E & _)]; congruence.
  - intros Hi. destruct Hb' as [E|(_ & E)]; [congruence|exact E].
  - intros Hi. rewrite Hi. reflexivity.
  - intros Hi. destruct b'; [reflexivity|contradiction].
  - reflexivity.
  - exact Hg.
  - intros Hall Hnc. subst b'. rewrite Hnc.
    destruct Hb as [(_ & Hb)|(j & f & Hl & Hs & _)]; [exact Hb|].
    rewrite Forall_forall in Hall. exfalso. apply Hs, Hall.
    eapply list_elem_of_lookup_2. exact Hl.
  - intros c hc q Hc Hhc Hhc0 Hq Hq0 Hpc Hpa Hsqrt. subst b'. rewrite Hc.
    rewrite Hhc, Hq.
    destruct (position c) as [[cx|] [cy|] [cz|]]; try discriminate.
    destruct (a_position a) as [[ax|] [ay|] [az|]]; try discriminate.
    unfold vdistanceTo, vlength, vlengthSq, vdot, vsub.
    cbn [vx vy vz nsub nmul nadd num2 nsqrt].
    set (sq := (ax - cx) * (ax - cx) + (ay - cy) * (ay - cy)
               + (az - cz) * (az - cz)).
    assert (Hsq : 0 <= sq).
    { pose proof (Qsq_nonneg (ax - cx)). pose proof (Qsq_nonneg (ay - cy)).
      pose proof (Qsq_nonneg (az - cz)). subst sq. lra. }
    assert (Esq : Qltb sq 0 = false) by (apply Qltb_ge; exact Hsq).
    rewrite Esq. specialize (Hsqrt sq Hsq). set (d := Msqrt sq) in *.
    cbn [nmin num2 nsub nadd nmul]. rewrite !ndiv_Fin by reflexivity.
    cbn [nadd nmul num2].
    destruct Hb as [(Ht & Hb)|(j & f & _ & _ & Hb)].
    + subst t b. cbn [ngtb nltb ncmp].
      set (md := if Qle_bool 50 d then 50 else d).
      assert (Hmd : md <= 50).
      { subst md. destruct (Qle_bool 50 d) eqn:E; [lra|].
        apply Qle_bool_false in E. lra. }
      assert (E : Qltb (-1) (0 + (50 - md) / 50 + hc / 100 + 0.4 + q * 0.3)
                  = true).
      { apply Qltb_lt.
        assert (H1 : (50 - md) / 50 == (50 - md) * (1 # 50)) by field.
        assert (H2 : hc / 100 == hc * (1 # 100)) by field.
        rewrite H1, H2. lra. }
      rewrite E. discriminate.
    + rewrite Hb. destruct (_ >? _)%num; discriminate.
Qed.

(** X24. [findNewTarget] never chooses a dead fighter: the target it sets is
    a fighter of the roster that is not dead, or the commander, or nothing,
    and the animal is put in the 'searching' state exactly when nothing was
    found (otherwise its state is kept).  With every fighter dead and no
    commander nothing is found; with a commander of non-negative finite
    health at a finite position, a finite animal position and a
    non-negative intelligence, something always is.  Nothing else of the
    animal is written, and the game only has two random values drawn for
    every fighter that is not dead. *)
Theorem findNewTarget_spec :
  forall (m : AnimalMind) (a : Animal) (g : Game),
    let a' := fst (findNewTarget random m a g) in
    let g' := snd (findNewTarget random m a g) in
    (forall i : nat,
        a_target a' = Some (RFighter i) ->
        exists f : Unit, fighters g !! i = Some f /\ state f <> Dead)
    /\ (a_target a' = Some RCommander -> commander g <> None)
    /\ (a_target a' = None -> a_state a' = Searching)
    /\ (a_target a' <> None -> a_state a' = a_state a)
    /\ a' = a_set_target (a_target a') (a_state a') a
    /\ g' = g_set_randomDraws
              (randomDraws g
               + 2 * length (filter (fun f => state f <> Dead) (fighters g))) g
    /\ (Forall (fun f => state f = Dead) (fighters g) -> commander g = None ->
        a_target a' = None)
    /\ (forall (c : Unit) (hc q : Q),
          commander g = Some c -> health c = Fin hc -> 0 <= hc ->
          intelligence m = Fin q -> 0 <= q ->
          vfinite (position c) = true -> vfinite (a_position a) = true ->
          (forall x : Q, 0 <= x -> 0 <= Msqrt x) ->
          a_target a' <> None).
Proof. exact findNewTarget_inv. Qed.

(** *** The choice of a behaviour *)

Lemma pickBehavior_in (options : list (string * num)) (rnd c : num)
    (name : string) :
  pickBehavior options rnd c = Some name -> name ∈ map fst options.
Proof.
  revert c. induction options as [|[n w] options IH]; intros c; [discriminate|].
  cbn [pickBehavior map fst]. destruct (_ <=? _)%num.
  - intros E. injection E as <-. apply elem_of_cons. left. reflexivity.
  - intros E. apply elem_of_cons. right. eapply IH. exact E.
Qed.

Lemma pickBehavior_total (options : list (string * num)) (r c s : Q) :
  options <> [] ->
  fold_left (fun (sum : num) (option : string * num) => (sum + snd option)%num)
    options (Fin c) = Fin s ->
  r <= s ->
  exists name : string, pickBehavior options (Fin r) (Fin c) = Some name.
Proof.
  revert c. induction options as [|[n w] options IH]; intros c Hne Hsum Hr;
    [contradiction|].
  cbn [pickBehavior fold_left snd] in *.
  destruct w as [w|].
  2:{ exfalso. clear -Hsum. cbn in Hsum. revert Hsum.
      generalize options. intros l. induction l as [|o l IHl]; [discriminate|].
      cbn. exact IHl. }
  cbn [nadd num2] in *. cbn [nleb ncmp].
  destruct (Qle_bool r (c + w)) eqn:E; [eexists; reflexivity|].
  apply Qle_bool_false in E.
  destruct options as [|o options].
  - cbn in Hsum. injection Hsum as <-. lra.
  - apply (IH (c + w)); [discriminate|exact Hsum|exact Hr].
Qed.

Lemma weights_sum (options : list (string * num)) (W c0 c : Q) :
  ~ W == 0 ->
  Forall (fun o : string * num => exists w : Q, snd o = Fin w /\ 0 < w) options ->
  exists s t : Q,
    fold_left (fun (sum : num) (option : string * num) => (sum + snd option)%num)
      options (Fin c0) = Fin s
    /\ fold_left (fun (sum : num) (option : string * num) => (sum + snd option)%num)
         (map (fun option : string * num => (fst option, (snd option / Fin W)%num))
            options) (Fin c) = Fin t
    /\ (t - c) * W == s - c0
    /\ c0 <= s /\ (options <> [] -> c0 < s).
Proof.
  intros HW. revert c0 c. induction options as [|[n w] options IH];
    intros c0 c Hpos.
  - exists c0, c. cbn. repeat split; try reflexivity; try lra. contradiction.
  - apply Forall_cons in Hpos as ((wq & Hw & Hwq) & Hpos). cbn [snd] in Hw.
    subst w. cbn [fold_left map fst snd nadd num2].
    rewrite ndiv_Fin by (apply Qeq_bool_false; exact HW).
    cbn [nadd num2].
    destruct (IH (c0 + wq) (c + wq / W) Hpos) as (s & t & Hs & Ht & Heq & Hle & _).
    exists s, t. split; [exact Hs|]. split; [exact Ht|].
    split; [|split; [lra|intros _; lra]].
    assert (Hdiv : wq / W * W == wq) by (field; exact HW).
    lra.
Qed.

Lemma behaviorWeight_positive (m : AnimalMind) (a : Animal) (g : Game)
    (behavior : string) :
  (behaviorWeight m a g behavior >? Fin 0)%num = true ->
  (exists w : Q, behaviorWeight m a g behavior = Fin w /\ 0 < w)
  /\ forall c : num,
       specialCooldowns m !! behavior = Some c -> (c >? Fin 0)%num = false.
Proof.
  intros H. split.
  - destruct (behaviorWeight m a g behavior) as [w|]; [|discriminate].
    exists w. split; [reflexivity|]. apply Qltb_lt. exact H.
  - intros c Hc. unfold behaviorWeight in H. rewrite Hc in H.
    destruct (c >? Fin 0)%num; [discriminate|reflexivity].
Qed.

Lemma behaviorOptions_spec (m : AnimalMind) (a : Animal) (g : Game) (ag : Q) :
  aggression m = Fin ag -> 0 <= ag ->
  behaviorOptions m a g <> []
  /\ Forall (fun o : string * num =>
               (exists w : Q, snd o = Fin w /\ 0 < w)
               /\ (if a_target a is Some _ then
                     fst o = "charge"
                     \/ (fst o ∈ behaviors m
                         /\ forall c : num,
                              specialCooldowns m !! fst o = Some c ->
                              (c >? Fin 0)%num = false)
                   else fst o = "search"))
       (behaviorOptions m a g).
Proof.
  intros Hag Hag0. unfold behaviorOptions.
  destruct (a_target a) as [r|].
  2:{ split; [discriminate|]. repeat constructor. exists 1. split; [reflexivity|lra]. }
  assert (Hloop : forall (l : list string) (acc : list (string * num)),
             (forall b, b ∈ l -> b ∈ behaviors m) ->
             acc <> [] ->
             Forall (fun o : string * num =>
                       (exists w : Q, snd o = Fin w /\ 0 < w)
                       /\ (fst o = "charge"
                           \/ (fst o ∈ behaviors m
                               /\ forall c : num,
                                    specialCooldowns m !! fst o = Some c ->
                                    (c >? Fin 0)%num = false))) acc ->
             let res :=
               fold_left
                 (fun (options : list (string * num)) (behavior : string) =>
                    if decide (behavior = "charge") then options
                    else
                      let weight := behaviorWeight m a g behavior in
                      if (weight >? Fin 0)%num then options ++ [(behavior, weight)]
                      else options) l acc in
             res <> []
             /\ Forall (fun o : string * num =>
                          (exists w : Q, snd o = Fin w /\ 0 < w)
                          /\ (fst o = "charge"
                              \/ (fst o ∈ behaviors m
                                  /\ forall c : num,
                                       specialCooldowns m !! fst o = Some c ->
                                       (c >? Fin 0)%num = false))) res).
  { induction l as [|b l IH]; intros acc Hsub Hne Hacc; cbv zeta.
    - cbn. auto.
    - cbn [fold_left]. apply IH.
      + intros b' Hb'. apply Hsub. apply elem_of_cons. right. exact Hb'.
      + destruct (decide (b = "charge")); [exact Hne|].
        destruct (_ >? _)%num; [|exact Hne].
        intros E. apply app_eq_nil in E as (_ & E). discriminate.
      + destruct (decide (b = "charge")); [exact Hacc|].
        destruct (behaviorWeight m a g b >? Fin 0)%num eqn:E; [|exact Hacc].
        apply Forall_app. split; [exact Hacc|]. constructor; [|constructor].
        destruct (behaviorWeight_positive m a g b E) as (Hw & Hcd).
        split; [exact Hw|]. right. split; [|exact Hcd].
        apply Hsub. apply elem_of_cons. left. reflexivity. }
  apply Hloop.
  - auto.
  - discriminate.
  - constructor; [|constructor]. cbn [fst snd]. rewrite Hag. cbn [nadd nmul num2].
    split; [|left; reflexivity]. eexists. split; [reflexivity|]. lra.
Qed.

Lemma selectNewBehavior_shape (m : AnimalMind) (a : Animal) (g : Game) :
  let m' := fst (fst (selectNewBehavior random m a g)) in
  let a' := snd (fst (selectNewBehavior random m a g)) in
  let total :=
    fold_left (fun (sum : num) (option : string * num) => (sum + snd option)%num)
      (behaviorOptions m a g) (Fin 0) in
  let picked :=
    pickBehavior
      (map (fun option : string * num => (fst option, (snd option / total)%num))
         (behaviorOptions m a g))
      (Fin (random (randomDraws g))) (Fin 0) in
  currentBehavior m'
  = match picked with Some name => Some name | None => currentBehavior m end
  /\ a' = a_set_currentBehavior (currentBehavior m') a
  /\ behaviorTimer m' = behaviorDuration m'
  /\ forall b : string,
       currentBehavior m' = Some b -> b <> "charge" -> b <> "search" ->
       exists c : num,
         specialCooldowns m' !! b = Some c
         /\ c = (Fin 5 + Fin (random (randomDraws g + 2)) * Fin 5)%num.
Proof.
  cbv zeta. unfold selectNewBehavior. cbv zeta. cbn [draw].
  set (cb := match pickBehavior _ _ _ with
             | Some name => Some name
             | None => currentBehavior m
             end).
  destruct (decide (cb = Some "charge")) as [E|E].
  { cbn [fst snd currentBehavior m_set_behavior behaviorTimer behaviorDuration].
    destruct (a_isEnraged a);
      cbn [fst snd currentBehavior m_set_behavior behaviorTimer behaviorDuration];
      (split; [reflexivity|]); (split; [reflexivity|]);
      (split; [reflexivity|]); intros b Hb; congruence. }
  destruct (decide (cb = Some "search")) as [E'|E'].
  { cbn [fst snd currentBehavior m_set_behavior behaviorTimer behaviorDuration].
    destruct (a_isEnraged a);
      cbn [fst snd currentBehavior m_set_behavior behaviorTimer behaviorDuration];
      (split; [reflexivity|]); (split; [reflexivity|]);
      (split; [reflexivity|]); intros b Hb; congruence. }
  cbn [draw fst snd randomDraws g_set_randomDraws].
  destruct (a_isEnraged a);
    cbn [fst snd currentBehavior m_set_behavior behaviorTimer behaviorDuration
         specialCooldowns];
    (split; [reflexivity|]); (split; [reflexivity|]);
    (split; [reflexivity|]); intros b Hb _ _; rewrite Hb; cbn [default];
    eexists; (split; [apply lookup_insert_eq|]);
    replace (randomDraws g + 2)%nat with (S (S (randomDraws g))) by lia;
    reflexivity.
Qed.

(** X25. What [selectNewBehavior] can select (with a non-negative
    aggression).  Whatever value is drawn, the behaviour after the call is
    either the one before it -- the selection loop fell through, no option's
    cumulated weight having reached the value drawn -- or one that the loop
    may select: 'search' when the animal has no target; with a target,
    'charge' or one of the animal's own behaviours whose special cooldown is
    not running.  A value drawn of at most 0.999999 always selects: the
    weights are normalised to sum to 1, and the margin covers the rounding
    of that sum in double arithmetic.  The animal's [currentBehavior] is the
    engine's and nothing else of the animal is written, the timer is set to
    the duration, and a behaviour other than 'charge' and 'search' is put on
    a cooldown of 5 + 5 x random. *)
Theorem selectNewBehavior_spec :
  forall (m : AnimalMind) (a : Animal) (g : Game) (ag : Q),
    aggression m = Fin ag -> 0 <= ag ->
    let m' := fst (fst (selectNewBehavior random m a g)) in
    let a' := snd (fst (selectNewBehavior random m a g)) in
    a' = a_set_currentBehavior (currentBehavior m') a
    /\ behaviorTimer m' = behaviorDuration m'
    /\ (currentBehavior m' = currentBehavior m
        \/ exists b : string, currentBehavior m' = Some b /\ selectable m a b)
    /\ (random (randomDraws g) <= 0.999999 ->
        exists b : string, currentBehavior m' = Some b /\ selectable m a b)
    /\ (forall b : string,
          currentBehavior m' = Some b -> b <> "charge" -> b <> "search" ->
          exists c : num,
            specialCooldowns m' !! b = Some c
            /\ c = (Fin 5 + Fin (random (randomDraws g + 2)) * Fin 5)%num).
Proof.
  intros m a g ag Hag Hag0. cbv zeta.
  destruct (selectNewBehavior_shape m a g) as (Hcb & Ha' & Htimer & Hcd).
  cbv zeta in Hcb.
  destruct (behaviorOptions_spec m a g ag Hag Hag0) as (Hne & Hopts).
  set (opts := behaviorOptions m a g) in *.
  assert (Hsel : forall b : string,
             pickBehavior
               (map (fun option : string * num =>
                       (fst option,
                        (snd option
                         / fold_left
                             (fun (sum : num) (option : string * num) =>
                                (sum + snd option)%num) opts (Fin 0))%num))
                  opts)
               (Fin (random (randomDraws g))) (Fin 0) = Some b ->
             selectable m a b).
  { intros b Hpick. apply pickBehavior_in in Hpick.
    rewrite map_map in Hpick. cbn [fst] in Hpick.
    apply list_elem_of_fmap in Hpick as (o & -> & Ho).
    rewrite Forall_forall in Hopts. destruct (Hopts o Ho) as (_ & Hname).
    split.
    - intros Hn. rewrite Hn in Hname. exact Hname.
    - intros Hn. destruct (a_target a); [exact Hname|contradiction]. }
  split; [exact Ha'|]. split; [exact Htimer|]. split; [|split; [|exact Hcd]].
  - destruct (pickBehavior _ _ _) as [b|] eqn:Hpick.
    + right. exists b. split; [exact Hcb|]. apply Hsel. reflexivity.
    + left. exact Hcb.
  - intros Hr.
    assert (Hpos : Forall (fun o : string * num =>
                             exists w : Q, snd o = Fin w /\ 0 < w) opts).
    { eapply Forall_impl; [exact Hopts|]. intros o (H & _). exact H. }
    destruct (weights_sum opts 1 0 0 ltac:(lra) Hpos)
      as (W & _ & HW & _ & _ & _ & HWpos).
    specialize (HWpos Hne). rewrite HW in Hcb, Hsel.
    assert (HW0 : ~ W == 0) by lra.
    destruct (weights_sum opts W 0 0 HW0 Hpos) as (W' & t & HW' & Ht & Heq & _ & _).
    assert (W' = W) by congruence. subst W'.
    assert (Ht1 : t == 1).
    { assert (H1 : t * W == W) by lra.
      assert (H2 : t == t * W / W) by (field; exact HW0).
      rewrite H2, H1. field. exact HW0. }
    destruct (pickBehavior_total
                (map (fun option : string * num =>
                        (fst option, (snd option / Fin W)%num)) opts)
                (random (randomDraws g)) 0 t) as (b & Hpick).
    { intros E. apply map_eq_nil in E. contradiction. }
    { exact Ht. }
    { lra. }
    exists b. rewrite Hpick in Hcb. split; [exact Hcb|].
    apply Hsel. exact Hpick.
Qed.

End AnimalProperties.

(** ** The frame *)

Section FrameProperties.
Context {M : MathLib}.
Variable random : nat -> Q.

Lemma same_clock_refl (g : Game) : same_clock g g.
Proof. split; [apply sound_refl|auto]. Qed.

Lemma same_clock_trans (g1 g2 g3 : Game) :
  same_clock g1 g2 -> same_clock g2 g3 -> same_clock g1 g3.
Proof.
  intros (H1 & H2 & H3 & H4) (K1 & K2 & K3 & K4).
  split; [eapply sound_trans; eassumption|].
  repeat split; congruence.
Qed.

Lemma only_units_clock (g g' : Game) :
  only_units_written g g' ->
  time g' = time g /\ phase g' = phase g /\ animal g' = animal g
  /\ length (fighters g') = length (fighters g).
Proof.
  intros (E & L & _).
  pose proof (f_equal time E) as E1. pose proof (f_equal phase E) as E2.
  pose proof (f_equal animal E) as E3. cbn in E1, E2, E3. auto.
Qed.

Lemma performAttack_clock (a : Animal) (g : Game) (targets : list TargetRef)
    (b : num) :
  same_clock g (snd (performAttack random a g targets b)).
Proof.
  destruct (performAttack_sound random a g targets b) as (S1 & S2).
  unfold performAttack in *. destruct (_ <? _)%num; cbn [snd] in *.
  - apply same_clock_refl.
  - destruct (hits_frame random b targets g) as (H & _).
    apply only_units_clock in H as (Ht & Hp & _ & Hl).
    split; [split; assumption|auto].
Qed.

Lemma assign_vitals (g : Game) (r : TargetRef) (u u' : Unit) :
  deref g r = Some u -> health u' = health u -> state u' = state u ->
  same_clock g (assign r u' g).
Proof.
  intros Hu Hh Hs. split.
  - apply vitals_sound. unfold vitals. destruct r as [i|]; cbn in *.
    + f_equal. rewrite list_fmap_insert. apply list_insert_id.
      rewrite list_lookup_fmap, Hu. cbn. congruence.
    + rewrite Hu. cbn. congruence.
  - destruct r; cbn; repeat split; try reflexivity. apply length_insert.
Qed.

Lemma stun_clock (g : Game) (r : TargetRef) : same_clock g (stun random g r).
Proof.
  unfold stun. cbn [draw].
  assert (H0 : forall n, same_clock g (g_set_randomDraws n g)).
  { intros n. split; [apply vitals_sound; reflexivity|auto]. }
  destruct (_ <? _)%num; [|apply H0].
  destruct (deref _ r) as [u|] eqn:Hu; [|apply H0].
  eapply same_clock_trans; [apply H0|].
  eapply assign_vitals; [exact Hu| |]; reflexivity.
Qed.

Lemma stuns_clock (targets : list TargetRef) (g : Game) :
  same_clock g (fold_left (stun random) targets g).
Proof.
  revert g. induction targets as [|r targets IH]; intros g;
    [apply same_clock_refl|].
  cbn [fold_left]. eapply same_clock_trans; [apply stun_clock|apply IH].
Qed.

Lemma findNewTarget_clock (m : AnimalMind) (a : Animal) (g : Game) :
  same_clock g (snd (findNewTarget random m a g)).
Proof.
  pose proof (findNewTarget_inv random m a g) as H. cbv zeta in H.
  destruct H as (_ & _ & _ & _ & _ & -> & _).
  split; [apply vitals_sound; reflexivity|auto].
Qed.

Lemma behaviour_clock (m : AnimalMind) (a : Animal) (g : Game) (delta : num) :
  same_clock g (snd (executeChargeBehavior random a g delta))
  /\ same_clock g (snd (executeSearchBehavior random m a g delta))
  /\ same_clock g (snd (executePoundBehavior random a g delta))
  /\ same_clock g (snd (executeBiteBehavior random a g delta))
  /\ same_clock g (snd (executeThrowBehavior random a g delta))
  /\ same_clock g (snd (executeAmbushBehavior random m a g delta)).
Proof.
  assert (H0 : forall n, same_clock g (g_set_randomDraws n g)).
  { intros n. split; [apply vitals_sound; reflexivity|auto]. }
  assert (Hpa : forall a0 targets b,
             same_clock g
               (snd (let '(_, a1, g1) := performAttack random a0 g targets b in
                     (a1, g1)))).
  { intros a0 targets b. pose proof (performAttack_clock a0 g targets b) as H.
    destruct (performAttack random a0 g targets b) as [[ok a1] g1]. exact H. }
  split; [|split; [|split; [|split; [|split]]]].
  - unfold executeChargeBehavior.
    destruct (a_target a) as [r|]; [|apply same_clock_refl].
    destruct (deref g r); [|apply same_clock_refl]. cbv zeta.
    destruct (_ <=? _)%num; [apply Hpa|apply same_clock_refl].
  - unfold executeSearchBehavior, randomDirection. cbn [draw]. cbv zeta.
    destruct (searchDirection m); cbn [draw]; destruct (_ <? _)%num;
      cbn [draw];
      match goal with
      | |- context [findNewTarget random ?m0 ?a0 ?g0] =>
          pose proof (findNewTarget_clock m0 a0 g0) as H;
          destruct (findNewTarget random m0 a0 g0) as [a1 g1];
          cbn [snd] in *;
          eapply same_clock_trans; [|exact H];
          (split; [apply vitals_sound; reflexivity|repeat split])
      end.
  - unfold executePoundBehavior.
    destruct (a_target a) as [r|]; [|apply same_clock_refl].
    destruct (deref g r); [|apply same_clock_refl]. cbv zeta.
    destruct (0 <? _)%nat; [|apply same_clock_refl].
    match goal with
    | |- context [performAttack random ?a0 g ?t ?b] =>
        pose proof (performAttack_clock a0 g t b) as H;
        destruct (performAttack random a0 g t b) as [[ok a1] g1]
    end.
    cbn [snd] in *. eapply same_clock_trans; [exact H|apply stuns_clock].
  - unfold executeBiteBehavior.
    destruct (a_target a) as [r|]; [|apply same_clock_refl].
    destruct (deref g r); [|apply same_clock_refl]. cbv zeta.
    destruct (_ <=? _)%num; [apply Hpa|apply same_clock_refl].
  - unfold executeThrowBehavior.
    destruct (a_target a) as [r|]; [|apply same_clock_refl].
    destruct (deref g r); [|apply same_clock_refl]. cbv zeta.
    destruct (_ <=? _)%num; [|apply same_clock_refl].
    match goal with
    | |- context [performAttack random ?a0 g ?t ?b] =>
        pose proof (performAttack_clock a0 g t b) as H;
        destruct (performAttack random a0 g t b) as [[ok a1] g1]
    end.
    cbn [snd] in *. eapply same_clock_trans; [exact H|].
    destruct r as [i|]; [|apply same_clock_refl].
    destruct (deref g1 (RFighter i)) as [u1|] eqn:Hu; [|apply same_clock_refl].
    eapply assign_vitals; [exact Hu| |]; reflexivity.
  - unfold executeAmbushBehavior.
    destruct (a_target a) as [r|]; [|apply same_clock_refl].
    destruct (deref g r); [|apply same_clock_refl].
    destruct (negb _); [apply same_clock_refl|]. cbv zeta.
    destruct (_ <=? _)%num; [|apply same_clock_refl].
    match goal with
    | |- context [performAttack random ?a0 g ?t ?b] =>
        pose proof (performAttack_clock a0 g t b) as H;
        destruct (performAttack random a0 g t b) as [[ok a1] g1]
    end.
    exact H.
Qed.

Lemma executeBehavior_clock (m m' : AnimalMind) (a a' : Animal) (g g' : Game)
    (delta : num) :
  executeBehavior random m a g delta = Ok (m', a', g') -> same_clock g g'.
Proof.
  unfold executeBehavior. cbv zeta.
  set (a0 := a_set_velocity vzero a).
  destruct (behaviour_clock m a0 g delta) as (Hc & Hs & Hp & Hb & Ht & Ha).
  assert (Hfin : forall (r : Res (AnimalMind * Animal * Game)),
             (forall m1 a1 g1, r = Ok (m1, a1, g1) -> same_clock g g1) ->
             bind r (fun r => let '(m0, a1, g0) := r in
                      Ok (m_set_specialCooldowns
                            ((fun c : num =>
                                if (c >? Fin 0)%num then (c - delta)%num else c)
                             <$> specialCooldowns m0) m0, a1, g0))
             = Ok (m', a', g') -> same_clock g g').
  { intros [[[m1 a1] g1]|e] Hr; [|discriminate]. cbn [bind].
    intros E. injection E as _ _ <-. eapply Hr. reflexivity. }
  apply Hfin. clear Hfin. intros m1 a1 g1.
  repeat match goal with
         | |- context [decide ?P] => destruct (decide P) as [?|?]
         end.
  - destruct (executeChargeBehavior random a0 g delta) as [a2 g2].
    intros E. injection E as _ _ <-. exact Hc.
  - destruct (executeSearchBehavior random m a0 g delta) as [[m2 a2] g2].
    intros E. injection E as _ _ <-. exact Hs.
  - destruct (executeSwipeBehavior random a0 g delta) as [[a2 g2]|e] eqn:E;
      [|discriminate].
    apply executeSwipeBehavior_Ok_inv in E as (-> & _).
    cbn [bind fst snd]. intros E. injection E as _ _ <-. apply same_clock_refl.
  - destruct (executePoundBehavior random a0 g delta) as [a2 g2].
    intros E. injection E as _ _ <-. exact Hp.
  - destruct (executeBiteBehavior random a0 g delta) as [a2 g2].
    intros E. injection E as _ _ <-. exact Hb.
  - destruct (executePoundBehavior random a0 g delta) as [a2 g2].
    intros E. injection E as _ _ <-. exact Hp.
  - unfold executeTrampleBehavior.
    destruct (a_target a0) as [r|];
      [|cbn; intros E; injection E as _ _ <-; apply same_clock_refl].
    destruct (deref g r);
      [|cbn; intros E; injection E as _ _ <-; apply same_clock_refl].
    discriminate.
  - destruct (executeThrowBehavior random a0 g delta) as [a2 g2].
    intros E. injection E as _ _ <-. exact Ht.
  - destruct (executeAmbushBehavior random m a0 g delta) as [[m2 a2] g2].
    intros E. injection E as _ _ <-. exact Ha.
  - destruct (executeChargeBehavior random a0 g delta) as [a2 g2].
    intros E. injection E as _ _ <-. exact Hc.
Qed.

Lemma selectNewBehavior_game (m : AnimalMind) (a : Animal) (g : Game) :
  same_clock g (snd (selectNewBehavior random m a g))
  /\ a_state (snd (fst (selectNewBehavior random m a g))) = a_state a.
Proof.
  unfold selectNewBehavior. cbv zeta. cbn [draw].
  repeat match goal with
         | |- context [decide ?P] => destruct (decide P) as [?|?]
         end;
    cbn [draw fst snd]; (split; [|reflexivity]);
    (split; [apply vitals_sound; reflexivity|repeat split]).
Qed.

Lemma AnimalAI_update_clock (delta : num) (m m' : AnimalMind) (g g' : Game) :
  AnimalAI_update random delta m g = Ok (m', g') -> same_clock g g'.
Proof.
  unfold AnimalAI_update.
  destruct (animal g) as [a|];
    [|intros E; injection E as _ <-; apply same_clock_refl].
  destruct (decide (phase g <> Battle));
    [intros E; injection E as _ <-; apply same_clock_refl|].
  cbv zeta.
  set (m1 := m_set_behaviorTimer _ m). set (a1 := updateRageState a delta).
  assert (Hsel : exists m2 a2 g2,
             (if (behaviorTimer m1 <=? Fin 0)%num
              then selectNewBehavior random m1 a1 g else (m1, a1, g))
             = (m2, a2, g2) /\ same_clock g g2).
  { destruct (_ <=? _)%num.
    - destruct (selectNewBehavior_game m1 a1 g) as (H & _).
      destruct (selectNewBehavior random m1 a1 g) as [[m2 a2] g2].
      eexists _, _, _. split; [reflexivity|exact H].
    - eexists _, _, _. split; [reflexivity|apply same_clock_refl]. }
  destruct Hsel as (m2 & a2 & g2 & -> & H2).
  assert (Hset : forall (x : option Animal) (g0 : Game),
             same_clock g g0 -> same_clock g (g_set_animal x g0)).
  { intros x g0 (S1 & S2 & S3 & S4). split; [exact S1|auto]. }
  destruct (decide (a_state a2 = Stunned)).
  { intros E. injection E as _ <-. apply Hset. exact H2. }
  assert (Hfind : exists a3 g3,
             (if match a_target a2 with
                 | None => true
                 | Some r =>
                     match deref g2 r with
                     | Some target => bool_decide (state target = Dead)
                     | None => false
                     end
                 end
              then findNewTarget random m2 a2 g2 else (a2, g2))
             = (a3, g3) /\ same_clock g g3).
  { destruct (match a_target a2 with None => true | Some _ => _ end).
    - pose proof (findNewTarget_clock m2 a2 g2) as H.
      destruct (findNewTarget random m2 a2 g2) as [a3 g3].
      eexists _, _. split; [reflexivity|].
      eapply same_clock_trans; [exact H2|exact H].
    - eexists _, _. split; [reflexivity|exact H2]. }
  destruct Hfind as (a3 & g3 & -> & H3).
  destruct (executeBehavior random m2 a3 g3 delta) as [[[m4 a4] g4]|e] eqn:E4;
    [|discriminate].
  apply executeBehavior_clock in E4. cbn [bind].
  intros E. injection E as _ <-. apply Hset.
  eapply same_clock_trans; [exact H3|exact E4].
Qed.

Lemma updateCommander_clock (cfg : Config) (keys : Keys)
    (cameraRotationY delta : num) (g : Game) :
  same_clock g (updateCommander cfg keys cameraRotationY delta g).
Proof.
  unfold updateCommander. destruct (commander g) as [c|] eqn:Hc;
    [|apply same_clock_refl]. cbv zeta.
  set (c1 := set_motion _ _ _ c). set (g1 := g_set_commander (Some c1) g).
  assert (H1 : same_clock g g1).
  { split; [|repeat split]. apply vitals_sound. unfold vitals. subst g1.
    cbn. rewrite Hc. reflexivity. }
  set (g2 := if KeyE keys then rallyNearbyFighters g1 else g1).
  assert (H2 : same_clock g1 g2).
  { subst g2. destruct (KeyE keys); [|apply same_clock_refl].
    split; [apply rallyNearbyFighters_sound|].
    destruct (rallyNearbyFighters_commander g1) as (_ & _ & _ & Ht & Hp).
    split; [exact Ht|]. split; [exact Hp|].
    unfold rallyNearbyFighters. destruct (commander g1); [|reflexivity].
    cbn. apply length_map. }
  set (g3 := if mouseIsDown g2 then commanderAttack g2 else g2).
  assert (H3 : same_clock g2 g3).
  { subst g3. destruct (mouseIsDown g2); [|apply same_clock_refl].
    split; [apply commanderAttack_sound|].
    unfold commanderAttack. destruct (commander g2), (animal g2); auto.
    destruct (_ <? _)%num; auto. cbv zeta. destruct (_ <=? _)%num; auto. }
  assert (H4 : same_clock g3
                 match commander g3 with
                 | Some c3 => g_set_commander (Some (keepInArena cfg c3)) g3
                 | None => g3
                 end).
  { destruct (commander g3) as [c3|] eqn:Hc3; [|apply same_clock_refl].
    split; [|repeat split]. apply vitals_sound. unfold vitals. cbn.
    rewrite Hc3. reflexivity. }
  eapply same_clock_trans; [exact H1|].
  eapply same_clock_trans; [exact H2|].
  eapply same_clock_trans; [exact H3|exact H4].
Qed.

Lemma checkBattleEnd_units (g g' : Game) :
  checkBattleEnd g = Ok g' ->
  sound g g' /\ time g' = time g
  /\ length (fighters g') = length (fighters g)
  /\ (phase g' = phase g \/ phase g' = Result).
Proof.
  unfold checkBattleEnd, endBattle.
  assert (Hend : forall s msg, sound g (g_end s msg g)
                               /\ time (g_end s msg g) = time g
                               /\ length (fighters (g_end s msg g))
                                  = length (fighters g)
                               /\ (phase (g_end s msg g) = phase g
                                   \/ phase (g_end s msg g) = Result)).
  { intros s msg. split; [apply vitals_sound; reflexivity|]. auto. }
  destruct (animalDefeated g).
  - intros E. injection E as <-. apply Hend.
  - destruct (_ || _).
    + destruct (animal g); [|discriminate]. intros E. injection E as <-.
      apply Hend.
    + intros E. injection E as <-. split; [apply sound_refl|auto].
Qed.

Lemma FighterAI_update_keeps_roster_frame (delta : num) (g : Game) :
  length (fighters (FighterAI_update delta g)) = length (fighters g)
  /\ time (FighterAI_update delta g) = time g
  /\ phase (FighterAI_update delta g) = phase g.
Proof.
  unfold FighterAI_update. destruct (decide (phase g <> Battle)); [auto|].
  cbv zeta.
  destruct (updateFormationCenter_frame g) as ((Hp & _ & Ht & _) & Hfs & _).
  set (g0 := updateFormationCenter g) in *.
  destruct (updateLoop_frame delta (seq 0 (length (fighters g0))) g0)
    as ((Kp & _ & Kt & _) & Klen & _).
  repeat split; congruence.
Qed.

(** X26. The health invariant across a whole frame.  When [update] runs a
    frame to its end (no behaviour throws), every fighter and the commander
    come out sound if they went in sound: health not negative, dead exactly
    at health 0, and whoever was dead is still dead -- through the
    commander's move, rally and attack, the fighter engine, every behaviour
    of the animal and the end-of-battle check.  No fighter is added or
    removed; the clock advances by [delta] in the battle phase and stands
    still otherwise; and the phase changes only from battle to result. *)
Theorem update_keeps_units_sound :
  forall (cfg : Config) (keys : Keys) (cameraRotationY delta : num)
         (m m' : AnimalMind) (g g' : Game),
    update random cfg keys cameraRotationY delta m g = Ok (m', g') ->
    units_ok g ->
    units_ok g' /\ stays_dead g g'
    /\ length (fighters g') = length (fighters g)
    /\ time g' = (if decide (phase g = Battle) then (time g + delta)%num
                  else time g)
    /\ (phase g' = phase g \/ (phase g = Battle /\ phase g' = Result)).
Proof.
  intros cfg keys cam delta m m' g g' Hrun Hok.
  assert (Hmain : sound g g'
                  /\ length (fighters g') = length (fighters g)
                  /\ time g' = (if decide (phase g = Battle)
                                then (time g + delta)%num else time g)
                  /\ (phase g' = phase g
                      \/ (phase g = Battle /\ phase g' = Result))).
  { unfold update in Hrun. destruct (phase g) eqn:Hp.
    - injection Hrun as _ <-. unfold updateSetupPhase.
      destruct (decide (Setup = Battle)); [discriminate|].
      assert (Hv : forall g0 : Game,
                 vitals g0 = vitals g -> time g0 = time g ->
                 phase g0 = phase g -> fighters g0 = fighters g ->
                 sound g g0 /\ length (fighters g0) = length (fighters g)
                 /\ time g0 = time g
                 /\ (phase g0 = Setup \/ Setup = Battle /\ phase g0 = Result)).
      { intros g0 H1 H2 H3 H4. split; [apply vitals_sound; exact H1|].
        rewrite H4, H2, H3. auto. }
      destruct (animal g) as [a|] eqn:Ha; cbn [commander g_set_animal];
        destruct (commander g) as [c|] eqn:Hc; apply Hv;
        unfold vitals; cbn; rewrite ?Hc; reflexivity.
    - unfold updateBattlePhase in Hrun. cbv zeta in Hrun.
      set (g1 := g_set_time (time g + delta)%num g) in *.
      set (g2 := updateCommander cfg keys cam delta g1) in *.
      set (g3 := FighterAI_update delta g2) in *.
      destruct (AnimalAI_update random delta m g3) as [[m4 g4]|e] eqn:E4;
        [|discriminate].
      cbn [bind] in Hrun.
      destruct (checkBattleEnd g4) as [g5|e] eqn:E5; [|discriminate].
      cbn [bind] in Hrun. injection Hrun as _ <-.
      assert (H1 : same_clock g1 g2) by apply updateCommander_clock.
      assert (H2 : sound g2 g3) by apply (FighterAI_update_sound random).
      destruct (FighterAI_update_keeps_roster_frame delta g2)
        as (Hl3 & Ht3 & Hp3).
      fold g3 in Hl3, Ht3, Hp3.
      apply AnimalAI_update_clock in E4 as (S4 & Ht4 & Hp4 & Hl4).
      apply checkBattleEnd_units in E5 as (S5 & Ht5 & Hl5 & Hp5).
      destruct H1 as (S1 & Ht1 & Hp1 & Hl1).
      assert (S0 : sound g g1) by (apply vitals_sound; reflexivity).
      split.
      { eapply sound_trans; [exact S0|]. eapply sound_trans; [exact S1|].
        eapply sound_trans; [exact H2|]. eapply sound_trans; eassumption. }
      split; [rewrite Hl5, Hl4, Hl3, Hl1; reflexivity|].
      destruct (decide (Battle = Battle)); [|contradiction].
      split; [rewrite Ht5, Ht4, Ht3, Ht1; reflexivity|].
      destruct Hp5 as [Hp5|Hp5]; [left|right; auto].
      rewrite Hp5, Hp4, Hp3, Hp1. exact Hp.
    - injection Hrun as _ <-. destruct (decide (Result = Battle)); [discriminate|].
      split; [apply sound_refl|]. rewrite Hp. auto. }
  destruct Hmain as (Hs & Hl & Ht & Hp).
  destruct (sound_units_ok g g' Hs Hok) as (H1 & H2). auto.
Qed.

End FrameProperties.

(** ** The behaviours of the animal *)

Section BehaviourProperties.
Context {M : MathLib}.
Variable random : nat -> Q.

Lemma findNewTarget_keeps_animal (m : AnimalMind) (a : Animal) (g : Game) :
  a_velocity (fst (findNewTarget random m a g)) = a_velocity a
  /\ a_moveSpeed (fst (findNewTarget random m a g)) = a_moveSpeed a
  /\ a_position (fst (findNewTarget random m a g)) = a_position a.
Proof.
  destruct (findNewTarget_inv random m a g) as (_ & _ & _ & _ & H & _).
  cbv zeta in H. rewrite H. destruct a. repeat split.
Qed.

Lemma executeSearchBehavior_frame (m : AnimalMind) (a : Animal) (g : Game)
    (delta : num) :
  let r := executeSearchBehavior random m a g delta in
  searchDirection (fst (fst r)) = Some (a_velocity (snd (fst r)))
  /\ fst (fst r) = m_set_searchDirection (searchDirection (fst (fst r))) m
  /\ a_moveSpeed (snd (fst r)) = a_moveSpeed a
  /\ a_position (snd (fst r)) = a_position a
  /\ (forall d : Vec3,
        searchDirection m = Some d ->
        (Fin (random (randomDraws g)) <? Fin 0.02)%num = false ->
        a_velocity (snd (fst r))
        = vscale d (a_moveSpeed a * Fin 0.5 * delta)%num).
Proof.
  cbv zeta. unfold executeSearchBehavior, randomDirection.
  destruct (searchDirection m) as [d0|] eqn:Hd; cbn [draw]; cbv zeta.
  - destruct (Fin (random (randomDraws g)) <? Fin 0.02)%num eqn:Hr; cbn [draw];
      match goal with
      | |- context [findNewTarget random ?m0 ?a0 ?g0] =>
          pose proof (findNewTarget_keeps_animal m0 a0 g0) as (H1 & H2 & H3);
          destruct (findNewTarget random m0 a0 g0) as [a1 g1]
      end; cbn [fst snd] in *; rewrite H1, H2, H3;
      (split; [reflexivity|]); (split; [reflexivity|]);
      (split; [reflexivity|]); (split; [reflexivity|]);
      intros d Hd' Hr'; [discriminate Hr'|].
    injection Hd' as <-. reflexivity.
  - destruct (_ <? _)%num; cbn [draw];
      match goal with
      | |- context [findNewTarget random ?m0 ?a0 ?g0] =>
          pose proof (findNewTarget_keeps_animal m0 a0 g0) as (H1 & H2 & H3);
          destruct (findNewTarget random m0 a0 g0) as [a1 g1]
      end; cbn [fst snd] in *; rewrite H1, H2, H3;
      (split; [reflexivity|]); (split; [reflexivity|]);
      (split; [reflexivity|]); (split; [reflexivity|]);
      intros d Hd'; discriminate Hd'.
Qed.

(** X27. The search does not keep its direction: [executeSearchBehavior]
    scales the stored [searchDirection] in place, so after the call the
    stored direction is the velocity of that frame, not a unit vector.  When
    the 2% redirection is not drawn, the velocity is the stored direction
    times moveSpeed x 0.5 x delta, and so the step of the next search frame
    is the step of this one scaled again by moveSpeed x 0.5 x delta: the
    wandering speeds up or dies out geometrically instead of going on at a
    steady pace.  The animal's position and move speed are not written. *)
Theorem executeSearchBehavior_overwrites_direction :
  forall (m : AnimalMind) (a : Animal) (g : Game) (delta : num),
    let r := executeSearchBehavior random m a g delta in
    let m' := fst (fst r) in
    let a' := snd (fst r) in
    searchDirection m' = Some (a_velocity a')
    /\ m' = m_set_searchDirection (searchDirection m') m
    /\ a_moveSpeed a' = a_moveSpeed a /\ a_position a' = a_position a
    /\ (forall d : Vec3,
          searchDirection m = Some d ->
          (Fin (random (randomDraws g)) <? Fin 0.02)%num = false ->
          a_velocity a' = vscale d (a_moveSpeed a * Fin 0.5 * delta)%num)
    /\ (forall delta2 : num,
          (Fin (random (randomDraws (snd r))) <? Fin 0.02)%num = false ->
          a_velocity (snd (fst (executeSearchBehavior random m' a' (snd r) delta2)))
          = vscale (a_velocity a') (a_moveSpeed a * Fin 0.5 * delta2)%num).
Proof.
  intros m a g delta r m' a'.
  destruct (executeSearchBehavior_frame m a g delta) as (H1 & H2 & H3 & H4 & H5).
  fold r in H1, H2, H3, H4, H5. fold m' a' in H1, H2, H3, H4, H5.
  split; [exact H1|]. split; [exact H2|]. split; [exact H3|].
  split; [exact H4|]. split; [exact H5|].
  intros delta2 Hr.
  destruct (executeSearchBehavior_frame m' a' (snd r) delta2)
    as (_ & _ & _ & _ & H6).
  cbv zeta in H6. rewrite (H6 _ H1 Hr), H3. reflexivity.
Qed.

Lemma executeBehavior_ambushPrepared (m m' : AnimalMind) (a a' : Animal)
    (g g' : Game) (delta : num) :
  executeBehavior random m a g delta = Ok (m', a', g') ->
  ambushPrepared m = true -> ambushPrepared m' = true.
Proof.
  unfold executeBehavior. cbv zeta. intros E Hm. revert E.
  set (a0 := a_set_velocity vzero a).
  assert (Hfin : forall (r : Res (AnimalMind * Animal * Game)),
             (forall m1 a1 g1, r = Ok (m1, a1, g1) -> ambushPrepared m1 = true) ->
             bind r (fun r => let '(m0, a1, g0) := r in
                      Ok (m_set_specialCooldowns
                            ((fun c : num =>
                                if (c >? Fin 0)%num then (c - delta)%num else c)
                             <$> specialCooldowns m0) m0, a1, g0))
             = Ok (m', a', g') -> ambushPrepared m' = true).
  { intros [[[m1 a1] g1]|e] Hr; [|discriminate]. cbn [bind].
    intros E. injection E as <- _ _. cbn. eapply Hr. reflexivity. }
  apply Hfin. clear Hfin. intros m1 a1 g1.
  repeat match goal with
         | |- context [decide ?P] => destruct (decide P) as [?|?]
         end.
  - destruct (executeChargeBehavior random a0 g delta) as [a2 g2].
    intros E. injection E as <- _ _. exact Hm.
  - destruct (executeSearchBehavior_frame m a0 g delta) as (_ & H & _).
    cbv zeta in H.
    destruct (executeSearchBehavior random m a0 g delta) as [[m2 a2] g2].
    intros E. injection E as <- _ _. cbn [fst] in H. rewrite H. exact Hm.
  - destruct (executeSwipeBehavior random a0 g delta) as [[a2 g2]|err];
      [|discriminate].
    cbn [bind]. intros E. injection E as <- _ _. exact Hm.
  - destruct (executePoundBehavior random a0 g delta) as [a2 g2].
    intros E. injection E as <- _ _. exact Hm.
  - destruct (executeBiteBehavior random a0 g delta) as [a2 g2].
    intros E. injection E as <- _ _. exact Hm.
  - destruct (executePoundBehavior random a0 g delta) as [a2 g2].
    intros E. injection E as <- _ _. exact Hm.
  - destruct (executeTrampleBehavior random a0 g delta) as [[a2 g2]|err];
      [|discriminate].
    cbn [bind]. intros E. injection E as <- _ _. exact Hm.
  - destruct (executeThrowBehavior random a0 g delta) as [a2 g2].
    intros E. injection E as <- _ _. exact Hm.
  - unfold executeAmbushBehavior. rewrite Hm. cbn [negb]. cbv zeta.
    destruct (a_target a0) as [r|];
      [|intros E; injection E as <- _ _; exact Hm].
    destruct (deref g r); [|intros E; injection E as <- _ _; exact Hm].
    destruct (_ <=? _)%num; [|intros E; injection E as <- _ _; exact Hm].
    destruct (performAttack random _ g [r] _) as [[ok a2] g2].
    intros E. injection E as <- _ _. exact Hm.
  - destruct (executeChargeBehavior random a0 g delta) as [a2 g2].
    intros E. injection E as <- _ _. exact Hm.
Qed.

Lemma selectNewBehavior_ambushPrepared (m : AnimalMind) (a : Animal) (g : Game) :
  ambushPrepared (fst (fst (selectNewBehavior random m a g))) = ambushPrepared m.
Proof.
  unfold selectNewBehavior. cbv zeta. cbn [draw].
  repeat match goal with
         | |- context [decide ?P] => destruct (decide P) as [?|?]
         end;
    reflexivity.
Qed.

(** X28. The animal hides only once.  An ambush frame with a target and the
    flag [ambushPrepared] not set does nothing but set the flag and stop the
    animal: no move, no attack.  No frame of the animal engine clears the
    flag again: once set it is still set after every [AnimalAI.update] that
    runs to its end, whatever behaviours are selected, so every later ambush
    is an immediate pounce; only [createAnimal] makes an animal with the
    flag off. *)
Theorem ambush_is_prepared_once :
  forall (delta : num) (m m' : AnimalMind) (g g' : Game),
    AnimalAI_update random delta m g = Ok (m', g') ->
    ambushPrepared m = true ->
    ambushPrepared m' = true
    /\ (forall (m0 : AnimalMind) (a : Animal) (r : TargetRef) (target : Unit),
          a_target a = Some r -> deref g r = Some target ->
          ambushPrepared m0 = false ->
          executeAmbushBehavior random m0 a g delta
          = (m_set_ambushPrepared true m0, a_set_velocity vzero a, g))
    /\ (forall (cfg : Config) (type : string) (a : Animal) (m1 : AnimalMind)
               (g1 : Game),
          createAnimal random cfg type m g = Ok (a, m1, g1) ->
          ambushPrepared m1 = false).
Proof.
  intros delta m m' g g' E Hm. split; [|split].
  - revert E. unfold AnimalAI_update.
    destruct (animal g) as [a|]; [|intros E; injection E as <- _; exact Hm].
    destruct (decide (phase g <> Battle));
      [intros E; injection E as <- _; exact Hm|].
    cbv zeta.
    set (m1 := m_set_behaviorTimer _ m). set (a1 := updateRageState a delta).
    assert (Hsel : exists m2 a2 g2,
               (if (behaviorTimer m1 <=? Fin 0)%num
                then selectNewBehavior random m1 a1 g else (m1, a1, g))
               = (m2, a2, g2) /\ ambushPrepared m2 = true).
    { destruct (_ <=? _)%num.
      - pose proof (selectNewBehavior_ambushPrepared m1 a1 g) as H.
        destruct (selectNewBehavior random m1 a1 g) as [[m2 a2] g2].
        eexists _, _, _. split; [reflexivity|]. cbn [fst] in H. rewrite H.
        exact Hm.
      - eexists _, _, _. split; [reflexivity|exact Hm]. }
    destruct Hsel as (m2 & a2 & g2 & -> & H2).
    destruct (decide (a_state a2 = Stunned)).
    { intros E. injection E as <- _. exact H2. }
    destruct (if match a_target a2 with None => true | Some _ => _ end
              then findNewTarget random m2 a2 g2 else (a2, g2)) as [a3 g3].
    destruct (executeBehavior random m2 a3 g3 delta) as [[[m4 a4] g4]|e] eqn:E4;
      [|discriminate].
    apply executeBehavior_ambushPrepared in E4; [|exact H2]. cbn [bind].
    intros E. injection E as <- _. exact E4.
  - intros m0 a r target Ht Hr H0. unfold executeAmbushBehavior.
    rewrite Ht, Hr, H0. reflexivity.
  - intros cfg type a m1 g1. unfold createAnimal. cbv zeta.
    destruct (animalTypes_get _); try discriminate.
    cbn [draw]. intros E1. injection E1 as _ <- _. reflexivity.
Qed.

Lemma deref_assign_ne (r r' : TargetRef) (u : Unit) (g : Game) :
  r' <> r -> deref (assign r u g) r' = deref g r'.
Proof.
  intros Hne. destruct r as [i|], r' as [j|]; cbn; try reflexivity.
  - apply list_lookup_insert_ne. congruence.
  - congruence.
Qed.

Lemma performAttack_others (a : Animal) (g : Game) (r r' : TargetRef) (b : num) :
  r' <> r -> deref (snd (performAttack random a g [r] b)) r' = deref g r'.
Proof.
  intros Hne. unfold performAttack.
  destruct (_ <? _)%num; cbn [snd]; [reflexivity|].
  destruct (hits_frame random b [r] g) as (_ & H & _).
  apply H. intros Hin. apply list_elem_of_singleton in Hin. contradiction.
Qed.

Lemma single_target_behaviours (m : AnimalMind) (a : Animal) (g : Game)
    (delta : num) (r' : TargetRef) :
  a_target a <> Some r' ->
  deref (snd (executeChargeBehavior random a g delta)) r' = deref g r'
  /\ deref (snd (executeSearchBehavior random m a g delta)) r' = deref g r'
  /\ deref (snd (executeBiteBehavior random a g delta)) r' = deref g r'
  /\ deref (snd (executeThrowBehavior random a g delta)) r' = deref g r'
  /\ deref (snd (executeAmbushBehavior random m a g delta)) r' = deref g r'.
Proof.
  intros Hne.
  assert (Hpa : forall a0 r b, r' <> r ->
             deref (snd (let '(_, a1, g1) := performAttack random a0 g [r] b in
                         (a1, g1))) r' = deref g r').
  { intros a0 r b Hr. pose proof (performAttack_others a0 g r r' b Hr) as H.
    destruct (performAttack random a0 g [r] b) as [[ok a1] g1]. exact H. }
  split; [|split; [|split; [|split]]].
  - unfold executeChargeBehavior.
    destruct (a_target a) as [r|]; [|reflexivity].
    destruct (deref g r); [|reflexivity]. cbv zeta.
    destruct (_ <=? _)%num; [apply Hpa; congruence|reflexivity].
  - unfold executeSearchBehavior, randomDirection. cbn [draw]. cbv zeta.
    destruct (searchDirection m); cbn [draw]; destruct (_ <? _)%num;
      cbn [draw];
      match goal with
      | |- context [findNewTarget random ?m0 ?a0 ?g0] =>
          destruct (findNewTarget_inv random m0 a0 g0)
            as (_ & _ & _ & _ & _ & H & _);
          cbv zeta in H;
          destruct (findNewTarget random m0 a0 g0) as [a1 g1];
          cbn [snd] in *; rewrite H; destruct r'; reflexivity
      end.
  - unfold executeBiteBehavior.
    destruct (a_target a) as [r|]; [|reflexivity].
    destruct (deref g r); [|reflexivity]. cbv zeta.
    destruct (_ <=? _)%num; [apply Hpa; congruence|reflexivity].
  - unfold executeThrowBehavior.
    destruct (a_target a) as [r|]; [|reflexivity].
    destruct (deref g r); [|reflexivity]. cbv zeta.
    destruct (_ <=? _)%num; [|reflexivity].
    match goal with
    | |- context [performAttack random ?a0 g [r] ?b] =>
        pose proof (performAttack_others a0 g r r' b ltac:(congruence)) as H;
        destruct (performAttack random a0 g [r] b) as [[ok a1] g1]
    end.
    cbn [snd] in *. rewrite <- H.
    destruct r as [i|]; [|reflexivity].
    destruct (deref g1 (RFighter i)); [|reflexivity].
    apply deref_assign_ne. congruence.
  - unfold executeAmbushBehavior.
    destruct (a_target a) as [r|]; [|reflexivity].
    destruct (deref g r); [|reflexivity].
    destruct (negb _); [reflexivity|]. cbv zeta.
    destruct (_ <=? _)%num; [|reflexivity].
    match goal with
    | |- context [performAttack random ?a0 g [r] ?b] =>
        pose proof (performAttack_others a0 g r r' b ltac:(congruence)) as H;
        destruct (performAttack random a0 g [r] b) as [[ok a1] g1]
    end.
    exact H.
Qed.

(** X29. Only the pound reaches beyond the target.  When [executeBehavior]
    returns with a behaviour other than 'pound' and 'pounce' (which runs the
    pound), every fighter and the commander other than the animal's target
    is exactly as before: charge, bite, gore, throw and ambush attack the
    target alone; the search attacks nobody; the sweeps return only when
    they have hit nobody, and the trample only when there is no target. *)
Theorem only_the_pound_reaches_others :
  forall (m m' : AnimalMind) (a a' : Animal) (g g' : Game) (delta : num),
    executeBehavior random m a g delta = Ok (m', a', g') ->
    a_currentBehavior a <> Some "pound" ->
    a_currentBehavior a <> Some "pounce" ->
    forall r' : TargetRef, a_target a <> Some r' -> deref g' r' = deref g r'.
Proof.
  intros m m' a a' g g' delta E Hp1 Hp2 r' Hne. revert E.
  unfold executeBehavior. cbv zeta.
  set (a0 := a_set_velocity vzero a).
  assert (Hne0 : a_target a0 <> Some r') by exact Hne.
  destruct (single_target_behaviours m a0 g delta r' Hne0)
    as (Hc & Hs & Hb & Ht & Ha).
  assert (Hfin : forall (r : Res (AnimalMind * Animal * Game)),
             (forall m1 a1 g1, r = Ok (m1, a1, g1) -> deref g1 r' = deref g r') ->
             bind r (fun r => let '(m0, a1, g0) := r in
                      Ok (m_set_specialCooldowns
                            ((fun c : num =>
                                if (c >? Fin 0)%num then (c - delta)%num else c)
                             <$> specialCooldowns m0) m0, a1, g0))
             = Ok (m', a', g') -> deref g' r' = deref g r').
  { intros [[[m1 a1] g1]|e] Hr; [|discriminate]. cbn [bind].
    intros E. injection E as _ _ <-. eapply Hr. reflexivity. }
  apply Hfin. clear Hfin. intros m1 a1 g1.
  assert (Hb1 : default "null" (a_currentBehavior a0) <> "pound").
  { intros H. apply Hp1. change (a_currentBehavior a0) with (a_currentBehavior a) in H.
    destruct (a_currentBehavior a) as [b|]; cbn in H; [congruence|discriminate H]. }
  assert (Hb2 : default "null" (a_currentBehavior a0) <> "pounce").
  { intros H. apply Hp2. change (a_currentBehavior a0) with (a_currentBehavior a) in H.
    destruct (a_currentBehavior a) as [b|]; cbn in H; [congruence|discriminate H]. }
  repeat match goal with
         | |- context [decide ?P] => destruct (decide P) as [?|?]
         end; try contradiction.
  - destruct (executeChargeBehavior random a0 g delta) as [a2 g2].
    intros E. injection E as _ _ <-. exact Hc.
  - destruct (executeSearchBehavior random m a0 g delta) as [[m2 a2] g2].
    intros E. injection E as _ _ <-. exact Hs.
  - destruct (executeSwipeBehavior random a0 g delta) as [[a2 g2]|err] eqn:E;
      [|discriminate].
    apply executeSwipeBehavior_Ok_inv in E as (-> & _).
    cbn [bind fst snd]. intros E. injection E as _ _ <-. reflexivity.
  - destruct (executeBiteBehavior random a0 g delta) as [a2 g2].
    intros E. injection E as _ _ <-. exact Hb.
  - unfold executeTrampleBehavior.
    destruct (a_target a0) as [r|];
      [|cbn; intros E; injection E as _ _ <-; reflexivity].
    destruct (deref g r);
      [|cbn; intros E; injection E as _ _ <-; reflexivity].
    discriminate.
  - destruct (executeThrowBehavior random a0 g delta) as [a2 g2].
    intros E. injection E as _ _ <-. exact Ht.
  - destruct (executeAmbushBehavior random m a0 g delta) as [[m2 a2] g2].
    intros E. injection E as _ _ <-. exact Ha.
  - destruct (executeChargeBehavior random a0 g delta) as [a2 g2].
    intros E. injection E as _ _ <-. exact Hc.
Qed.

Lemma deref_assign_eq (r : TargetRef) (u u' : Unit) (g : Game) :
  deref g r = Some u -> deref (assign r u' g) r = Some u'.
Proof.
  destruct r as [i|]; cbn; [|reflexivity].
  intros H. apply list_lookup_insert_eq. eapply lookup_lt_Some. exact H.
Qed.

Lemma deref_draws (g : Game) (n : nat) (r : TargetRef) :
  deref (g_set_randomDraws n g) r = deref g r.
Proof. destruct r; reflexivity. Qed.

Lemma stun_step (g : Game) (r r0 : TargetRef) (u : Unit) :
  deref g r0 = Some u ->
  exists u' : Unit,
    deref (stun random g r) r0 = Some u' /\ same_but_stun u u'
    /\ (stunned_by random u -> stunned_by random u')
    /\ (random (randomDraws g) < 0.7 -> r0 = r -> stunned_by random u').
Proof.
  intros Hu. unfold stun. cbn [draw].
  destruct (_ <? _)%num eqn:Hr.
  - match goal with
    | |- context [deref ?gg r] => destruct (deref gg r) as [ur|] eqn:Hur
    end.
    + assert (Hdec : r0 = r \/ r0 <> r).
      { destruct r0 as [i|], r as [j|];
          [destruct (decide (i = j)); [left; congruence|right; congruence]
          |right; discriminate|right; discriminate|left; reflexivity]. }
      destruct Hdec as [->|Hne].
      * eexists. split; [eapply deref_assign_eq; exact Hur|].
        rewrite !deref_draws, Hu in Hur. injection Hur as <-.
        split; [reflexivity|].
        assert (Hs : stunned_by random
                       (set_stun (Fin 1 + Fin (random (S (randomDraws g))))%num u)).
        { split; [reflexivity|]. eexists. reflexivity. }
        split; intros; exact Hs.
      * exists u.
        split; [rewrite deref_assign_ne by exact Hne; rewrite !deref_draws; exact Hu|].
        split; [reflexivity|]. split; [auto|]. intros _ E. contradiction.
    + exists u. split; [rewrite !deref_draws; exact Hu|].
      split; [reflexivity|]. split; [auto|].
      intros _ ->. rewrite !deref_draws, Hu in Hur. discriminate Hur.
  - exists u. split; [rewrite !deref_draws; exact Hu|].
    split; [reflexivity|]. split; [auto|].
    intros Hlt _. apply Qltb_lt in Hlt. unfold nltb, ncmp in Hr. congruence.
Qed.

Lemma stuns_fold (targets : list TargetRef) (g : Game) (r0 : TargetRef)
    (u : Unit) :
  deref g r0 = Some u ->
  exists u' : Unit,
    deref (fold_left (stun random) targets g) r0 = Some u'
    /\ same_but_stun u u'
    /\ ((forall n : nat, random n < 0.7) ->
        stunned_by random u \/ r0 ∈ targets -> stunned_by random u').
Proof.
  revert g u. induction targets as [|r targets IH]; intros g u Hu.
  - exists u. split; [exact Hu|]. split; [reflexivity|].
    intros _ [H|H]; [exact H|inversion H].
  - cbn [fold_left].
    destruct (stun_step g r r0 u Hu) as (u1 & H1 & S1 & K1 & N1).
    destruct (IH _ u1 H1) as (u2 & H2 & S2 & K2).
    exists u2. split; [exact H2|]. split.
    + unfold same_but_stun in *. congruence.
    + intros Hrand [H|H]; apply (K2 Hrand).
      * left. apply K1. exact H.
      * apply elem_of_cons in H as [->|H]; [left|right; exact H].
        apply N1; [apply Hrand|reflexivity].
Qed.

Lemma getFightersInRadius_deref (a : Animal) (g : Game) (radius : num)
    (r : TargetRef) :
  r ∈ getFightersInRadius a g radius -> exists u : Unit, deref g r = Some u.
Proof.
  unfold getFightersInRadius. cbv zeta.
  destruct (radius_loop a radius id (fighters g) [] 0%nat) as (Hin & _).
  cbv zeta in Hin.
  change (imap (fun i x => (id i, x)) (fighters g))
    with (imap pair (fighters g)) in Hin.
  set (results := fold_left _ (imap pair (fighters g)) []) in *.
  assert (Hres : r ∈ results -> exists u, deref g r = Some u).
  { rewrite Hin. intros [H|(i & f & Hl & _ & _ & ->)]; [inversion H|].
    exists f. exact Hl. }
  destruct (commander g) as [c|] eqn:Hc; [|exact Hres].
  destruct (_ <=? _)%num; [|exact Hres].
  intros H. apply elem_of_app in H as [H|H]; [exact (Hres H)|].
  apply list_elem_of_singleton in H. subst r. exists c. exact Hc.
Qed.

Lemma performAttack_keeps_units (a : Animal) (g : Game)
    (targets : list TargetRef) (b : num) (r : TargetRef) (u : Unit) :
  deref g r = Some u ->
  exists u' : Unit, deref (snd (performAttack random a g targets b)) r = Some u'.
Proof.
  intros Hu. unfold performAttack.
  destruct (_ <? _)%num; cbn [snd]; [exists u; exact Hu|].
  destruct (hits_frame random b targets g) as ((_ & Hl & Hc) & _).
  destruct r as [i|]; cbn in *.
  - apply lookup_lt_Some in Hu. rewrite <- Hl in Hu.
    apply lookup_lt_is_Some_2 in Hu. destruct Hu as [u' Hu']. exists u'. exact Hu'.
  - destruct (commander (fold_left _ targets g)) as [c|] eqn:E;
      [exists c; reflexivity|].
    destruct Hc as [_ Hc]. rewrite (Hc eq_refl) in Hu. discriminate Hu.
Qed.

(** X30. The pound stuns whether or not it strikes.  With a target, and a
    generator whose values are all below 0.7, [executePoundBehavior] leaves
    every unit that [getFightersInRadius] finds within the attack range
    stunned, with a stun time of 1 plus a random value -- also when the
    attack itself is refused by the attack cooldown, in which case no unit
    has anything written but its stun fields: no damage is dealt, yet the
    stun is applied. *)
Theorem executePoundBehavior_stuns_without_striking :
  forall (a : Animal) (g : Game) (delta : num) (r : TargetRef) (target : Unit),
    a_target a = Some r -> deref g r = Some target ->
    (forall n : nat, random n < 0.7) ->
    let g' := snd (executePoundBehavior random a g delta) in
    (forall r0 : TargetRef,
        r0 ∈ getFightersInRadius a g (a_attackRange a) ->
        exists u' : Unit, deref g' r0 = Some u' /\ stunned_by random u')
    /\ ((time g - a_lastAttackTime a <? a_attackCooldown a)%num = true ->
        forall (r0 : TargetRef) (u : Unit),
          deref g r0 = Some u ->
          exists u' : Unit, deref g' r0 = Some u' /\ same_but_stun u u').
Proof.
  intros a g delta r target Ht Hr Hrand. cbv zeta.
  unfold executePoundBehavior. rewrite Ht, Hr. cbv zeta.
  set (a1 := a_set_velocity _ a).
  change (getFightersInRadius a1 g (a_attackRange a1))
    with (getFightersInRadius a g (a_attackRange a)).
  set (targets := getFightersInRadius a g (a_attackRange a)).
  destruct (0 <? length targets)%nat eqn:Hlen.
  - split.
    + intros r0 Hin.
      destruct (getFightersInRadius_deref a g _ r0 Hin) as (u & Hu).
      destruct (performAttack_keeps_units a1 g targets
                  (a_attackPower a1 * Fin 1.5)%num r0 u Hu) as (u1 & Hu1).
      destruct (performAttack random a1 g targets _) as [[ok a2] g1].
      cbn [snd] in *.
      destruct (stuns_fold targets g1 r0 u1 Hu1) as (u2 & Hu2 & _ & K).
      exists u2. split; [exact Hu2|]. apply (K Hrand). right. exact Hin.
    + intros Hcd r0 u Hu. unfold performAttack.
      change (a_lastAttackTime a1) with (a_lastAttackTime a).
      change (a_attackCooldown a1) with (a_attackCooldown a).
      rewrite Hcd. cbn [snd].
      destruct (stuns_fold targets g r0 u Hu) as (u2 & Hu2 & S2 & _).
      exists u2. split; [exact Hu2|exact S2].
  - assert (Hnil : targets = []).
    { destruct targets; [reflexivity|discriminate Hlen]. }
    rewrite Hnil. cbn [snd]. split.
    + intros r0 Hin. inversion Hin.
    + intros _ r0 u Hu. exists u. split; [exact Hu|reflexivity].
Qed.

End BehaviourProperties.

(** * The session and animal properties on concrete states *)

Lemma not_inherited_gorilla : "gorilla" ∉ Object_prototype.
Proof. intros H. apply (bool_decide_pack _) in H. vm_compute in H. exact H. Qed.

(** A type that no table has: 'dragon'. *)
Lemma createAnimal_unknown_type_witness :
  createAnimal random_half defaultConfig "dragon" newAnimalAI game_empty
  = createAnimal random_half defaultConfig "gorilla" newAnimalAI game_empty.
Proof.
  apply (createAnimal_unknown_type random_half defaultConfig "dragon"
           newAnimalAI game_empty ltac:(vm_compute; reflexivity)).
  intros H. apply (bool_decide_pack _) in H. vm_compute in H. exact H.
Defined.

(** A lion for the default arena of 100, the generator at one half. *)
Lemma createAnimal_fresh_animal_witness :
  exists (a : Animal) (m' : AnimalMind) (g' : Game),
    createAnimal random_half defaultConfig "lion" newAnimalAI game_empty
    = Ok (a, m', g')
    /\ a_health a = a_maxHealth a
    /\ inside_arena defaultConfig (a_position a).
Proof.
  destruct (createAnimal random_half defaultConfig "lion" newAnimalAI game_empty)
    as [[[a m'] g']|e] eqn:E; [|vm_compute in E; discriminate E].
  exists a, m', g'. split; [reflexivity|].
  destruct (createAnimal_fresh_animal random_half defaultConfig "lion"
              newAnimalAI m' game_empty g' a 100 E eq_refl
              ltac:(vm_compute; discriminate)
              ltac:(split; vm_compute; [discriminate|reflexivity]))
    as (_ & _ & Hh & _ & _ & _ & _ & _ & _ & _ & Hin & _).
  split; [exact Hh|]. apply Hin. vm_compute. discriminate.
Defined.

(** A new session after a lost battle. *)
Lemma setupBattle_fresh_session_witness :
  exists (m' : AnimalMind) (g' : Game),
    setupBattle random_half defaultConfig newAnimalAI game_fallen = Ok (m', g')
    /\ phase g' = Setup /\ fighters g' = [].
Proof.
  destruct (setupBattle_fresh_session random_half defaultConfig newAnimalAI
              game_fallen not_inherited_gorilla)
    as (a & m' & g' & H & Hp & Hf & _).
  exists m', g'. split; [exact H|]. split; [exact Hp|exact Hf].
Defined.

(** One click, then the start of the battle. *)
Lemma new_battle_is_under_way_witness :
  exists (m1 : AnimalMind) (g1 : Game),
    setupBattle random_half defaultConfig newAnimalAI game_fallen = Ok (m1, g1)
    /\ fst (startBattle (placeFighters defaultConfig [vzero] g1)) = true.
Proof.
  destruct (setupBattle random_half defaultConfig newAnimalAI game_fallen)
    as [[m1 g1]|e] eqn:E; [|vm_compute in E; discriminate E].
  exists m1, g1. split; [reflexivity|].
  apply (proj1 (new_battle_is_under_way random_half defaultConfig newAnimalAI
                  m1 game_fallen g1 [vzero] E)).
  split; [discriminate|cbn; lia].
Defined.

(** A defeat with the animal at 900 of 1000: the score is 49. *)
Lemma endBattle_defeat_score_witness :
  exists k : Z,
    endBattle false game_lost = Ok (g_end (Fin (inject_Z k)) "DEFEAT" game_lost)
    /\ k = 49%Z.
Proof.
  destruct (endBattle_defeat_score game_lost (a_set_health (Fin 900) animal0)
              900 1000 eq_refl eq_refl eq_refl
              ltac:(split; vm_compute; [reflexivity|discriminate]))
    as (k & H & _).
  exists k. split; [exact H|].
  assert (E : endBattle false game_lost
              = Ok (g_end (Fin (inject_Z 49)) "DEFEAT" game_lost))
    by (vm_compute; reflexivity).
  rewrite E in H. injection H as H. symmetry. exact H.
Defined.

(** The commander walking forward for one frame. *)
Lemma updateCommander_stays_in_arena_witness :
  exists c' : Unit,
    commander (updateCommander (M := approxMath) defaultConfig forwardKeys
                 (Fin 0) (Fin 0.016) game0) = Some c'
    /\ inside_arena defaultConfig (position c').
Proof.
  destruct (updateCommander_stays_in_arena (M := approxMath) defaultConfig
              forwardKeys 0 0.016 game0 createCommander 100 eq_refl
              ltac:(vm_compute; discriminate) eq_refl eq_refl)
    as (c' & H & Hin & _).
  exists c'. split; [exact H|exact Hin].
Defined.

(** The commander's last blow. *)
Lemma commanderAttack_books_balance_witness :
  exists a' : Animal,
    animal (commanderAttack (M := approxMath) game_last_blow) = Some a'
    /\ num_eq (a_health a' + commanderDamageDealt (commanderAttack (M := approxMath) game_last_blow))%num
              (Fin 3 + Fin 0)%num.
Proof.
  destruct (commanderAttack_books_balance (M := approxMath) game_last_blow
              (a_set_health (Fin 3) (gorilla (mkVec (Fin 0) (Fin 1) (Fin (-1)))))
              createCommander eq_refl eq_refl eq_refl)
    as (a' & c' & Ha & _ & Hsum & _).
  exists a'. split; [exact Ha|exact Hsum].
Defined.

(** Half of the way from 0 to 1 radian. *)
Lemma lerpAngle_turns_towards_target_witness :
  exists r : Q, lerpAngle (M := approxMath) (Fin 0) (Fin 1) (Fin 0.5) = Fin r.
Proof.
  destruct (lerpAngle_turns_towards_target (M := approxMath) 0 1 0.5
              ltac:(vm_compute; reflexivity))
    as (r & d & k & H & _).
  exists r. exact H.
Defined.

(** The two ends of a line of three. *)
Lemma lineFormation_is_centred_witness :
  vec_eq (vadd (lineFormation 0 3 vzero (mkVec (Fin 0) (Fin 0) (Fin (-1))))
               (lineFormation 2 3 vzero (mkVec (Fin 0) (Fin 0) (Fin (-1)))))
         (vscale vzero (Fin 2)).
Proof.
  apply (lineFormation_is_centred 3 0 vzero (mkVec (Fin 0) (Fin 0) (Fin (-1)))
           ltac:(lia) ltac:(lia) eq_refl eq_refl).
Defined.

(** Two fighters next to the animal. *)
Lemma FighterAI_update_only_lowers_animal_health_witness :
  exists a' : Animal,
    animal (FighterAI_update (M := approxMath) (Fin 0.016) game0) = Some a'
    /\ a_recentDamage a' = a_recentDamage animal0.
Proof.
  destruct (FighterAI_update_only_lowers_animal_health (M := approxMath)
              (Fin 0.016) game0 animal0 eq_refl)
    as (a' & H & _ & Hr & _).
  exists a'. split; [exact H|exact Hr].
Defined.

(** F pressed with the circle selected. *)
Lemma handleKeyPress_KeyF_cycles_witness :
  exists name : string,
    handleKeyPress random_half defaultConfig "KeyF" true
      (Overview, gorillaAI, game0)
    = Ok (Overview, gorillaAI,
          g_set_fighterAI (set_currentFormation name (fighterAI game0)) game0)
    /\ name = "line".
Proof.
  destruct (handleKeyPress_KeyF_cycles random_half defaultConfig Overview
              gorillaAI game0 eq_refl)
    as (name & H & _ & Hn & _).
  exists name. split; [exact H|exact (Hn eq_refl)].
Defined.


(** A sweep with the commander 45 units away and the only fighter dead. *)
Lemma executeSwipeBehavior_never_hits_witness :
  exists (a' : Animal) (g' : Game),
    executeSwipeBehavior (M := approxMath) random_half
      (a_set_target (Some RCommander) Idle animal0) game_fallen (Fin 0.016)
    = Ok (a', g')
    /\ g' = game_fallen.
Proof.
  destruct (executeSwipeBehavior (M := approxMath) random_half
              (a_set_target (Some RCommander) Idle animal0) game_fallen
              (Fin 0.016)) as [[a' g']|e] eqn:E;
    [|vm_compute in E; discriminate E].
  exists a', g'. split; [reflexivity|].
  apply (executeSwipeBehavior_never_hits (M := approxMath) random_half
           (a_set_target (Some RCommander) Idle animal0) a' game_fallen g'
           (Fin 0.016) E).
Defined.

(** A trample at the first fighter. *)
Lemma executeTrampleBehavior_throws_witness :
  executeTrampleBehavior (M := approxMath) random_half sweeper game0 (Fin 0.016)
  = Throw (TypeError "Cannot read properties of undefined (reading 'x')").
Proof.
  apply (executeTrampleBehavior_throws (M := approxMath) random_half gorillaAI
           sweeper game0 (Fin 0.016) (RFighter 0) fighter0 eq_refl eq_refl).
Defined.

(** The gorilla selects with a target. *)
Lemma selectNewBehavior_spec_witness :
  exists b : string,
    currentBehavior
      (fst (fst (selectNewBehavior (M := approxMath) random_half gorillaAI
                   sweeper game0))) = Some b
    /\ (b = "charge" \/ b ∈ behaviors gorillaAI).
Proof.
  destruct (selectNewBehavior_spec (M := approxMath) random_half gorillaAI
              sweeper game0 0.8 eq_refl ltac:(vm_compute; discriminate))
    as (_ & _ & _ & Hsel & _).
  destruct (Hsel ltac:(vm_compute; discriminate)) as (b & H & _ & Hb).
  exists b. split; [exact H|].
  destruct (Hb ltac:(discriminate)) as [Hc|[Hc _]]; [left|right]; exact Hc.
Defined.

(** One frame of 16 ms of a battle with two fighters, no key held. *)
Lemma update_keeps_units_sound_witness :
  exists (m' : AnimalMind) (g' : Game),
    update (M := approxMath) random_half defaultConfig noKeys (Fin 0)
      (Fin 0.016) gorillaAI game0 = Ok (m', g')
    /\ units_ok g' /\ time g' = (Fin 5 + Fin 0.016)%num.
Proof.
  assert (Hrun : match update (M := approxMath) random_half defaultConfig noKeys
                         (Fin 0) (Fin 0.016) gorillaAI game0 with
                 | Ok _ => true
                 | Throw _ => false
                 end = true) by (vm_compute; reflexivity).
  revert Hrun.
  destruct (update (M := approxMath) random_half defaultConfig noKeys (Fin 0)
              (Fin 0.016) gorillaAI game0) as [[m' g']|e] eqn:E;
    intros Hrun; [|discriminate Hrun].
  exists m', g'. split; [reflexivity|].
  destruct (update_keeps_units_sound (M := approxMath) random_half defaultConfig
              noKeys (Fin 0) (Fin 0.016) gorillaAI m' game0 g' E)
    as (Hok & _ & _ & Ht & _).
  - apply session_start_units_ok. split.
    + repeat constructor; eexists; reflexivity.
    + intros c Hc. injection Hc as <-. reflexivity.
  - split; [exact Hok|exact Ht].
Defined.

(** A frame of the animal engine with the flag set. *)
Lemma ambush_is_prepared_once_witness :
  exists (m' : AnimalMind) (g' : Game),
    AnimalAI_update (M := approxMath) random_half (Fin 0.016)
      (m_set_ambushPrepared true gorillaAI) game0 = Ok (m', g')
    /\ ambushPrepared m' = true.
Proof.
  assert (Hrun : match AnimalAI_update (M := approxMath) random_half (Fin 0.016)
                         (m_set_ambushPrepared true gorillaAI) game0 with
                 | Ok _ => true
                 | Throw _ => false
                 end = true) by (vm_compute; reflexivity).
  revert Hrun.
  destruct (AnimalAI_update (M := approxMath) random_half (Fin 0.016)
              (m_set_ambushPrepared true gorillaAI) game0)
    as [[m' g']|e] eqn:E; intros Hrun; [|discriminate Hrun].
  exists m', g'. split; [reflexivity|].
  apply (ambush_is_prepared_once (M := approxMath) random_half (Fin 0.016)
           (m_set_ambushPrepared true gorillaAI) m' game0 g' E eq_refl).
Defined.

(** A charge at the first fighter leaves the second alone. *)
Lemma only_the_pound_reaches_others_witness :
  exists (m' : AnimalMind) (a' : Animal) (g' : Game),
    executeBehavior (M := approxMath) random_half gorillaAI
      (a_set_currentBehavior (Some "charge") sweeper) game0 (Fin 0.016)
    = Ok (m', a', g')
    /\ deref g' (RFighter 1) = Some fighter1.
Proof.
  assert (Hrun : match executeBehavior (M := approxMath) random_half gorillaAI
                         (a_set_currentBehavior (Some "charge") sweeper) game0
                         (Fin 0.016) with
                 | Ok _ => true
                 | Throw _ => false
                 end = true) by (vm_compute; reflexivity).
  revert Hrun.
  destruct (executeBehavior (M := approxMath) random_half gorillaAI
              (a_set_currentBehavior (Some "charge") sweeper) game0 (Fin 0.016))
    as [[[m' a'] g']|e] eqn:E; intros Hrun; [|discriminate Hrun].
  exists m', a', g'. split; [reflexivity|].
  apply (only_the_pound_reaches_others (M := approxMath) random_half gorillaAI
           m' (a_set_currentBehavior (Some "charge") sweeper) a' game0 g'
           (Fin 0.016) E ltac:(discriminate) ltac:(discriminate) (RFighter 1)
           ltac:(discriminate)).
Defined.

(** A pound with both fighters within reach. *)
Lemma executePoundBehavior_stuns_without_striking_witness :
  exists u' : Unit,
    deref (snd (executePoundBehavior (M := approxMath) random_half sweeper game0
                  (Fin 0.016))) (RFighter 0) = Some u'
    /\ stunned_by random_half u'.
Proof.
  apply (executePoundBehavior_stuns_without_striking (M := approxMath)
           random_half sweeper game0 (Fin 0.016) (RFighter 0) fighter0
           eq_refl eq_refl).
  - intros n. vm_compute. reflexivity.
  - assert (Hin : getFightersInRadius (M := approxMath) sweeper game0
                    (a_attackRange sweeper) = [RFighter 0; RFighter 1])
      by (vm_compute; reflexivity).
    rewrite Hin. constructor.
Defined.
